(** * A shallow embedding of the blog application's content lifecycle,
      visibility policy, notification fan-out and per-post chat rooms.

    Each definition follows one function of the Python sources under
    [app/]: the ORM models ([app/models]), the blog service and routes
    ([app/blogs/service.py], [app/blogs/routes.py]), the role
    dependencies ([app/auth/rbac.py]), the SSE notifications manager
    ([app/notifications]) and the WebSocket chat ([app/blogs/chat_manager.py],
    [app/blogs/websocket.py]).

    Conventions.
    - The database is an explicit value [Db] threaded through every
      operation; a request that raises leaves it as it was (the session
      dependency rolls back), one that returns commits its writes.
    - [datetime.utcnow()] is an explicit argument, one for each call of it
      that a request makes: [now] for the call in the function itself,
      and an argument of its own for each column default the flush
      evaluates.
    - Python [str] values are lists of Unicode code points.
    - Coroutines are run to completion one after the other: the
      interleavings at [await] points are not part of this model. *)

From Stdlib Require Import ZArith NArith Ascii String List Bool Lia Sorting.Sorted.
From stdpp Require Import base option list gmap sets strings sorting.

Set Warnings "-register-all,-clear-no-such-hyp".

Open Scope Z_scope.

(** ** Python strings *)

Abbreviation pystr := (list N).

Definition py (s : string) : pystr :=
  map N_of_ascii (list_ascii_of_string s).

(** The characters [str.strip()] removes: Unicode white space. *)
Definition is_space (c : N) : bool :=
  (((9 <=? c) && (c <=? 13)) || ((28 <=? c) && (c <=? 32))
   || (c =? 133) || (c =? 160) || (c =? 5760)
   || ((8192 <=? c) && (c <=? 8202))
   || (c =? 8232) || (c =? 8233) || (c =? 8239) || (c =? 8287)
   || (c =? 12288))%N.

Fixpoint lstrip (s : pystr) : pystr :=
  match s with
  | c :: rest => if is_space c then lstrip rest else s
  | [] => []
  end.

Definition rstrip (s : pystr) : pystr := rev (lstrip (rev s)).

Definition strip (s : pystr) : pystr := rstrip (lstrip s).

(** ** Models ([app/models/user.py], [app/models/blog.py],
       [app/models/comment.py]) *)

Module Models.

Inductive UserRole := USER | ADMIN | L1_APPROVER.

Inductive BlogStatus := PENDING | APPROVED | REJECTED.

#[global] Instance UserRole_eq_dec : EqDecision UserRole.
Proof. solve_decision. Defined.

#[global] Instance BlogStatus_eq_dec : EqDecision BlogStatus.
Proof. solve_decision. Defined.

(** The columns of [users] that the modelled code reads. *)
Record User := mkUser {
  user_id : Z;
  username : pystr;
  role : UserRole;
  is_active : bool
}.

Record Blog := mkBlog {
  blog_id : Z;
  title : pystr;
  content : pystr;
  status : BlogStatus;
  author_id : Z;
  images : option (list pystr);
  created_at : Z;
  updated_at : Z;
  deleted_at : option Z
}.

Record Comment := mkComment {
  comment_id : Z;
  comment_content : pystr;
  comment_blog_id : Z;
  comment_user_id : Z;
  comment_created_at : Z
}.

(** The tables, keyed by primary key.  [comments] keeps insertion order. *)
Record Db := mkDb {
  users : gmap Z User;
  blogs : gmap Z Blog;
  comments : list Comment
}.

(** The key the database hands to a new row: one more than the largest
    key of the table (and 1 for an empty table). *)
Definition max_key (ks : list Z) : Z := foldr Z.max 0 ks.

Definition next_blog_id (db : Db) : Z :=
  1 + max_key (elements (dom (blogs db))).

Definition next_comment_id (db : Db) : Z :=
  1 + max_key (map comment_id (comments db)).

Definition set_blogs (db : Db) (bs : gmap Z Blog) : Db :=
  {| users := users db; blogs := bs; comments := comments db |}.

Definition set_comments (db : Db) (cs : list Comment) : Db :=
  {| users := users db; blogs := blogs db; comments := cs |}.

(** Attribute assignments on a loaded [Blog] row. *)
Definition set_status (b : Blog) (s : BlogStatus) : Blog :=
  {| blog_id := blog_id b; title := title b; content := content b;
     status := s; author_id := author_id b; images := images b;
     created_at := created_at b; updated_at := updated_at b;
     deleted_at := deleted_at b |}.

Definition set_updated_at (b : Blog) (t : Z) : Blog :=
  {| blog_id := blog_id b; title := title b; content := content b;
     status := status b; author_id := author_id b; images := images b;
     created_at := created_at b; updated_at := t;
     deleted_at := deleted_at b |}.

Definition set_deleted_at (b : Blog) (t : option Z) : Blog :=
  {| blog_id := blog_id b; title := title b; content := content b;
     status := status b; author_id := author_id b; images := images b;
     created_at := created_at b; updated_at := updated_at b;
     deleted_at := t |}.

Definition set_title (b : Blog) (t : pystr) : Blog :=
  {| blog_id := blog_id b; title := t; content := content b;
     status := status b; author_id := author_id b; images := images b;
     created_at := created_at b; updated_at := updated_at b;
     deleted_at := deleted_at b |}.

Definition set_content (b : Blog) (c : pystr) : Blog :=
  {| blog_id := blog_id b; title := title b; content := c;
     status := status b; author_id := author_id b; images := images b;
     created_at := created_at b; updated_at := updated_at b;
     deleted_at := deleted_at b |}.

Definition set_images (b : Blog) (i : option (list pystr)) : Blog :=
  {| blog_id := blog_id b; title := title b; content := content b;
     status := status b; author_id := author_id b; images := i;
     created_at := created_at b; updated_at := updated_at b;
     deleted_at := deleted_at b |}.

(** [db.flush()] of a loaded row: the row is written back under its key. *)
Definition flush_blog (db : Db) (b : Blog) : Db :=
  set_blogs db (<[blog_id b := b]> (blogs db)).

End Models.

Export Models.

(** ** HTTP outcomes *)

Record HTTPException := mkHTTPException {
  status_code : Z;
  detail : string
}.

Inductive result (A : Type) : Type :=
| Return (a : A)
| Raise (e : HTTPException).

Arguments Return {A} a.
Arguments Raise {A} e.

Definition HTTP_400_BAD_REQUEST : Z := 400.
Definition HTTP_403_FORBIDDEN : Z := 403.
Definition HTTP_404_NOT_FOUND : Z := 404.
Definition HTTP_422_UNPROCESSABLE_ENTITY : Z := 422.
Definition HTTP_500_INTERNAL_SERVER_ERROR : Z := 500.
Definition WS_1008_POLICY_VIOLATION : Z := 1008.

(** ** JSON values, as [json.loads] returns them and [json.dumps] takes them *)

Module Json.

(** Objects keep their members in source order; floats are a decimal
    mantissa and exponent (only their being zero or not is observed). *)
Inductive json :=
| JNull
| JBool (b : bool)
| JInt (z : Z)
| JFloat (mantissa exponent : Z)
| JStr (s : pystr)
| JArr (items : list json)
| JObj (members : list (pystr * json)).

(** [d.get(key)] on the dict built from an object: a later member with the
    same name replaces an earlier one. *)
Fixpoint dict_get (members : list (pystr * json)) (key : pystr) : option json :=
  match members with
  | [] => None
  | (k, v) :: rest =>
      match dict_get rest key with
      | Some v' => Some v'
      | None => if decide (k = key) then Some v else None
      end
  end.

(** [v == s] for a value [v] (or [None]) and a string literal [s]. *)
Definition eq_str (v : option json) (s : pystr) : bool :=
  match v with
  | Some (JStr t) => bool_decide (t = s)
  | _ => false
  end.

(** Python truth value. *)
Definition truthy (v : json) : bool :=
  match v with
  | JNull => false
  | JBool b => b
  | JInt z => negb (z =? 0)
  | JFloat m _ => negb (m =? 0)
  | JStr s => negb (bool_decide (s = []))
  | JArr items => negb (bool_decide (length items = 0%nat))
  | JObj members => negb (bool_decide (length members = 0%nat))
  end.

End Json.

Export Json.

(** ** The notifications manager ([app/notifications/manager.py]) *)

Module Notifications.

(** What the SSE generator yields: [data: <message>] or the heartbeat
    comment line. *)
Inductive sse_line (Text : Type) :=
| DataLine (message : Text)
| HeartbeatLine.

Arguments DataLine {Text} message.
Arguments HeartbeatLine {Text}.

Section Manager.

(** The text type and [json.dumps] belong to the Python library. *)
Context {Text : Type} (json_dumps : json -> Text).

(** [self._clients]: client id -> its queue, oldest message first.  A
    queue is identified with its registry entry; [uuid4()] gives each call
    of [connect] its own [client_id], passed in here. *)

(** [asyncio.Queue.put_nowait] on an unbounded queue. *)
Definition put_nowait (queue : list Text) (message : Text) : list Text :=
  queue ++ [message].

(** [connect], up to its first [yield]: a new empty queue is registered
    and the connection message is produced. *)
Definition connect_open (client_id : string) (clients : gmap string (list Text))
  : gmap string (list Text) * sse_line Text :=
  (<[client_id := []]> clients,
   DataLine (json_dumps (JObj [(py "type", JStr (py "connected"))]))).

(** One turn of the [while True] loop: the oldest queued message, or the
    heartbeat when the wait times out on an empty queue. *)
Definition connect_next (client_id : string) (clients : gmap string (list Text))
  : gmap string (list Text) * sse_line Text :=
  match clients !! client_id with
  | Some (message :: queue) => (<[client_id := queue]> clients, DataLine message)
  | _ => (clients, HeartbeatLine)
  end.

(** The [finally] clause. *)
Definition connect_close (client_id : string) (clients : gmap string (list Text))
  : gmap string (list Text) :=
  delete client_id clients.

Definition new_pending_blog_payload (blog : Blog) : json :=
  JObj [ (py "type", JStr (py "new_pending_blog"));
         (py "blog_id", JInt (blog_id blog));
         (py "title", JStr (title blog));
         (py "author_id", JInt (author_id blog)) ].

Definition notify_new_pending_blog (blog : Blog) (clients : gmap string (list Text))
  : gmap string (list Text) :=
  if decide (clients = ∅) then clients
  else
    let message := json_dumps (new_pending_blog_payload blog) in
    (λ queue, put_nowait queue message) <$> clients.

(** Reading [n] lines from the stream of [client_id]. *)
Fixpoint read_lines (n : nat) (client_id : string) (clients : gmap string (list Text))
  : gmap string (list Text) * list (sse_line Text) :=
  match n with
  | O => (clients, [])
  | S n' =>
      let '(clients1, line) := connect_next client_id clients in
      let '(clients2, lines) := read_lines n' client_id clients1 in
      (clients2, line :: lines)
  end.

End Manager.

End Notifications.

(** ** Role dependencies ([app/auth/rbac.py]) *)

Module Rbac.

(** [current_user] is what [get_current_active_user] resolved to. *)
Definition require_admin (current_user : User) : result User :=
  if decide (role current_user ≠ ADMIN) then
    Raise (mkHTTPException HTTP_403_FORBIDDEN "Access denied. Admin role required.")
  else Return current_user.

Definition require_approver (current_user : User) : result User :=
  if decide (role current_user ∉ [ADMIN; L1_APPROVER]) then
    Raise (mkHTTPException HTTP_403_FORBIDDEN
             "Access denied. Admin or L1 Approver role required.")
  else Return current_user.

End Rbac.

(** ** Blog service ([app/blogs/service.py]) *)

Module Service.

(** [Blog.status == APPROVED] and [Blog.deleted_at IS NULL]. *)
Definition approved_not_deleted (b : Blog) : Prop :=
  status b = APPROVED ∧ deleted_at b = None.

(** [ORDER BY created_at DESC]. *)
Definition newest_first : relation Blog :=
  λ a b, created_at b ≤ created_at a.

#[global] Instance newest_first_dec : RelDecision newest_first.
Proof. intros a b. unfold newest_first. apply _. Defined.

(** The rows of [blogs], as the table enumerates them. *)
Definition blog_rows (db : Db) : list Blog :=
  (map_to_list (blogs db)).*2.

(** [limit] and [offset] are validated by the route before the call.  SQL
    leaves the order of rows with equal [created_at] open; here they come
    out as the merge sort leaves them. *)
Definition list_approved_blogs (db : Db) (limit offset : nat) : list Blog * Z :=
  let base_query :=
    take limit (drop offset
      (merge_sort newest_first (filter approved_not_deleted (blog_rows db)))) in
  let total := length (filter approved_not_deleted (blog_rows db)) in
  (base_query, Z.of_nat total).

Record BlogCreate := mkBlogCreate {
  create_title : pystr;
  create_content : pystr;
  create_images : option (list pystr)
}.

(** [exclude_unset]: a field is absent ([None]), or set to [null]
    ([Some None]) or to a value. *)
Record BlogUpdate := mkBlogUpdate {
  update_title : option (option pystr);
  update_content : option (option pystr);
  update_images : option (option (list pystr))
}.

Section WithNotifications.

Context {Text : Type} (json_dumps : json -> Text).

(** [created_at] and [updated_at] are filled by their column defaults when
    the row is inserted, each by a call of [datetime.utcnow] of its own:
    [now] is what the call for [created_at] returns, [updated_now] what
    the call for [updated_at] returns. *)
Definition create_blog (db : Db) (clients : gmap string (list Text))
    (now updated_now : Z) (current_user : User) (data : BlogCreate)
  : Blog * Db * gmap string (list Text) :=
  let blog :=
    {| blog_id := next_blog_id db;
       title := create_title data;
       content := create_content data;
       status := PENDING;
       author_id := user_id current_user;
       images := create_images data;
       created_at := now;
       updated_at := updated_now;
       deleted_at := None |} in
  (blog, flush_blog db blog,
   Notifications.notify_new_pending_blog json_dumps blog clients).

End WithNotifications.

Definition get_blog_by_id (db : Db) (blog_id : Z) : option Blog :=
  match blogs db !! blog_id with
  | Some blog => if decide (deleted_at blog = None) then Some blog else None
  | None => None
  end.

Definition _can_view_blog (blog : Blog) (user : option User) : bool :=
  if decide (status blog = APPROVED) then true
  else match user with
       | None => false
       | Some user =>
           if decide (user_id user = author_id blog) then true
           else if decide (role user ∈ [ADMIN; L1_APPROVER]) then true
           else false
       end.

Definition get_blog_for_view (db : Db) (blog_id : Z) (current_user : option User)
  : option Blog :=
  match get_blog_by_id db blog_id with
  | None => None
  | Some blog => if negb (_can_view_blog blog current_user) then None else Some blog
  end.

Definition _can_edit_blog (blog : Blog) (user : User) : bool :=
  if decide (role user = ADMIN) then true
  else if decide (author_id blog = user_id user ∧ status blog ≠ APPROVED) then true
  else false.

Definition _can_delete_blog (blog : Blog) (user : User) : bool :=
  if decide (role user = ADMIN) then true
  else if decide (author_id blog = user_id user) then true
  else false.

(** What an operation that flushes can end in: its value and the database
    after the flush, or the database refusing the write. *)
Inductive flushed (A : Type) :=
| Flushed (a : A) (db : Db)
| IntegrityError.

Arguments Flushed {A} a db.
Arguments IntegrityError {A}.

(** The [setattr] loop over the fields that were sent.  [title] and
    [content] are NOT NULL columns: a row carrying [null] there cannot be
    flushed. *)
Definition apply_update (blog : Blog) (data : BlogUpdate) : option Blog :=
  blog1 ← match update_title data with
           | None => Some blog
           | Some (Some t) => Some (set_title blog t)
           | Some None => None
           end;
  blog2 ← match update_content data with
           | None => Some blog1
           | Some (Some c) => Some (set_content blog1 c)
           | Some None => None
           end;
  Some match update_images data with
       | None => blog2
       | Some i => set_images blog2 i
       end.

Definition update_blog (db : Db) (now : Z) (blog : Blog) (data : BlogUpdate)
    (current_user : User) : flushed (option Blog) :=
  if negb (_can_edit_blog blog current_user) then Flushed None db
  else match apply_update blog data with
       | None => IntegrityError
       | Some blog1 =>
           let blog2 := set_updated_at blog1 now in
           Flushed (Some blog2) (flush_blog db blog2)
       end.

(** The function assigns [deleted_at] only.  The flush writes the row
    when that is a new value, and [updated_at], which was not assigned,
    is then stamped by its [onupdate] default, a call of
    [datetime.utcnow] of its own that returns [updated_now]. *)
Definition soft_delete_blog (db : Db) (now updated_now : Z) (blog : Blog)
    (current_user : User) : bool * Db :=
  if negb (_can_delete_blog blog current_user) then (false, db)
  else if decide (deleted_at blog = Some now) then (true, db)
  else (true,
        flush_blog db (set_updated_at (set_deleted_at blog (Some now)) updated_now)).

Definition approve_blog (db : Db) (now : Z) (blog : Blog) (approver : User)
  : Blog * Db :=
  let blog1 := set_status blog APPROVED in
  let blog2 := set_updated_at blog1 now in
  (blog2, flush_blog db blog2).

Definition reject_blog (db : Db) (now : Z) (blog : Blog) (approver : User)
  : Blog * Db :=
  let blog1 := set_status blog REJECTED in
  let blog2 := set_updated_at blog1 now in
  (blog2, flush_blog db blog2).

End Service.

(** ** Blog routes ([app/blogs/routes.py]) and the SSE route
       ([app/notifications/routes.py])

    An endpoint returns its response together with the database its
    request leaves behind.  The [current_user] argument is the value of
    the [get_current_active_user] dependency. *)

Module Routes.

Import Service Rbac.

Record BlogListResponse := mkBlogListResponse {
  items : list Blog;
  total : Z;
  limit : Z;
  offset : Z
}.

Definition not_found : HTTPException :=
  mkHTTPException HTTP_404_NOT_FOUND "Blog not found".

Definition validation_error : HTTPException :=
  mkHTTPException HTTP_422_UNPROCESSABLE_ENTITY "validation error".

Definition server_error : HTTPException :=
  mkHTTPException HTTP_500_INTERNAL_SERVER_ERROR "Internal Server Error".

(** [Query(10, ge=1, le=100)] and [Query(0, ge=0)]. *)
Definition list_blogs (db : Db) (limit offset : option Z) : result BlogListResponse :=
  let limit := default 10 limit in
  let offset := default 0 offset in
  if decide (1 ≤ limit ∧ limit ≤ 100 ∧ 0 ≤ offset) then
    let '(items, total) :=
      list_approved_blogs db (Z.to_nat limit) (Z.to_nat offset) in
    Return (mkBlogListResponse items total limit offset)
  else Raise validation_error.

(** The [Field] constraints of [BlogBase] and [BlogUpdate]. *)
Definition valid_BlogCreate (data : BlogCreate) : Prop :=
  (3 ≤ length (create_title data) ≤ 500)%nat ∧ (1 ≤ length (create_content data))%nat.

Definition valid_BlogUpdate (data : BlogUpdate) : Prop :=
  match update_title data with
  | Some (Some t) => (3 ≤ length t ≤ 500)%nat
  | _ => True
  end ∧
  match update_content data with
  | Some (Some c) => (1 ≤ length c)%nat
  | _ => True
  end.

#[global] Instance valid_BlogCreate_dec data : Decision (valid_BlogCreate data).
Proof. unfold valid_BlogCreate. apply _. Defined.

#[global] Instance valid_BlogUpdate_dec data : Decision (valid_BlogUpdate data).
Proof.
  unfold valid_BlogUpdate.
  destruct (update_title data) as [[t|]|], (update_content data) as [[c|]|]; apply _.
Defined.

Section WithNotifications.

Context {Text : Type} (json_dumps : json -> Text).

Definition create_blog_endpoint (db : Db) (clients : gmap string (list Text))
    (now updated_now : Z) (payload : BlogCreate) (current_user : User)
  : result Blog * Db * gmap string (list Text) :=
  if decide (valid_BlogCreate payload) then
    let '(blog, db1, clients1) :=
      create_blog json_dumps db clients now updated_now current_user payload in
    (Return blog, db1, clients1)
  else (Raise validation_error, db, clients).

(** [notifications_sse]: the role dependency, then the generator's first
    step. *)
Definition notifications_sse (clients : gmap string (list Text))
    (client_id : string) (current_user : User)
  : result (Notifications.sse_line Text) * gmap string (list Text) :=
  match require_admin current_user with
  | Raise e => (Raise e, clients)
  | Return _ =>
      let '(clients1, line) :=
        Notifications.connect_open json_dumps client_id clients in
      (Return line, clients1)
  end.

End WithNotifications.

Definition get_blog_endpoint (db : Db) (blog_id : Z) (current_user : option User)
  : result Blog :=
  match get_blog_for_view db blog_id current_user with
  | None => Raise not_found
  | Some blog => Return blog
  end.

Definition update_blog_endpoint (db : Db) (now : Z) (blog_id : Z)
    (payload : BlogUpdate) (current_user : User) : result Blog * Db :=
  if decide (valid_BlogUpdate payload) then
    match get_blog_by_id db blog_id with
    | None => (Raise not_found, db)
    | Some blog =>
        match update_blog db now blog payload current_user with
        | IntegrityError => (Raise server_error, db)
        | Flushed None _ =>
            (Raise (mkHTTPException HTTP_403_FORBIDDEN
                      "You are not allowed to update this blog"), db)
        | Flushed (Some updated) db1 => (Return updated, db1)
        end
    end
  else (Raise validation_error, db).

Definition delete_blog_endpoint (db : Db) (now updated_now : Z) (blog_id : Z)
    (current_user : User) : result unit * Db :=
  match get_blog_by_id db blog_id with
  | None => (Raise not_found, db)
  | Some blog =>
      let '(allowed, db1) :=
        soft_delete_blog db now updated_now blog current_user in
      if negb allowed then
        (Raise (mkHTTPException HTTP_403_FORBIDDEN
                  "You are not allowed to delete this blog"), db)
      else (Return (), db1)
  end.

Definition already_approved : HTTPException :=
  mkHTTPException HTTP_400_BAD_REQUEST "Blog is already approved".

Definition already_rejected : HTTPException :=
  mkHTTPException HTTP_400_BAD_REQUEST "Blog is already rejected".

Definition approve_blog_endpoint (db : Db) (now : Z) (blog_id : Z)
    (current_user : User) : result Blog * Db :=
  match require_approver current_user with
  | Raise e => (Raise e, db)
  | Return approver =>
      match get_blog_by_id db blog_id with
      | None => (Raise not_found, db)
      | Some blog =>
          if decide (status blog = APPROVED) then (Raise already_approved, db)
          else let '(approved, db1) := approve_blog db now blog approver in
               (Return approved, db1)
      end
  end.

Definition reject_blog_endpoint (db : Db) (now : Z) (blog_id : Z)
    (current_user : User) : result Blog * Db :=
  match require_approver current_user with
  | Raise e => (Raise e, db)
  | Return approver =>
      match get_blog_by_id db blog_id with
      | None => (Raise not_found, db)
      | Some blog =>
          if decide (status blog = REJECTED) then (Raise already_rejected, db)
          else let '(rejected, db1) := reject_blog db now blog approver in
               (Return rejected, db1)
      end
  end.

End Routes.

(** ** The chat manager ([app/blogs/chat_manager.py]) *)

Module ChatManager.

(** What the server does that a peer or the database can observe, in the
    order it does it.  A connection is the identity of its [WebSocket]
    object. *)
Inductive effect (Text : Type) :=
| Accepted (ws : N)
| Closed (ws : N) (code : Z)
| Added (comment : Comment)
| SentText (ws : N) (message : Text)
| SendFailed (ws : N) (message : Text).

Arguments Accepted {Text} ws.
Arguments Closed {Text} ws code.
Arguments Added {Text} comment.
Arguments SentText {Text} ws message.
Arguments SendFailed {Text} ws message.

Section Manager.

Context {Text : Type}.

(** [self._connections] is a [gmap Z (gset N)]: blog id -> its sockets. *)

(** [self._connections.get(blog_id, set())]. *)
Definition get_room (connections : gmap Z (gset N)) (blog_id : Z) : gset N :=
  default ∅ (connections !! blog_id).

Definition connect (connections : gmap Z (gset N)) (blog_id : Z) (websocket : N)
  : gmap Z (gset N) * list (effect Text) :=
  (<[blog_id := get_room connections blog_id ∪ {[websocket]}]> connections,
   [Accepted websocket]).

Definition disconnect (connections : gmap Z (gset N)) (blog_id : Z) (websocket : N)
  : gmap Z (gset N) :=
  match connections !! blog_id with
  | Some room =>
      let room1 := room ∖ {[websocket]} in
      if decide (room1 = ∅) then delete blog_id connections
      else <[blog_id := room1]> connections
  | None => connections
  end.

(** [ws.send_text(message)] inside its [try]: [send_fails ws] tells whether
    the call raises. *)
Definition send_or_cleanup (send_fails : N → bool) (blog_id : Z) (message : Text)
    (acc : gmap Z (gset N) * list (effect Text)) (ws : N)
  : gmap Z (gset N) * list (effect Text) :=
  if send_fails ws then (disconnect acc.1 blog_id ws, acc.2 ++ [SendFailed ws message])
  else (acc.1, acc.2 ++ [SentText ws message]).

(** The loop runs over the copy taken before the first send. *)
Definition broadcast (send_fails : N → bool) (connections : gmap Z (gset N))
    (blog_id : Z) (message : Text) : gmap Z (gset N) * list (effect Text) :=
  let snapshot := get_room connections blog_id in
  foldl (send_or_cleanup send_fails blog_id message) (connections, [])
        (elements snapshot).

(** What [broadcast] does for one socket of its snapshot. *)
Definition delivery (send_fails : N → bool) (message : Text) (ws : N) : effect Text :=
  if send_fails ws then SendFailed ws message else SentText ws message.

End Manager.

End ChatManager.

(** ** The chat endpoint ([app/blogs/websocket.py]) *)

Module WebSocket.

Import ChatManager.

(** What [websocket.receive_text()] can do: return a text frame, raise
    [WebSocketDisconnect], or raise something else. *)
Inductive received (Text : Type) :=
| ReceiveText (raw : Text)
| Disconnected
| ReceiveError.

Arguments ReceiveText {Text} raw.
Arguments Disconnected {Text}.
Arguments ReceiveError {Text}.

(** The moment a frame is handled: the clock and the peers whose socket
    raises on send. *)
Record Env := mkEnv {
  now : Z;
  send_fails : N → bool
}.

(** The process state the endpoint works on. *)
Record Chat (Text : Type) := mkChat {
  chat_db : Db;
  _connections : gmap Z (gset N);
  trace : list (effect Text)
}.

Arguments mkChat {Text} chat_db _connections trace.
Arguments chat_db {Text} c.
Arguments _connections {Text} c.
Arguments trace {Text} c.

(** Whether the handler is still in its loop. *)
Inductive session := Listening | Ended.

Section Endpoint.

(** Library functions: [json.loads] ([None] is [JSONDecodeError]),
    [json.dumps], [datetime.isoformat], and the user id a token verifies
    to ([verify_token], [payload.get("sub")] and [int(...)] together). *)
Context {Text : Type}
        (json_loads : Text → option json)
        (json_dumps : json → Text)
        (isoformat : Z → pystr)
        (token_subject : pystr → option Z).

Definition _get_user_from_token (token : pystr) (db : Db) : option User :=
  match token_subject token with
  | None => None
  | Some user_id_int =>
      match users db !! user_id_int with
      | None => None
      | Some user => if negb (is_active user) then None else Some user
      end
  end.

Definition close (st : Chat Text) (websocket : N) (code : Z) : Chat Text :=
  mkChat (chat_db st) (_connections st) (trace st ++ [Closed websocket code]).

(** The part of [blog_comments_websocket] before the loop: the user the
    loop will run for, or [None] when the socket was closed. *)
Definition handshake (st : Chat Text) (websocket : N) (blog_id : Z)
    (token : option pystr) : option User * Chat Text :=
  match token with
  | None => (None, close st websocket WS_1008_POLICY_VIOLATION)
  | Some [] => (None, close st websocket WS_1008_POLICY_VIOLATION)
  | Some token =>
      match _get_user_from_token token (chat_db st) with
      | None => (None, close st websocket WS_1008_POLICY_VIOLATION)
      | Some user =>
          match Service.get_blog_by_id (chat_db st) blog_id with
          | None => (None, close st websocket WS_1008_POLICY_VIOLATION)
          | Some blog =>
              let '(connections, out) :=
                connect (_connections st) blog_id websocket in
              (Some user, mkChat (chat_db st) connections (trace st ++ out))
          end
      end
  end.

(** [(data.get("content") or empty).strip()], [empty] being the empty
    string; [None] when the value has no
    [strip] (a truthy value that is not a string). *)
Definition comment_content_of (members : list (pystr * json)) : option pystr :=
  match dict_get members (py "content") with
  | None => Some (strip [])
  | Some v =>
      if truthy v then
        match v with
        | JStr s => Some (strip s)
        | _ => None
        end
      else Some (strip [])
  end.

Definition outgoing (blog_id : Z) (user : User) (comment : Comment) : json :=
  JObj [ (py "type", JStr (py "comment"));
         (py "blog_id", JInt blog_id);
         (py "comment_id", JInt (comment_id comment));
         (py "content", JStr (comment_content comment));
         (py "user_id", JInt (user_id user));
         (py "username", JStr (username user));
         (py "created_at", JStr (isoformat (comment_created_at comment) ++ py "Z")) ].

(** [except Exception]: leave the room and close. *)
Definition on_exception (st : Chat Text) (websocket : N) (blog_id : Z) : Chat Text :=
  mkChat (chat_db st) (disconnect (_connections st) blog_id websocket)
         (trace st ++ [Closed websocket 1000]).

(** The loop body for one received text. *)
Definition on_text (st : Chat Text) (env : Env) (websocket : N) (blog_id : Z)
    (user : User) (raw : Text) : Chat Text * session :=
  match json_loads raw with
  | None => (st, Listening)
  | Some (JObj members) =>
      let msg_type := dict_get members (py "type") in
      if eq_str msg_type (py "comment") then
        match comment_content_of members with
        | None => (on_exception st websocket blog_id, Ended)
        | Some [] => (st, Listening)
        | Some content =>
            let comment :=
              {| comment_id := next_comment_id (chat_db st);
                 comment_content := content;
                 comment_blog_id := blog_id;
                 comment_user_id := user_id user;
                 comment_created_at := now env |} in
            let db1 := set_comments (chat_db st) (comments (chat_db st) ++ [comment]) in
            let '(connections, out) :=
              broadcast (send_fails env) (_connections st) blog_id
                        (json_dumps (outgoing blog_id user comment)) in
            (mkChat db1 connections (trace st ++ [Added comment] ++ out), Listening)
        end
      else (st, Listening)
  | Some _ => (on_exception st websocket blog_id, Ended)
  end.

(** The [while True] loop over what the socket delivers. *)
Fixpoint serve (st : Chat Text) (websocket : N) (blog_id : Z) (user : User)
    (inbox : list (Env * received Text)) : Chat Text * session :=
  match inbox with
  | [] => (st, Listening)
  | (env, ReceiveText raw) :: rest =>
      match on_text st env websocket blog_id user raw with
      | (st1, Listening) => serve st1 websocket blog_id user rest
      | (st1, Ended) => (st1, Ended)
      end
  | (_, Disconnected) :: _ =>
      (mkChat (chat_db st) (disconnect (_connections st) blog_id websocket) (trace st),
       Ended)
  | (_, ReceiveError) :: _ => (on_exception st websocket blog_id, Ended)
  end.

Definition blog_comments_websocket (st : Chat Text) (websocket : N) (blog_id : Z)
    (token : option pystr) (inbox : list (Env * received Text))
  : Chat Text * session :=
  match handshake st websocket blog_id token with
  | (None, st1) => (st1, Ended)
  | (Some user, st1) => serve st1 websocket blog_id user inbox
  end.

End Endpoint.

End WebSocket.

(** ** Sequences of lifecycle requests *)

Module Lifecycle.

Import Service Routes.

(** One request of the lifecycle, by an authenticated active actor.  A
    submission and a deletion leave [updated_at] to a column default,
    which reads the clock at the flush: [updated_now] is that reading. *)
Inductive op :=
| Submit (actor : User) (payload : BlogCreate) (updated_now : Z)
| Edit (blog_id : Z) (actor : User) (patch : BlogUpdate)
| Delete (blog_id : Z) (actor : User) (updated_now : Z)
| Approve (blog_id : Z) (actor : User)
| Reject (blog_id : Z) (actor : User).

Section Run.

Context {Text : Type} (json_dumps : json -> Text).

(** The database and the subscriber registry after the request. *)
Definition step (st : Db * gmap string (list Text)) (now : Z) (o : op)
  : Db * gmap string (list Text) :=
  match o with
  | Submit actor payload updated_now =>
      let '(_, db1, clients1) :=
        create_blog_endpoint json_dumps st.1 st.2 now updated_now payload actor in
      (db1, clients1)
  | Edit blog_id actor patch =>
      ((update_blog_endpoint st.1 now blog_id patch actor).2, st.2)
  | Delete blog_id actor updated_now =>
      ((delete_blog_endpoint st.1 now updated_now blog_id actor).2, st.2)
  | Approve blog_id actor =>
      ((approve_blog_endpoint st.1 now blog_id actor).2, st.2)
  | Reject blog_id actor =>
      ((reject_blog_endpoint st.1 now blog_id actor).2, st.2)
  end.

(** Requests served one after the other, each at its own time. *)
Definition run (st : Db * gmap string (list Text)) (requests : list (Z * op))
  : Db * gmap string (list Text) :=
  foldl (λ st r, step st r.1 r.2) st requests.

End Run.

(** Every row is stored under its own [id]. *)
Definition db_wf (db : Db) : Prop :=
  ∀ i b, blogs db !! i = Some b → blog_id b = i.

End Lifecycle.

(** ** The rules of the specification, for comparison with the code *)

Module Policy.

Import Lifecycle.

(** The visibility rule in the words of the specification: the post is
    approved, or the actor is its author, or the actor is an admin or an
    approver. *)
Definition visible_to (blog : Blog) (actor : option User) : Prop :=
  status blog = APPROVED
  ∨ ∃ user, actor = Some user
      ∧ (user_id user = author_id blog ∨ role user = ADMIN ∨ role user = L1_APPROVER).

(** How one request may change the status of a stored post. *)
Definition transition (o : op) (i : Z) (before after : BlogStatus) : Prop :=
  after = before
  ∨ (before ≠ APPROVED ∧ after = APPROVED ∧ ∃ actor, o = Approve i actor)
  ∨ (before ≠ REJECTED ∧ after = REJECTED ∧ ∃ actor, o = Reject i actor).

End Policy.

(** ** Sample data *)

Module Sample.

Import Service Lifecycle.

Definition alice : User := mkUser 1 (py "alice") USER true.
Definition bob : User := mkUser 2 (py "bob") USER true.
Definition root : User := mkUser 3 (py "root") ADMIN true.
Definition carol : User := mkUser 4 (py "carol") L1_APPROVER true.

Definition people : gmap Z User :=
  <[1 := alice]> (<[2 := bob]> (<[3 := root]> (<[4 := carol]> ∅))).

Definition draft : BlogCreate := mkBlogCreate (py "Title") (py "Body") None.

(** Alice's post as [create_blog] stores it at time 10, and the same post
    once approved at time 11. *)
Definition pending_post : Blog :=
  mkBlog 1 (py "Title") (py "Body") PENDING 1 None 10 10 None.

Definition approved_post : Blog :=
  mkBlog 1 (py "Title") (py "Body") APPROVED 1 None 10 11 None.

Definition db_empty : Db := mkDb people ∅ [].
Definition db_pending : Db := mkDb people {[1 := pending_post]} [].
Definition db_approved : Db := mkDb people {[1 := approved_post]} [].

(** A stand-in for the Python library: a text is either something
    [json.loads] rejects or the encoding of a value. *)
Inductive sample_text :=
| Garbled (raw : string)
| Encoded (v : json).

Definition sample_loads (t : sample_text) : option json :=
  match t with
  | Garbled _ => None
  | Encoded v => Some v
  end.

Definition sample_isoformat (t : Z) : pystr := py "2025-01-01T00:00:00".

Definition sample_subject (token : pystr) : option Z :=
  if decide (token = py "alice-token") then Some 1
  else if decide (token = py "bob-token") then Some 2
  else if decide (token = py "root-token") then Some 3
  else None.

(** A chat with sockets 7, 8 and 9 in the room of post 1. *)
Definition chat_approved : WebSocket.Chat sample_text :=
  WebSocket.mkChat db_approved {[1 := {[7%N; 8%N; 9%N]}]} [].

Definition chat_pending : WebSocket.Chat sample_text :=
  WebSocket.mkChat db_pending ∅ [].

(** Socket 8 is broken. *)
Definition calm : WebSocket.Env := WebSocket.mkEnv 20 (λ ws, bool_decide (ws = 8%N)).

Definition hello : list (pystr * json) :=
  [(py "type", JStr (py "comment")); (py "content", JStr (py "  hello "))].

End Sample.

(** ** Role helpers ([app/auth/rbac.py]) *)

Module Roles.

(** [role.value]. *)
Definition role_value (r : UserRole) : string :=
  match r with
  | USER => "user"
  | ADMIN => "admin"
  | L1_APPROVER => "l1_approver"
  end.

(** [str] of a list of strings, as the f-string prints it. *)
Definition repr_list (values : list string) : string :=
  ("[" ++ String.concat ", " ((λ v, "'" ++ v ++ "'") <$> values) ++ "]")%string.

Definition require_role (allowed_roles : list UserRole) (current_user : User)
  : result User :=
  if decide (role current_user ∉ allowed_roles) then
    Raise (mkHTTPException HTTP_403_FORBIDDEN
             ("Access denied. Required roles: "
              ++ repr_list (role_value <$> allowed_roles))%string)
  else Return current_user.

Definition has_role (user : User) (r : UserRole) : bool :=
  bool_decide (role user = r).

Definition has_any_role (user : User) (roles : list UserRole) : bool :=
  bool_decide (role user ∈ roles).

Definition is_admin (user : User) : bool :=
  bool_decide (role user = ADMIN).

Definition is_approver (user : User) : bool :=
  bool_decide (role user ∈ [ADMIN; L1_APPROVER]).

End Roles.

(** ** Authentication dependencies ([app/auth/dependencies.py]) and the
       optional one of the blog routes ([app/blogs/routes.py]) *)

Module Auth.

Definition HTTP_401_UNAUTHORIZED : Z := 401.

Definition credentials_exception : HTTPException :=
  mkHTTPException HTTP_401_UNAUTHORIZED "Could not validate credentials".

Section Tokens.

(** The user id a bearer token verifies to: [verify_token],
    [payload.get("sub")] and [int(...)] together, as in the chat
    endpoint.  [credentials] is [None] when the request carries no bearer
    token. *)
Context (token_subject : pystr → option Z).

Definition get_current_user (db : Db) (credentials : option pystr) : result User :=
  match credentials with
  | None => Raise credentials_exception
  | Some token =>
      match token_subject token with
      | None => Raise credentials_exception
      | Some user_id =>
          match users db !! user_id with
          | None => Raise credentials_exception
          | Some user => Return user
          end
      end
  end.

Definition get_current_active_user (db : Db) (credentials : option pystr)
  : result User :=
  match get_current_user db credentials with
  | Raise e => Raise e
  | Return current_user =>
      if negb (is_active current_user) then
        Raise (mkHTTPException HTTP_403_FORBIDDEN "Inactive user")
      else Return current_user
  end.

Definition get_optional_user (db : Db) (credentials : option pystr) : option User :=
  match credentials with
  | None => None
  | Some token =>
      match token_subject token with
      | None => None
      | Some user_id =>
          match users db !! user_id with
          | Some user => if is_active user then Some user else None
          | None => None
          end
      end
  end.

End Tokens.

End Auth.

(** ** Role management ([app/auth/role_routes.py]) *)

Module RoleRoutes.

Import Rbac Roles.

Record UpdateRoleRequest := mkUpdateRoleRequest {
  target_id : Z;
  new_role : UserRole
}.

Record UpdateRoleResponse := mkUpdateRoleResponse {
  message : string;
  updated_user : User
}.

Definition set_role (u : User) (r : UserRole) : User :=
  {| user_id := user_id u; username := username u; role := r;
     is_active := is_active u |}.

Definition set_users (db : Db) (us : gmap Z User) : Db :=
  {| users := us; blogs := blogs db; comments := comments db |}.

Definition user_not_found : HTTPException :=
  mkHTTPException HTTP_404_NOT_FOUND "User not found".

Definition update_user_role (db : Db) (role_data : UpdateRoleRequest)
    (current_user : User) : result UpdateRoleResponse * Db :=
  match require_admin current_user with
  | Raise e => (Raise e, db)
  | Return current_user =>
      if decide (target_id role_data = user_id current_user
                 ∧ new_role role_data ≠ ADMIN) then
        (Raise (mkHTTPException HTTP_400_BAD_REQUEST
                  "Cannot remove your own admin role"), db)
      else
        match users db !! target_id role_data with
        | None => (Raise user_not_found, db)
        | Some target_user =>
            let old_role := role target_user in
            let target_user1 := set_role target_user (new_role role_data) in
            (Return (mkUpdateRoleResponse
                       ("User role updated from " ++ role_value old_role
                        ++ " to " ++ role_value (new_role role_data))%string
                       target_user1),
             set_users db (<[user_id target_user1 := target_user1]> (users db)))
        end
  end.

Definition list_all_users (db : Db) (current_user : User) : result (list User) :=
  match require_admin current_user with
  | Raise e => Raise e
  | Return _ => Return (map_to_list (users db)).*2
  end.

Definition get_user_by_id (db : Db) (user_id : Z) (current_user : User)
  : result User :=
  match require_admin current_user with
  | Raise e => Raise e
  | Return _ =>
      match users db !! user_id with
      | None => Raise user_not_found
      | Some user => Return user
      end
  end.

(** Every user row is stored under its own [id]. *)
Definition users_wf (db : Db) : Prop :=
  ∀ i u, users db !! i = Some u → user_id u = i.

End RoleRoutes.

(** ** Drafts ([app/models/session.py], [app/session/service.py],
       [app/session/routes.py])

    Timestamps count microseconds here, so that [timedelta(days=30)] is a
    number. *)

Module Drafts.

(** The draft dictionary stored in the JSON column: a key is present or
    not. *)
Record DraftData := mkDraftData {
  draft_title : option pystr;
  draft_content : option pystr;
  draft_images : option (list pystr)
}.

(** The request body: a field is unset, [null] or a value. *)
Record DraftSave := mkDraftSave {
  save_title : option (option pystr);
  save_content : option (option pystr);
  save_images : option (option (list pystr))
}.

Record DraftResponse := mkDraftResponse {
  response_title : option pystr;
  response_content : option pystr;
  response_images : option (list pystr);
  saved_at : option Z;
  response_expires_at : option Z
}.

Record Session := mkSession {
  session_id : Z;
  session_user_id : Z;
  draft_data : option DraftData;
  expires_at : Z;
  session_created_at : Z;
  session_updated_at : Z
}.

Definition thirty_days : Z := 30 * 86400 * 1000000.

(** [Session.is_expired]. *)
Definition is_expired (session : Session) (now : Z) : bool :=
  bool_decide (now > expires_at session).

(** [model_dump(exclude_unset=True, exclude_none=True)]. *)
Definition model_dump (draft : DraftSave) : DraftData :=
  {| draft_title := mjoin (save_title draft);
     draft_content := mjoin (save_content draft);
     draft_images := mjoin (save_images draft) |}.

(** Truth value of the dictionary. *)
Definition draft_truthy (d : DraftData) : bool :=
  match draft_title d, draft_content d, draft_images d with
  | None, None, None => false
  | _, _, _ => true
  end.

(** The [sessions] table is read through its unique [user_id] column: a
    [gmap] from user id to the user's row.  A new row gets the next
    primary key. *)
Definition next_session_id (sessions : gmap Z Session) : Z :=
  1 + max_key (session_id <$> (map_to_list sessions).*2).

(** What [datetime.utcnow()] returns to one call of [save_draft], by the
    column the reading ends in; every column is stamped by a call of its
    own.  For a stored row the function assigns [updated_at] and then
    [expires_at]; being assigned, [updated_at] is not stamped again by its
    [onupdate].  For a new row the function reads the clock for
    [expires_at], and the column defaults of [created_at] and [updated_at]
    read it when the row is inserted. *)
Record Clock := mkClock {
  for_updated_at : Z;
  for_expires_at : Z;
  for_created_at : Z
}.

Definition save_draft (sessions : gmap Z Session) (clock : Clock) (current_user : User)
    (draft : DraftSave) : Session * gmap Z Session :=
  let draft_json := model_dump draft in
  let session :=
    match sessions !! user_id current_user with
    | Some session =>
        {| session_id := session_id session;
           session_user_id := session_user_id session;
           draft_data := Some draft_json;
           expires_at := for_expires_at clock + thirty_days;
           session_created_at := session_created_at session;
           session_updated_at := for_updated_at clock |}
    | None =>
        {| session_id := next_session_id sessions;
           session_user_id := user_id current_user;
           draft_data := Some draft_json;
           expires_at := for_expires_at clock + thirty_days;
           session_created_at := for_created_at clock;
           session_updated_at := for_updated_at clock |}
    end in
  (session, <[user_id current_user := session]> sessions).

Definition get_draft (sessions : gmap Z Session) (now : Z) (current_user : User)
  : option Session * gmap Z Session :=
  match sessions !! user_id current_user with
  | None => (None, sessions)
  | Some session =>
      if is_expired session now then (None, delete (user_id current_user) sessions)
      else (Some session, sessions)
  end.

Definition empty_response : DraftResponse :=
  mkDraftResponse None None None None None.

(** [DraftResponse(title=draft.get("title"), ...)] for a session. *)
Definition response_of (session : Session) : DraftResponse :=
  let d := default (mkDraftData None None None) (draft_data session) in
  {| response_title := draft_title d;
     response_content := draft_content d;
     response_images := draft_images d;
     saved_at := Some (session_updated_at session);
     response_expires_at := Some (expires_at session) |}.

Definition get_draft_endpoint (sessions : gmap Z Session) (now : Z)
    (current_user : User) : DraftResponse * gmap Z Session :=
  let '(session, sessions1) := get_draft sessions now current_user in
  match session with
  | None => (empty_response, sessions1)
  | Some session =>
      if negb (from_option draft_truthy false (draft_data session))
      then (empty_response, sessions1)
      else (response_of session, sessions1)
  end.

(** [Field(default=None, max_length=500)] on the title. *)
Definition valid_DraftSave (draft : DraftSave) : Prop :=
  match save_title draft with
  | Some (Some t) => (length t ≤ 500)%nat
  | _ => True
  end.

#[global] Instance valid_DraftSave_dec draft : Decision (valid_DraftSave draft).
Proof. unfold valid_DraftSave. destruct (save_title draft) as [[t|]|]; apply _. Defined.

Definition save_draft_endpoint (sessions : gmap Z Session) (clock : Clock)
    (draft : DraftSave) (current_user : User)
  : result DraftResponse * gmap Z Session :=
  if decide (valid_DraftSave draft) then
    let '(session, sessions1) := save_draft sessions clock current_user draft in
    (Return (response_of session), sessions1)
  else (Raise (mkHTTPException HTTP_422_UNPROCESSABLE_ENTITY "validation error"),
        sessions).

End Drafts.

(** ** Feature requests ([app/models/feature_request.py],
       [app/feature_requests/routes.py]) *)

Module FeatureRequestStatus.

Inductive t := PENDING | ACCEPTED | DECLINED.

#[global] Instance t_eq_dec : EqDecision t.
Proof. solve_decision. Defined.

End FeatureRequestStatus.

Module FeatureRequests.

Import Rbac.

Record FeatureRequest := mkFeatureRequest {
  fr_id : Z;
  fr_title : pystr;
  fr_description : pystr;
  fr_status : FeatureRequestStatus.t;
  fr_user_id : Z;
  priority : option Z;
  rating : option Z;
  fr_created_at : Z;
  fr_updated_at : Z
}.

#[global] Instance FeatureRequest_eq_dec : EqDecision FeatureRequest.
Proof. solve_decision. Defined.

Record FeatureRequestCreate := mkFeatureRequestCreate {
  new_title : pystr;
  new_description : pystr;
  new_priority : option Z
}.

(** [exclude_unset]: a field is absent, [null] or a value. *)
Record FeatureRequestUpdate := mkFeatureRequestUpdate {
  upd_status : option (option FeatureRequestStatus.t);
  upd_priority : option (option Z);
  upd_rating : option (option Z)
}.

Record FeatureRequestListResponse := mkFeatureRequestListResponse {
  fr_items : list FeatureRequest;
  fr_total : Z;
  fr_limit : Z;
  fr_offset : Z
}.

(** [role.name]. *)
Definition role_name (r : UserRole) : string :=
  match r with
  | USER => "USER"
  | ADMIN => "ADMIN"
  | L1_APPROVER => "L1_APPROVER"
  end.

(** [str.lower] on ASCII letters. *)
Definition lower_ascii (c : ascii) : ascii :=
  let n := nat_of_ascii c in
  if ((65 <=? n) && (n <=? 90))%nat then ascii_of_nat (n + 32) else c.

Fixpoint lower (s : string) : string :=
  match s with
  | EmptyString => EmptyString
  | String c rest => String (lower_ascii c) (lower rest)
  end.

Definition fr_newest_first : relation FeatureRequest :=
  λ a b, fr_created_at b ≤ fr_created_at a.

#[global] Instance fr_newest_first_dec : RelDecision fr_newest_first.
Proof. intros a b. unfold fr_newest_first. apply _. Defined.

(** The [WHERE] clauses the endpoint adds to its query. *)
Definition selected (current_user : User) (status_filter : option FeatureRequestStatus.t)
    (fr : FeatureRequest) : Prop :=
  (if negb (bool_decide (lower (role_name (role current_user)) = "admin"%string))
   then fr_user_id fr = user_id current_user else True)
  ∧ match status_filter with
    | Some s => fr_status fr = s
    | None => True
    end.

#[global] Instance selected_dec current_user status_filter fr :
  Decision (selected current_user status_filter fr).
Proof.
  unfold selected.
  destruct (negb _), status_filter; apply _.
Defined.

Definition list_feature_requests (table : gmap Z FeatureRequest)
    (limit offset : option Z) (status_filter : option FeatureRequestStatus.t)
    (current_user : User) : result FeatureRequestListResponse :=
  let limit := default 10 limit in
  let offset := default 0 offset in
  if decide (1 ≤ limit ∧ limit ≤ 100 ∧ 0 ≤ offset) then
    let query := filter (selected current_user status_filter) (map_to_list table).*2 in
    let total := length query in
    let items :=
      take (Z.to_nat limit) (drop (Z.to_nat offset) (merge_sort fr_newest_first query)) in
    Return (mkFeatureRequestListResponse items (Z.of_nat total) limit offset)
  else Raise (mkHTTPException HTTP_422_UNPROCESSABLE_ENTITY "validation error").

Definition valid_FeatureRequestCreate (payload : FeatureRequestCreate) : Prop :=
  (3 ≤ length (new_title payload) ≤ 500)%nat
  ∧ (1 ≤ length (new_description payload))%nat
  ∧ match new_priority payload with
    | Some p => 0 ≤ p ≤ 5
    | None => True
    end.

#[global] Instance valid_FeatureRequestCreate_dec payload :
  Decision (valid_FeatureRequestCreate payload).
Proof.
  unfold valid_FeatureRequestCreate. destruct (new_priority payload); apply _.
Defined.

Definition next_fr_id (table : gmap Z FeatureRequest) : Z :=
  1 + max_key (elements (dom table)).

(** [created_at] and [updated_at] are filled by their column defaults when
    the row is inserted, each by a call of [datetime.utcnow] of its own:
    [created_now] and [updated_now] are what the two calls return. *)
Definition create_feature_request (table : gmap Z FeatureRequest)
    (created_now updated_now : Z)
    (payload : FeatureRequestCreate) (current_user : User)
  : result FeatureRequest * gmap Z FeatureRequest :=
  if decide (valid_FeatureRequestCreate payload) then
    let fr :=
      {| fr_id := next_fr_id table;
         fr_title := new_title payload;
         fr_description := new_description payload;
         fr_status := FeatureRequestStatus.PENDING;
         fr_user_id := user_id current_user;
         priority := Some (default 0 (new_priority payload));
         rating := Some 0;
         fr_created_at := created_now;
         fr_updated_at := updated_now |} in
    (Return fr, <[fr_id fr := fr]> table)
  else (Raise (mkHTTPException HTTP_422_UNPROCESSABLE_ENTITY "validation error"),
        table).

Definition valid_FeatureRequestUpdate (payload : FeatureRequestUpdate) : Prop :=
  match upd_priority payload with
  | Some (Some p) => 0 ≤ p ≤ 5
  | _ => True
  end ∧
  match upd_rating payload with
  | Some (Some r) => 0 ≤ r
  | _ => True
  end.

#[global] Instance valid_FeatureRequestUpdate_dec payload :
  Decision (valid_FeatureRequestUpdate payload).
Proof.
  unfold valid_FeatureRequestUpdate.
  destruct (upd_priority payload) as [[p|]|], (upd_rating payload) as [[r|]|]; apply _.
Defined.

(** The [setattr] loop; [status] is a NOT NULL column, so a row that was
    given [null] there cannot be flushed. *)
Definition apply_fr_update (fr : FeatureRequest) (payload : FeatureRequestUpdate)
  : option FeatureRequest :=
  s ← match upd_status payload with
       | None => Some (fr_status fr)
       | Some (Some s) => Some s
       | Some None => None
       end;
  Some {| fr_id := fr_id fr;
          fr_title := fr_title fr;
          fr_description := fr_description fr;
          fr_status := s;
          fr_user_id := fr_user_id fr;
          priority := default (priority fr) (upd_priority payload);
          rating := default (rating fr) (upd_rating payload);
          fr_created_at := fr_created_at fr;
          fr_updated_at := fr_updated_at fr |}.

(** The flush writes the row only when an attribute has a new value, and
    the [onupdate] default then stamps [updated_at]. *)
Definition flush_fr (table : gmap Z FeatureRequest) (now : Z)
    (before after : FeatureRequest) : FeatureRequest * gmap Z FeatureRequest :=
  if decide (after = before) then (before, table)
  else
    let stamped :=
      {| fr_id := fr_id after; fr_title := fr_title after;
         fr_description := fr_description after; fr_status := fr_status after;
         fr_user_id := fr_user_id after; priority := priority after;
         rating := rating after; fr_created_at := fr_created_at after;
         fr_updated_at := now |} in
    (stamped, <[fr_id stamped := stamped]> table).

Definition update_feature_request (table : gmap Z FeatureRequest) (now : Z)
    (feature_request_id : Z) (payload : FeatureRequestUpdate) (current_user : User)
  : result FeatureRequest * gmap Z FeatureRequest :=
  match require_admin current_user with
  | Raise e => (Raise e, table)
  | Return _ =>
      if decide (valid_FeatureRequestUpdate payload) then
        match table !! feature_request_id with
        | None =>
            (Raise (mkHTTPException HTTP_404_NOT_FOUND "Feature request not found"),
             table)
        | Some fr =>
            match apply_fr_update fr payload with
            | None =>
                (Raise (mkHTTPException HTTP_500_INTERNAL_SERVER_ERROR
                          "Internal Server Error"), table)
            | Some fr1 =>
                let '(fr2, table1) := flush_fr table now fr fr1 in
                (Return fr2, table1)
            end
        end
      else (Raise (mkHTTPException HTTP_422_UNPROCESSABLE_ENTITY "validation error"),
            table)
  end.

End FeatureRequests.

(** ** Invariants of the registries and tables *)

Module Invariants.

(** No room of the registry is empty. *)
Definition no_empty_rooms (connections : gmap Z (gset N)) : Prop :=
  ∀ blog_id room, connections !! blog_id = Some room → room ≠ ∅.

(** The delivery attempts recorded in a trace, with the socket of each. *)
Definition attempt_socket {Text : Type} (e : ChatManager.effect Text) : option N :=
  match e with
  | ChatManager.SentText ws _ => Some ws
  | ChatManager.SendFailed ws _ => Some ws
  | _ => None
  end.

(** Every feature request is stored under its own [id]. *)
Definition requests_wf (table : gmap Z FeatureRequests.FeatureRequest) : Prop :=
  ∀ i fr, table !! i = Some fr → FeatureRequests.fr_id fr = i.

(** Who makes a lifecycle request. *)
Definition op_actor (o : Lifecycle.op) : User :=
  match o with
  | Lifecycle.Submit actor _ _ => actor
  | Lifecycle.Edit _ actor _ => actor
  | Lifecycle.Delete _ actor _ => actor
  | Lifecycle.Approve _ actor => actor
  | Lifecycle.Reject _ actor => actor
  end.

(** How one request can change a stored row. *)
Inductive row_change (now : Z) (i : Z) (b : Blog) : Lifecycle.op → Blog → Prop :=
| change_edit actor patch b0 :
    Service._can_edit_blog b actor = true → Service.apply_update b patch = Some b0 →
    row_change now i b (Lifecycle.Edit i actor patch) (set_updated_at b0 now)
| change_delete actor updated_now :
    Service._can_delete_blog b actor = true →
    row_change now i b (Lifecycle.Delete i actor updated_now)
               (set_updated_at (set_deleted_at b (Some now)) updated_now)
| change_approve actor :
    role actor ∈ [ADMIN; L1_APPROVER] →
    row_change now i b (Lifecycle.Approve i actor)
               (set_updated_at (set_status b APPROVED) now)
| change_reject actor :
    role actor ∈ [ADMIN; L1_APPROVER] →
    row_change now i b (Lifecycle.Reject i actor)
               (set_updated_at (set_status b REJECTED) now).

End Invariants.

(** ** Role updates as requests *)

Module RoleRequests.

Import Auth RoleRoutes.

Section Requests.

Context (token_subject : pystr → option Z).

(** [POST /api/auth/roles/update] with its dependencies resolved from the
    bearer token. *)
Definition update_user_role_request (db : Db) (credentials : option pystr)
    (role_data : UpdateRoleRequest) : result UpdateRoleResponse * Db :=
  match get_current_active_user token_subject db credentials with
  | Raise e => (Raise e, db)
  | Return current_user => update_user_role db role_data current_user
  end.

(** Requests served one after the other. *)
Definition run_role_updates (db : Db)
    (requests : list (option pystr * UpdateRoleRequest)) : Db :=
  foldl (λ db r, (update_user_role_request db r.1 r.2).2) db requests.

End Requests.

(** Some stored user is an admin. *)
Definition has_an_admin (db : Db) : Prop :=
  ∃ i u, users db !! i = Some u ∧ role u = ADMIN.

End RoleRequests.

(** * Properties *)

(** ** Stripping *)

Section Strip.

Lemma lstrip_split (s : pystr) :
  ∃ spaces, s = spaces ++ lstrip s
            ∧ Forall (λ c, is_space c = true) spaces
            ∧ ∀ c rest, lstrip s = c :: rest → is_space c = false.
Proof.
  induction s as [|c s (spaces & Hs & Hall & Hhead)].
  - exists []. repeat split; [constructor|discriminate].
  - simpl. destruct (is_space c) eqn:Hc.
    + exists (c :: spaces). split; [by rewrite Hs at 1|]. split; [by constructor|done].
    + exists []. split; [done|]. split; [constructor|]. by intros c' rest [= <- _].
Qed.

Lemma rstrip_split (s : pystr) :
  ∃ spaces, s = rstrip s ++ spaces
            ∧ Forall (λ c, is_space c = true) spaces
            ∧ ∀ c, last (rstrip s) = Some c → is_space c = false.
Proof.
  unfold rstrip. destruct (lstrip_split (rev s)) as (spaces & Hs & Hall & Hhead).
  exists (rev spaces). split; [|split].
  - rewrite <- rev_app_distr, <- Hs. by rewrite rev_involutive.
  - rewrite Forall_forall in Hall |- *. intros c Hc. apply Hall.
    apply list_elem_of_In. apply in_rev. by apply list_elem_of_In.
  - intros c Hlast. destruct (lstrip (rev s)) as [|c' rest] eqn:Hl; [done|].
    simpl in Hlast. rewrite last_snoc in Hlast. injection Hlast as <-.
    by eapply Hhead.
Qed.

(** [strip s] is [s] without the white space at its two ends. *)
Lemma strip_split (s : pystr) :
  ∃ before after,
    s = before ++ strip s ++ after
    ∧ Forall (λ c, is_space c = true) before
    ∧ Forall (λ c, is_space c = true) after
    ∧ (∀ c, head (strip s) = Some c → is_space c = false)
    ∧ (∀ c, last (strip s) = Some c → is_space c = false).
Proof.
  unfold strip.
  destruct (lstrip_split s) as (before & Hs & Hbefore & Hhead).
  destruct (rstrip_split (lstrip s)) as (after & Hl & Hafter & Hlast).
  exists before, after. split; [by rewrite <- Hl|].
  split; [done|]. split; [done|]. split; [|done].
  intros c Hc. destruct (rstrip (lstrip s)) as [|c' rest] eqn:Hr; [done|].
  injection Hc as ->. rewrite Hl in Hhead. by eapply Hhead.
Qed.

End Strip.

(** ** Tables and keys *)

Section Tables.

Import Service.

Lemma max_key_upper (ks : list Z) (k : Z) : k ∈ ks → k ≤ max_key ks.
Proof.
  induction ks as [|k' ks IH]; intros Hin.
  - inversion Hin.
  - apply elem_of_cons in Hin as [->|Hin]; simpl; [lia|].
    specialize (IH Hin). lia.
Qed.

Lemma next_blog_id_fresh (db : Db) : blogs db !! next_blog_id db = None.
Proof.
  destruct (blogs db !! next_blog_id db) as [b|] eqn:Hb; [|done].
  assert (Hin : next_blog_id db ∈ elements (dom (blogs db))).
  { apply elem_of_elements, elem_of_dom. eauto. }
  apply max_key_upper in Hin. unfold next_blog_id in Hin. lia.
Qed.

Lemma lookup_flush_blog (db : Db) (b : Blog) (i : Z) :
  blogs (flush_blog db b) !! i
  = if decide (blog_id b = i) then Some b else blogs db !! i.
Proof. unfold flush_blog. simpl. apply lookup_insert. Qed.

Lemma get_blog_by_id_Some (db : Db) (i : Z) (b : Blog) :
  get_blog_by_id db i = Some b ↔ blogs db !! i = Some b ∧ deleted_at b = None.
Proof.
  unfold get_blog_by_id. destruct (blogs db !! i) as [b0|]; [|naive_solver].
  case_decide; naive_solver.
Qed.

Lemma get_blog_by_id_None (db : Db) (i : Z) :
  get_blog_by_id db i = None
  ↔ blogs db !! i = None ∨ ∃ b t, blogs db !! i = Some b ∧ deleted_at b = Some t.
Proof.
  unfold get_blog_by_id. destruct (blogs db !! i) as [b0|]; [|naive_solver].
  case_decide as Hd; [naive_solver|].
  destruct (deleted_at b0) as [t|] eqn:Ht; [|done].
  split; [|done]. intros _. right. eauto.
Qed.

End Tables.

(** ** Viewing a post *)

Module ViewPolicy.

Import Service Routes Policy.

Lemma _can_view_blog_spec (blog : Blog) (actor : option User) :
  _can_view_blog blog actor = true ↔ visible_to blog actor.
Proof.
  unfold _can_view_blog, visible_to.
  case_decide as Hs; [naive_solver|].
  destruct actor as [user|]; [|naive_solver].
  case_decide as Ha; [naive_solver|].
  case_decide as Hr.
  - split; [|done]. intros _. right. exists user. split; [done|].
    apply elem_of_cons in Hr as [->|Hr]; [auto|].
    apply elem_of_cons in Hr as [->|Hr]; [auto|]. inversion Hr.
  - split; [done|]. intros [?|(u & [= <-] & [?|[Hu|Hu]])]; try done.
    + exfalso. apply Hr. rewrite Hu. set_solver.
    + exfalso. apply Hr. rewrite Hu. set_solver.
Qed.

(** C6: [view] returns the post exactly when the post is stored, carries
    no deletion timestamp and is visible to the (optional) actor; in every
    other case, whatever the reason, the endpoint raises the one and
    the same 404 "Blog not found". *)
Theorem view_returns_iff_visible (db : Db) (blog_id : Z) (actor : option User) :
  (∀ blog,
     get_blog_endpoint db blog_id actor = Return blog
     ↔ blogs db !! blog_id = Some blog ∧ deleted_at blog = None
       ∧ visible_to blog actor)
  ∧ (get_blog_endpoint db blog_id actor = Raise not_found
     ↔ ¬ ∃ blog, blogs db !! blog_id = Some blog ∧ deleted_at blog = None
                 ∧ visible_to blog actor)
  ∧ (∀ blog, get_blog_for_view db blog_id actor = Some blog
             ↔ get_blog_endpoint db blog_id actor = Return blog).
Proof.
  unfold get_blog_endpoint, get_blog_for_view.
  destruct (get_blog_by_id db blog_id) as [b|] eqn:Hget.
  - apply get_blog_by_id_Some in Hget as [Hb Hd].
    destruct (_can_view_blog b actor) eqn:Hv; simpl.
    + apply _can_view_blog_spec in Hv.
      split; [|split].
      * intros blog. split; [intros [= <-]; done|].
        intros (Hb' & _ & _). congruence.
      * split; [done|]. intros Hn. exfalso. apply Hn. eauto.
      * intros blog. split; congruence.
    + assert (Hnv : ¬ visible_to b actor).
      { intros Hv'. apply _can_view_blog_spec in Hv'. congruence. }
      split; [|split].
      * intros blog. split; [done|].
        intros (Hb' & _ & Hv'). congruence.
      * split; [|done]. intros _ (blog & Hb' & _ & Hv'). congruence.
      * intros blog. split; done.
  - apply get_blog_by_id_None in Hget.
    split; [|split].
    + intros blog. split; [done|].
      intros (Hb & Hd & _). destruct Hget as [Hn|(b & t & Hb' & Ht)]; congruence.
    + split; [|done]. intros _ (blog & Hb & Hd & _).
      destruct Hget as [Hn|(b & t & Hb' & Ht)]; congruence.
    + intros blog. split; done.
Qed.

End ViewPolicy.

(** ** The status state machine *)

Module StatusMachine.

Import Service Routes Rbac Lifecycle Policy.

Lemma apply_update_keeps (blog blog1 : Blog) (data : BlogUpdate) :
  apply_update blog data = Some blog1 →
  blog_id blog1 = blog_id blog ∧ status blog1 = status blog
  ∧ deleted_at blog1 = deleted_at blog.
Proof.
  unfold apply_update.
  destruct (update_title data) as [[t|]|], (update_content data) as [[c|]|],
    (update_images data) as [im|]; simpl; intros [= <-]; done.
Qed.

Lemma require_approver_ok (u : User) :
  role u ∈ [ADMIN; L1_APPROVER] → require_approver u = Return u.
Proof. intros Hr. unfold require_approver. case_decide; done. Qed.

Lemma require_approver_user (u : User) :
  role u ∉ [ADMIN; L1_APPROVER] → ∃ e, require_approver u = Raise e
                                        ∧ status_code e = HTTP_403_FORBIDDEN.
Proof. intros Hr. unfold require_approver. case_decide; [eauto|done]. Qed.

Section Steps.

Context {Text : Type} (json_dumps : json → Text).

Lemma step_wf (st : Db * gmap string (list Text)) (now : Z) (o : op) :
  db_wf st.1 → db_wf (step json_dumps st now o).1.
Proof.
  destruct st as [db clients]. simpl. intros Hwf.
  assert (Hflush : ∀ b, db_wf (flush_blog db b)).
  { intros b i b' Hl. rewrite lookup_flush_blog in Hl.
    case_decide; [congruence|eauto]. }
  destruct o as [actor payload stamp|j actor patch|j actor stamp|j actor|j actor]; simpl.
  - unfold create_blog_endpoint. case_decide; simpl; [apply Hflush|done].
  - unfold update_blog_endpoint. case_decide; [|done].
    destruct (get_blog_by_id db j) as [blog|]; [|done].
    unfold update_blog. destruct (negb (_can_edit_blog blog actor)); [done|].
    destruct (apply_update blog patch); simpl; [apply Hflush|done].
  - unfold delete_blog_endpoint.
    destruct (get_blog_by_id db j) as [blog|]; [|done].
    unfold soft_delete_blog. destruct (negb (_can_delete_blog blog actor)); simpl;
      [done|]. case_decide; simpl; [done|apply Hflush].
  - unfold approve_blog_endpoint. destruct (require_approver actor); [|done].
    destruct (get_blog_by_id db j) as [blog|]; [|done].
    case_decide; simpl; [done|apply Hflush].
  - unfold reject_blog_endpoint. destruct (require_approver actor); [|done].
    destruct (get_blog_by_id db j) as [blog|]; [|done].
    case_decide; simpl; [done|apply Hflush].
Qed.

Lemma step_transition (st : Db * gmap string (list Text)) (now : Z) (o : op)
    (i : Z) (b : Blog) :
  db_wf st.1 → blogs st.1 !! i = Some b →
  ∃ b', blogs (step json_dumps st now o).1 !! i = Some b'
        ∧ transition o i (status b) (status b').
Proof.
  destruct st as [db clients]. cbn [fst]. intros Hwf Hb.
  assert (Hsame : ∃ b', blogs db !! i = Some b' ∧ transition o i (status b) (status b')).
  { exists b. split; [done|]. by left. }
  destruct o as [actor payload stamp|j actor patch|j actor stamp|j actor|j actor];
    unfold step; cbn [fst snd].
  - unfold create_blog_endpoint, create_blog. case_decide; cbn [fst snd]; [|done].
    rewrite lookup_flush_blog. cbn [blog_id]. case_decide as Hk; [|done].
    pose proof (next_blog_id_fresh db) as Hf. rewrite Hk in Hf. congruence.
  - unfold update_blog_endpoint. case_decide; [|done].
    destruct (get_blog_by_id db j) as [blog|] eqn:Hg; [|done].
    apply get_blog_by_id_Some in Hg as [Hj _]. pose proof (Hwf _ _ Hj) as Hid.
    unfold update_blog. destruct (negb (_can_edit_blog blog actor)); [done|].
    destruct (apply_update blog patch) as [blog1|] eqn:Hu; cbn [fst snd]; [|done].
    apply apply_update_keeps in Hu as (Hid1 & Hs1 & _).
    rewrite lookup_flush_blog. cbn [blog_id set_updated_at].
    case_decide as Hk; [|done].
    assert (i = j) as -> by congruence.
    assert (blog = b) as -> by congruence.
    eexists. split; [done|]. left. simpl. congruence.
  - unfold delete_blog_endpoint.
    destruct (get_blog_by_id db j) as [blog|] eqn:Hg; [|done].
    apply get_blog_by_id_Some in Hg as [Hj _]. pose proof (Hwf _ _ Hj) as Hid.
    unfold soft_delete_blog.
    destruct (negb (_can_delete_blog blog actor)); cbn [fst snd negb]; [done|].
    case_decide as Hsame'; cbn [fst snd negb]; [done|].
    rewrite lookup_flush_blog. cbn [blog_id set_deleted_at set_updated_at].
    case_decide as Hk; [|done].
    assert (i = j) as -> by congruence.
    assert (blog = b) as -> by congruence.
    eexists. split; [done|]. left. simpl. congruence.
  - unfold approve_blog_endpoint. destruct (require_approver actor); [|done].
    destruct (get_blog_by_id db j) as [blog|] eqn:Hg; [|done].
    apply get_blog_by_id_Some in Hg as [Hj _]. pose proof (Hwf _ _ Hj) as Hid.
    case_decide as Hs; [done|]. unfold approve_blog. cbn [fst snd].
    rewrite lookup_flush_blog. cbn [blog_id set_updated_at set_status].
    case_decide as Hk; [|done].
    assert (i = j) as -> by congruence.
    assert (blog = b) as -> by congruence.
    eexists. split; [done|]. right. left. simpl.
    split; [congruence|]. split; [done|eauto].
  - unfold reject_blog_endpoint. destruct (require_approver actor); [|done].
    destruct (get_blog_by_id db j) as [blog|] eqn:Hg; [|done].
    apply get_blog_by_id_Some in Hg as [Hj _]. pose proof (Hwf _ _ Hj) as Hid.
    case_decide as Hs; [done|]. unfold reject_blog. cbn [fst snd].
    rewrite lookup_flush_blog. cbn [blog_id set_updated_at set_status].
    case_decide as Hk; [|done].
    assert (i = j) as -> by congruence.
    assert (blog = b) as -> by congruence.
    eexists. split; [done|]. right. right. simpl.
    split; [congruence|]. split; [done|eauto].
Qed.

Lemma run_keeps_non_pending (requests : list (Z * op))
    (st : Db * gmap string (list Text)) (i : Z) (b : Blog) :
  db_wf st.1 → blogs st.1 !! i = Some b →
  ∃ b', blogs (run json_dumps st requests).1 !! i = Some b'
        ∧ (status b ≠ PENDING → status b' ≠ PENDING).
Proof.
  revert st b. induction requests as [|[now o] requests IH]; intros st b Hwf Hb.
  - exists b. done.
  - simpl.
    destruct (step_transition st now o i b Hwf Hb) as (b1 & Hb1 & Ht).
    destruct (IH _ b1 (step_wf st now o Hwf) Hb1) as (b' & Hb' & Hkeep).
    exists b'. split; [done|]. intros Hnp. apply Hkeep.
    destruct Ht as [->|[(_ & -> & _)|(_ & -> & _)]]; done.
Qed.

End Steps.

End StatusMachine.

(** ** Moderation requests *)

Module Moderation.

Import Service Routes Rbac Lifecycle Policy StatusMachine Sample.

Lemma db_wf_singleton (us : gmap Z User) (b : Blog) (cs : list Comment) :
  db_wf (mkDb us {[blog_id b := b]} cs).
Proof.
  intros i b' Hl. simpl in Hl.
  apply lookup_singleton_Some in Hl as [<- <-]. reflexivity.
Qed.

Lemma db_wf_empty (us : gmap Z User) (cs : list Comment) : db_wf (mkDb us ∅ cs).
Proof. intros i b' Hl. simpl in Hl. rewrite lookup_empty in Hl. discriminate. Qed.

(** C1, as the code has it: a status is one of the three values; a
    submitted post is stored as PENDING; one request changes the status of
    a stored post only by [approve] (from any status but APPROVED, to
    APPROVED) or by [reject] (from any status but REJECTED, to REJECTED);
    so over any sequence of submit, edit, delete, approve and reject
    requests a stored post stays stored and, once it is not PENDING, never
    is PENDING again. *)
Theorem status_never_back_to_pending {Text : Type} (json_dumps : json → Text)
    (st : Db * gmap string (list Text)) (requests : list (Z * op))
    (i : Z) (b : Blog) :
  db_wf st.1 → blogs st.1 !! i = Some b →
  (∀ s : BlogStatus, s = PENDING ∨ s = APPROVED ∨ s = REJECTED)
  ∧ (∀ now updated_now actor payload,
       valid_BlogCreate payload →
       ∃ blog db1 clients1,
         create_blog_endpoint json_dumps st.1 st.2 now updated_now payload actor
         = (Return blog, db1, clients1)
         ∧ status blog = PENDING ∧ blogs db1 !! blog_id blog = Some blog)
  ∧ (∀ now o, ∃ b', blogs (step json_dumps st now o).1 !! i = Some b'
                    ∧ transition o i (status b) (status b'))
  ∧ (∃ b', blogs (run json_dumps st requests).1 !! i = Some b'
           ∧ (status b ≠ PENDING → status b' ≠ PENDING)).
Proof.
  intros Hwf Hb. split; [|split; [|split]].
  - intros []; auto.
  - intros now updated_now actor payload Hv. unfold create_blog_endpoint, create_blog.
    case_decide; [|done]. do 3 eexists. split; [reflexivity|].
    split; [reflexivity|]. rewrite lookup_flush_blog. case_decide; done.
  - intros now o. by apply step_transition.
  - by apply run_keeps_non_pending.
Qed.

Lemma status_never_back_to_pending_witness :
  db_wf db_approved ∧ blogs db_approved !! 1 = Some approved_post
  ∧ ∃ b', blogs (run (Text:=json) id (db_approved, ∅)
                     [(12, Reject 1 root); (13, Edit 1 alice (mkBlogUpdate None None None))]).1
          !! 1 = Some b'
          ∧ (status approved_post ≠ PENDING → status b' ≠ PENDING).
Proof.
  assert (Hwf : db_wf db_approved) by apply (db_wf_singleton people approved_post []).
  assert (Hb : blogs db_approved !! 1 = Some approved_post) by reflexivity.
  split; [exact Hwf|]. split; [exact Hb|].
  exact (proj2 (proj2 (proj2
    (status_never_back_to_pending (Text:=json) id (db_approved, ∅)
       [(12, Reject 1 root); (13, Edit 1 alice (mkBlogUpdate None None None))]
       1 approved_post Hwf Hb)))).
Defined.

(** C1 as stated fails: starting from the empty table, a post that was
    submitted and approved is moved out of APPROVED by a later [reject]. *)
Lemma approved_post_can_be_rejected :
  let submitted := [(10, Submit alice draft 10); (11, Approve 1 root)] in
  let rejected := submitted ++ [(12, Reject 1 carol)] in
  status <$> blogs (run (Text:=json) id (db_empty, ∅) submitted).1 !! 1 = Some APPROVED
  ∧ status <$> blogs (run (Text:=json) id (db_empty, ∅) rejected).1 !! 1 = Some REJECTED.
Proof. split; vm_compute; reflexivity. Qed.

(** C7: for a stored, undeleted PENDING post and two approvers, the first
    [approve] returns the post with status APPROVED, the second raises
    400 "Blog is already approved" and leaves the database exactly as the
    first call left it, with the post still APPROVED; and whenever a post
    already has the target status, [approve] and [reject] raise that
    conflict and return the database unchanged. *)
Theorem approve_twice_conflicts (db : Db) (now1 now2 : Z) (i : Z) (b : Blog)
    (actor1 actor2 : User) :
  db_wf db → blogs db !! i = Some b → deleted_at b = None → status b = PENDING →
  role actor1 ∈ [ADMIN; L1_APPROVER] → role actor2 ∈ [ADMIN; L1_APPROVER] →
  (∃ approved db1,
      approve_blog_endpoint db now1 i actor1 = (Return approved, db1)
      ∧ status approved = APPROVED
      ∧ approve_blog_endpoint db1 now2 i actor2 = (Raise already_approved, db1)
      ∧ blogs db1 !! i = Some approved
      ∧ status_code already_approved = HTTP_400_BAD_REQUEST)
  ∧ (∀ db' now j b' actor,
       blogs db' !! j = Some b' → deleted_at b' = None →
       role actor ∈ [ADMIN; L1_APPROVER] →
       (status b' = APPROVED →
          approve_blog_endpoint db' now j actor = (Raise already_approved, db'))
       ∧ (status b' = REJECTED →
          reject_blog_endpoint db' now j actor = (Raise already_rejected, db'))).
Proof.
  intros Hwf Hb Hd Hs Hr1 Hr2. split.
  - exists (set_updated_at (set_status b APPROVED) now1).
    exists (flush_blog db (set_updated_at (set_status b APPROVED) now1)).
    assert (Hl : blogs (flush_blog db (set_updated_at (set_status b APPROVED) now1)) !! i
                 = Some (set_updated_at (set_status b APPROVED) now1)).
    { rewrite lookup_flush_blog. simpl. rewrite (Hwf _ _ Hb). case_decide; done. }
    split; [|split; [done|split; [|done]]].
    + unfold approve_blog_endpoint. rewrite (require_approver_ok _ Hr1).
      assert (Hg : get_blog_by_id db i = Some b) by (apply get_blog_by_id_Some; done).
      rewrite Hg. case_decide as Hc; [congruence|]. reflexivity.
    + unfold approve_blog_endpoint. rewrite (require_approver_ok _ Hr2).
      assert (Hg : get_blog_by_id
                     (flush_blog db (set_updated_at (set_status b APPROVED) now1)) i
                   = Some (set_updated_at (set_status b APPROVED) now1)).
      { apply get_blog_by_id_Some. done. }
      rewrite Hg. case_decide as Hc; [reflexivity|]. exfalso. apply Hc. reflexivity.
  - intros db' now j b' actor Hb' Hd' Hr.
    assert (Hg : get_blog_by_id db' j = Some b') by (apply get_blog_by_id_Some; done).
    split; intros Hs'.
    + unfold approve_blog_endpoint. rewrite (require_approver_ok _ Hr), Hg.
      case_decide; done.
    + unfold reject_blog_endpoint. rewrite (require_approver_ok _ Hr), Hg.
      case_decide; done.
Qed.

Lemma approve_twice_conflicts_witness :
  db_wf db_pending ∧ blogs db_pending !! 1 = Some pending_post
  ∧ deleted_at pending_post = None ∧ status pending_post = PENDING
  ∧ role root ∈ [ADMIN; L1_APPROVER] ∧ role carol ∈ [ADMIN; L1_APPROVER]
  ∧ ∃ approved db1,
      approve_blog_endpoint db_pending 11 1 root = (Return approved, db1)
      ∧ status approved = APPROVED
      ∧ approve_blog_endpoint db1 12 1 carol = (Raise already_approved, db1)
      ∧ blogs db1 !! 1 = Some approved
      ∧ status_code already_approved = HTTP_400_BAD_REQUEST.
Proof.
  assert (Hwf : db_wf db_pending) by apply (db_wf_singleton people pending_post []).
  assert (Hr1 : role root ∈ [ADMIN; L1_APPROVER]) by (apply elem_of_cons; left; reflexivity).
  assert (Hr2 : role carol ∈ [ADMIN; L1_APPROVER]).
  { apply elem_of_cons; right. apply elem_of_cons; left. reflexivity. }
  repeat (split; [first [exact Hwf|exact Hr1|exact Hr2|reflexivity]|]).
  exact (proj1 (approve_twice_conflicts db_pending 11 12 1 pending_post root carol
                  Hwf eq_refl eq_refl eq_refl Hr1 Hr2)).
Defined.

End Moderation.

(** ** The public listing *)

Module Listing.

Import Service Routes.

#[local] Instance newest_first_total : Total newest_first.
Proof. intros a b. unfold newest_first. lia. Qed.

#[local] Instance newest_first_trans : Transitive newest_first.
Proof. intros a b c. unfold newest_first. lia. Qed.

Lemma StronglySorted_sublist {A} (R : relation A) (l k : list A) :
  k `sublist_of` l → StronglySorted R l → StronglySorted R k.
Proof.
  induction 1 as [|x k l Hsub IH|x k l Hsub IH]; intros Hs.
  - constructor.
  - apply StronglySorted_inv in Hs as [Hs Hall]. constructor; [auto|].
    rewrite Forall_forall in Hall |- *. intros y Hy. apply Hall.
    by eapply elem_of_sublist.
  - apply StronglySorted_inv in Hs as [Hs _]. auto.
Qed.

Lemma length_filter_snd {A B} (P : B → Prop) `{!∀ x, Decision (P x)}
    (l : list (A * B)) :
  length (filter P l.*2) = length (filter (λ kv, P kv.2) l).
Proof.
  induction l as [|[k v] l IH]; [done|].
  rewrite fmap_cons, !filter_cons. simpl. destruct (decide (P v)); simpl; lia.
Qed.

(** The number of rows of the table that are approved and not deleted. *)
Lemma count_approved (db : Db) :
  length (filter approved_not_deleted (blog_rows db))
  = size (filter (λ kv : Z * Blog, approved_not_deleted kv.2) (blogs db)).
Proof.
  unfold blog_rows. rewrite length_filter_snd.
  rewrite map_filter_alt. rewrite map_size_list_to_map; [done|].
  eapply (sublist_NoDup _ ((map_to_list (blogs db)).*1)).
  - apply NoDup_fst_map_to_list.
  - apply fmap_sublist, sublist_filter.
Qed.

Lemma elem_of_blog_rows (db : Db) (b : Blog) :
  b ∈ blog_rows db ↔ ∃ i, blogs db !! i = Some b.
Proof.
  unfold blog_rows. rewrite list_elem_of_fmap. split.
  - intros ([i b'] & -> & Hin). exists i. by apply elem_of_map_to_list.
  - intros (i & Hl). exists (i, b). split; [done|]. by apply elem_of_map_to_list.
Qed.

(** The route hands a valid window to the service and returns what it
    gets, or raises 422 before the table is read. *)
Lemma list_blogs_response (db : Db) (limit offset : Z) :
  list_blogs db (Some limit) (Some offset)
  = if decide (1 ≤ limit ∧ limit ≤ 100 ∧ 0 ≤ offset) then
      Return (mkBlogListResponse
                (list_approved_blogs db (Z.to_nat limit) (Z.to_nat offset)).1
                (list_approved_blogs db (Z.to_nat limit) (Z.to_nat offset)).2
                limit offset)
    else Raise validation_error.
Proof. unfold list_blogs. simpl default. case_decide; reflexivity. Qed.

(** C9: the listing is a window of the approved, undeleted rows put in
    descending order of [created_at]: [ordered] holds exactly those rows,
    newest first, [items] are the at most [limit] rows of it that follow
    the first [offset], and [total] counts all approved undeleted rows
    whatever the window. *)
Theorem list_approved_blogs_window (db : Db) (limit offset : nat) :
  ∃ ordered : list Blog,
    ordered ≡ₚ filter approved_not_deleted (blog_rows db)
    ∧ (∀ b, b ∈ ordered
            ↔ (∃ i, blogs db !! i = Some b) ∧ status b = APPROVED ∧ deleted_at b = None)
    ∧ StronglySorted newest_first ordered
    ∧ (list_approved_blogs db limit offset).1 = take limit (drop offset ordered)
    ∧ StronglySorted newest_first (list_approved_blogs db limit offset).1
    ∧ (length (list_approved_blogs db limit offset).1 ≤ limit)%nat
    ∧ (list_approved_blogs db limit offset).2
      = Z.of_nat (size (filter (λ kv : Z * Blog, approved_not_deleted kv.2) (blogs db)))
    ∧ (∀ limit' offset',
         (list_approved_blogs db limit' offset').2 = (list_approved_blogs db limit offset).2).
Proof.
  exists (merge_sort newest_first (filter approved_not_deleted (blog_rows db))).
  assert (Hsorted : StronglySorted newest_first
            (merge_sort newest_first (filter approved_not_deleted (blog_rows db)))).
  { apply StronglySorted_merge_sort; apply _. }
  split; [apply merge_sort_Permutation|].
  split.
  { intros b. rewrite merge_sort_Permutation, list_elem_of_filter, elem_of_blog_rows.
    unfold approved_not_deleted. naive_solver. }
  split; [done|]. split; [done|].
  split.
  { simpl. eapply StronglySorted_sublist; [|exact Hsorted].
    etrans; [apply sublist_take|apply sublist_drop]. }
  split; [simpl; rewrite length_take; lia|].
  split; [simpl; by rewrite count_approved|].
  done.
Qed.

End Listing.

(** ** The event stream *)

Module EventStream.

Import Service Routes Rbac Notifications Sample.

Section Stream.

Context {Text : Type} (json_dumps : json → Text).

#[local] Abbreviation message_of blog := (json_dumps (new_pending_blog_payload blog)).
#[local] Abbreviation publish := (notify_new_pending_blog json_dumps).

Lemma publish_lookup (blog : Blog) (clients : gmap string (list Text))
    (client_id : string) :
  publish blog clients !! client_id
  = (λ queue, queue ++ [message_of blog]) <$> clients !! client_id.
Proof.
  unfold notify_new_pending_blog. case_decide as He.
  - subst clients. by rewrite lookup_empty.
  - by rewrite lookup_fmap.
Qed.

Lemma publish_many_lookup (later : list Blog) (clients : gmap string (list Text))
    (client_id : string) (queue : list Text) :
  clients !! client_id = Some queue →
  foldl (λ clients blog, publish blog clients) clients later !! client_id
  = Some (queue ++ ((λ blog, message_of blog) <$> later)).
Proof.
  revert clients queue. induction later as [|blog later IH]; intros clients queue Hq.
  - simpl. by rewrite app_nil_r.
  - simpl. erewrite IH; [|by rewrite publish_lookup, Hq].
    by rewrite <- app_assoc.
Qed.

(** Reading as many lines as the queue holds yields the queue, oldest
    message first. *)
Lemma read_lines_queue (queue : list Text) (clients : gmap string (list Text))
    (client_id : string) :
  clients !! client_id = Some queue →
  (read_lines (length queue) client_id clients).2 = DataLine <$> queue.
Proof.
  revert clients. induction queue as [|message queue IH]; intros clients Hq; [done|].
  simpl. unfold connect_next. rewrite Hq.
  specialize (IH (<[client_id := queue]> clients) (lookup_insert_eq _ _ _)).
  destruct (read_lines (length queue) client_id (<[client_id:=queue]> clients))
    as [clients2 lines]. simpl in *. by rewrite IH.
Qed.

End Stream.

(** C8: [publish] (here [notify_new_pending_blog]) with no registered
    mailbox returns the empty registry; otherwise it keeps the set of
    registered mailboxes and appends the event's message to each of them; a
    mailbox registered after the call starts empty and then holds exactly
    the messages published later; and two events published while a
    subscriber stays registered sit in its mailbox, and come out of its
    stream, in publish order. *)
Theorem publish_reaches_registered_mailboxes {Text : Type} (json_dumps : json → Text)
    (clients : gmap string (list Text)) (e1 e2 : Blog) :
  notify_new_pending_blog json_dumps e1 ∅ = ∅
  ∧ dom (notify_new_pending_blog json_dumps e1 clients) = dom clients
  ∧ (∀ client_id queue,
       clients !! client_id = Some queue →
       notify_new_pending_blog json_dumps e1 clients !! client_id
       = Some (queue ++ [json_dumps (new_pending_blog_payload e1)]))
  ∧ (∀ client_id later,
       let registered :=
         (connect_open json_dumps client_id
            (notify_new_pending_blog json_dumps e1 clients)).1 in
       registered !! client_id = Some []
       ∧ foldl (λ clients blog, notify_new_pending_blog json_dumps blog clients)
               registered later !! client_id
         = Some ((λ blog, json_dumps (new_pending_blog_payload blog)) <$> later))
  ∧ (∀ client_id queue,
       clients !! client_id = Some queue →
       let published :=
         notify_new_pending_blog json_dumps e2
           (notify_new_pending_blog json_dumps e1 clients) in
       let delivered :=
         queue ++ [json_dumps (new_pending_blog_payload e1);
                   json_dumps (new_pending_blog_payload e2)] in
       published !! client_id = Some delivered
       ∧ (read_lines (length delivered) client_id published).2 = DataLine <$> delivered).
Proof.
  split; [|split; [|split; [|split]]].
  - unfold notify_new_pending_blog. case_decide; done.
  - apply set_eq. intros client_id. rewrite !elem_of_dom, publish_lookup.
    by rewrite fmap_is_Some.
  - intros client_id queue Hq. by rewrite publish_lookup, Hq.
  - intros client_id later registered.
    assert (Hr : registered !! client_id = Some []).
    { unfold registered, connect_open. simpl. apply lookup_insert_eq. }
    split; [done|]. by rewrite (publish_many_lookup _ later _ _ [] Hr).
  - intros client_id queue Hq published delivered.
    assert (Hp : published !! client_id = Some delivered).
    { unfold published, delivered. rewrite !publish_lookup, Hq. simpl.
      by rewrite <- app_assoc. }
    split; [done|]. by apply read_lines_queue.
Qed.

Lemma publish_reaches_registered_mailboxes_witness :
  let clients : gmap string (list json) := {[ "c1"%string := [] ]} in
  let published :=
    notify_new_pending_blog id approved_post
      (notify_new_pending_blog id pending_post clients) in
  published !! "c1"%string
  = Some [new_pending_blog_payload pending_post; new_pending_blog_payload approved_post]
  ∧ (read_lines 2 "c1"%string published).2
    = [DataLine (new_pending_blog_payload pending_post);
       DataLine (new_pending_blog_payload approved_post)].
Proof.
  intros clients published.
  exact (proj2 (proj2 (proj2 (proj2
    (publish_reaches_registered_mailboxes (Text:=json) id clients
       pending_post approved_post)))) "c1"%string [] eq_refl).
Defined.

(** C3, as the code has it: the stream is opened, and a mailbox
    registered, exactly when the actor's role is ADMIN; an actor with any
    other role, APPROVER as well as USER, gets 403 and the registry is
    left as it was. *)
Theorem sse_admin_only {Text : Type} (json_dumps : json → Text)
    (clients : gmap string (list Text)) (client_id : string) (current_user : User) :
  ((∃ line clients1,
      notifications_sse json_dumps clients client_id current_user
      = (Return line, clients1))
   ↔ role current_user = ADMIN)
  ∧ (role current_user = ADMIN →
     notifications_sse json_dumps clients client_id current_user
     = (Return (DataLine (json_dumps (JObj [(py "type", JStr (py "connected"))]))),
        <[client_id := []]> clients))
  ∧ (role current_user ≠ ADMIN →
     ∃ e, notifications_sse json_dumps clients client_id current_user
          = (Raise e, clients)
          ∧ status_code e = HTTP_403_FORBIDDEN).
Proof.
  unfold notifications_sse, require_admin.
  case_decide as Hr; cbn [connect_open].
  - split; [|split].
    + split; [intros (line & clients1 & [=])|done].
    + done.
    + intros _. eexists. split; reflexivity.
  - assert (Ha : role current_user = ADMIN) by (destruct (role current_user); done).
    split; [|split].
    + split; [done|]. intros _. do 2 eexists. reflexivity.
    + done.
    + done.
Qed.

(** C3 as stated fails: an approver is turned away with 403 and no
    mailbox is registered for them. *)
Lemma sse_refuses_approver :
  role carol = L1_APPROVER
  ∧ notifications_sse (Text:=json) id ∅ "c1" carol
    = (Raise (mkHTTPException HTTP_403_FORBIDDEN "Access denied. Admin role required."),
       ∅).
Proof. split; reflexivity. Qed.

End EventStream.

(** ** Rooms and broadcasts *)

Module Rooms.

Import ChatManager.

Section Broadcast.

Context {Text : Type}.

Lemma get_room_disconnect (connections : gmap Z (gset N)) (blog_id : Z) (ws : N) :
  get_room (disconnect connections blog_id ws) blog_id
  = get_room connections blog_id ∖ {[ws]}.
Proof.
  unfold disconnect, get_room.
  destruct (connections !! blog_id) as [room|] eqn:Hr; simpl.
  - case_decide as He.
    + rewrite lookup_delete_eq. simpl. by rewrite He.
    + by rewrite lookup_insert_eq.
  - rewrite Hr. simpl. set_solver.
Qed.

Lemma disconnect_other (connections : gmap Z (gset N)) (blog_id j : Z) (ws : N) :
  j ≠ blog_id → disconnect connections blog_id ws !! j = connections !! j.
Proof.
  intros Hne. unfold disconnect.
  destruct (connections !! blog_id) as [room|]; [|done].
  case_decide; [by rewrite lookup_delete_ne|by rewrite lookup_insert_ne].
Qed.

Lemma send_or_cleanup_pair (send_fails : N → bool) (blog_id : Z) (message : Text)
    (connections : gmap Z (gset N)) (out : list (effect Text)) (ws : N) :
  send_or_cleanup send_fails blog_id message (connections, out) ws
  = if send_fails ws
    then (disconnect connections blog_id ws, out ++ [SendFailed ws message])
    else (connections, out ++ [SentText ws message]).
Proof. reflexivity. Qed.

(** The loop of [broadcast], from any point on. *)
Lemma broadcast_loop (send_fails : N → bool) (blog_id : Z) (message : Text)
    (sockets : list N) (connections : gmap Z (gset N)) (out : list (effect Text)) :
  get_room (foldl (send_or_cleanup send_fails blog_id message)
                  (connections, out) sockets).1 blog_id
  = get_room connections blog_id
    ∖ list_to_set (filter (λ ws, send_fails ws = true) sockets)
  ∧ (foldl (send_or_cleanup send_fails blog_id message) (connections, out) sockets).2
    = out ++ (delivery send_fails message <$> sockets)
  ∧ ∀ j, j ≠ blog_id →
         (foldl (send_or_cleanup send_fails blog_id message)
                (connections, out) sockets).1 !! j = connections !! j.
Proof.
  revert connections out.
  induction sockets as [|ws sockets IH]; intros connections out.
  - simpl. split; [set_solver|]. split; [by rewrite app_nil_r|done].
  - cbn [foldl]. rewrite send_or_cleanup_pair, filter_cons, fmap_cons.
    assert (Hd : delivery send_fails message ws
                 = if send_fails ws then SendFailed ws message else SentText ws message)
      by reflexivity.
    rewrite Hd. clear Hd.
    destruct (send_fails ws) eqn:Hf.
    + destruct (IH (disconnect connections blog_id ws) (out ++ [SendFailed ws message]))
        as (Hroom & Hout & Hother).
      rewrite Hroom, Hout, get_room_disconnect.
      case_decide; [|done].
      split; [set_solver|]. split; [by rewrite <- app_assoc|].
      intros j Hj. rewrite Hother by done. by apply disconnect_other.
    + destruct (IH connections (out ++ [SentText ws message])) as (Hroom & Hout & Hother).
      rewrite Hroom, Hout. case_decide; [done|].
      split; [done|]. split; [by rewrite <- app_assoc|done].
Qed.

Lemma broadcast_out (send_fails : N → bool) (connections : gmap Z (gset N))
    (blog_id : Z) (message : Text) :
  (broadcast send_fails connections blog_id message).2
  = delivery send_fails message <$> elements (get_room connections blog_id).
Proof.
  unfold broadcast.
  destruct (broadcast_loop send_fails blog_id message
              (elements (get_room connections blog_id)) connections [])
    as (_ & Hout & _).
  by rewrite Hout.
Qed.

Lemma broadcast_room (send_fails : N → bool) (connections : gmap Z (gset N))
    (blog_id : Z) (message : Text) :
  get_room (broadcast send_fails connections blog_id message).1 blog_id
  = filter (λ ws, send_fails ws = false) (get_room connections blog_id).
Proof.
  unfold broadcast.
  destruct (broadcast_loop send_fails blog_id message
              (elements (get_room connections blog_id)) connections [])
    as (Hroom & _ & _).
  rewrite Hroom. apply set_eq. intros ws.
  rewrite elem_of_difference, elem_of_filter, elem_of_list_to_set, list_elem_of_filter,
    elem_of_elements.
  destruct (send_fails ws); naive_solver.
Qed.

End Broadcast.

End Rooms.

(** ** The chat endpoint *)

Module Chat.

Import Service ChatManager WebSocket Rooms Sample.

(** C4: [broadcast] makes exactly one delivery attempt for each socket of
    the snapshot taken on entry, whether or not an earlier one raised; it
    returns normally; a socket whose send succeeds gets the message and
    stays in the room, one whose send raises is removed from it; other
    rooms are untouched; and a later broadcast to the room makes no attempt
    for a removed socket. *)
Theorem broadcast_isolates_failures {Text : Type} (send_fails : N → bool)
    (connections : gmap Z (gset N)) (blog_id : Z) (message : Text) :
  let snapshot := get_room connections blog_id in
  let after := (broadcast send_fails connections blog_id message).1 in
  let out := (broadcast send_fails connections blog_id message).2 in
  out = delivery send_fails message <$> elements snapshot
  ∧ (∀ ws, ws ∈ snapshot → send_fails ws = false →
           SentText ws message ∈ out ∧ ws ∈ get_room after blog_id)
  ∧ (∀ ws, ws ∈ snapshot → send_fails ws = true →
           SendFailed ws message ∈ out ∧ (SentText ws message ∉ out)
           ∧ (ws ∉ get_room after blog_id))
  ∧ get_room after blog_id = filter (λ ws, send_fails ws = false) snapshot
  ∧ (∀ j, j ≠ blog_id → after !! j = connections !! j)
  ∧ (∀ send_fails2 (message2 : Text) ws,
       ws ∈ snapshot → send_fails ws = true →
       (SentText ws message2 ∉ (broadcast send_fails2 after blog_id message2).2)
       ∧ (SendFailed ws message2 ∉ (broadcast send_fails2 after blog_id message2).2)).
Proof.
  intros snapshot after out.
  assert (Hout : out = delivery send_fails message <$> elements snapshot)
    by apply broadcast_out.
  assert (Hroom : get_room after blog_id = filter (λ ws, send_fails ws = false) snapshot)
    by apply broadcast_room.
  assert (Hin : ∀ ws, ws ∈ snapshot → delivery send_fails message ws ∈ out).
  { intros ws Hws. rewrite Hout. apply list_elem_of_fmap. exists ws.
    split; [done|]. by apply elem_of_elements. }
  split; [done|]. split; [|split; [|split; [done|split]]].
  - intros ws Hws Hf. split.
    + specialize (Hin ws Hws). unfold delivery in Hin. by rewrite Hf in Hin.
    + rewrite Hroom. by apply elem_of_filter.
  - intros ws Hws Hf. split; [|split].
    + specialize (Hin ws Hws). unfold delivery in Hin. by rewrite Hf in Hin.
    + rewrite Hout. intros Hsent.
      apply list_elem_of_fmap in Hsent as (ws' & Heq & _).
      unfold delivery in Heq. destruct (send_fails ws') eqn:Hf'; [done|].
      injection Heq as <-. congruence.
    + rewrite Hroom. intros [Hf' _]%elem_of_filter. congruence.
  - intros j Hj. unfold after, broadcast.
    by apply (broadcast_loop send_fails blog_id message).
  - intros send_fails2 message2 ws Hws Hf.
    assert (Hgone : ws ∉ get_room after blog_id).
    { rewrite Hroom. intros [Hf' _]%elem_of_filter. congruence. }
    rewrite broadcast_out.
    split; intros Hsent; apply list_elem_of_fmap in Hsent as (ws' & Heq & Hws');
      apply elem_of_elements in Hws'; unfold delivery in Heq; destruct (send_fails2 ws'); try done;
      injection Heq as <-; done.
Qed.

Lemma broadcast_isolates_failures_witness :
  let after := (broadcast (Text:=sample_text) (send_fails calm)
                  (_connections chat_approved) 1 (Garbled "m")).1 in
  SentText 7%N (Garbled "m")
    ∈ (broadcast (send_fails calm) (_connections chat_approved) 1 (Garbled "m")).2
  ∧ 7%N ∈ get_room after 1.
Proof.
  intros after.
  refine (proj1 (proj2 (broadcast_isolates_failures (Text:=sample_text)
            (send_fails calm) (_connections chat_approved) 1 (Garbled "m")))
            7%N _ eq_refl).
  unfold get_room, chat_approved. simpl. rewrite lookup_singleton_eq. simpl.
  set_solver.
Defined.

Section Frames.

Context {Text : Type}
        (json_loads : Text → option json)
        (json_dumps : json → Text)
        (isoformat : Z → pystr).

#[local] Abbreviation handle := (on_text json_loads json_dumps isoformat).
#[local] Abbreviation loop := (serve json_loads json_dumps isoformat).

Lemma comment_content_of_string (members : list (pystr * json)) (s : pystr) :
  dict_get members (py "content") = Some (JStr s) →
  comment_content_of members = Some (strip s).
Proof.
  intros Hc. unfold comment_content_of. rewrite Hc. simpl.
  case_bool_decide as He; [by subst s|done].
Qed.

(** A text that decodes to something other than an object has no [get]:
    the handler leaves the room, closes the socket and ends. *)
Lemma frame_without_members_ends_session (st : Chat Text) (env : Env)
    (websocket : N) (blog_id : Z) (user : User) (raw : Text) (data : json) :
  json_loads raw = Some data → (∀ members, data ≠ JObj members) →
  handle st env websocket blog_id user raw
  = (on_exception st websocket blog_id, Ended).
Proof.
  intros Hraw Hshape. unfold on_text. rewrite Hraw.
  destruct data; try reflexivity. by destruct (Hshape members).
Qed.

(** So does a comment frame whose content is truthy and not a string. *)
Lemma comment_without_text_ends_session (st : Chat Text) (env : Env)
    (websocket : N) (blog_id : Z) (user : User) (raw : Text)
    (members : list (pystr * json)) (v : json) :
  json_loads raw = Some (JObj members) →
  dict_get members (py "type") = Some (JStr (py "comment")) →
  dict_get members (py "content") = Some v → truthy v = true →
  (∀ s, v ≠ JStr s) →
  handle st env websocket blog_id user raw
  = (on_exception st websocket blog_id, Ended).
Proof.
  intros Hraw Ht Hc Hv Hshape. unfold on_text. rewrite Hraw. cbn zeta.
  rewrite Ht. unfold eq_str. rewrite bool_decide_eq_true_2 by reflexivity.
  unfold comment_content_of. rewrite Hc, Hv.
  destruct v; try reflexivity. by destruct (Hshape s).
Qed.


(** Frames of the documented shape, an object whose content is a string
    when it is there: if the type is not
    "comment" nothing changes; if it is and the content string is empty
    once stripped, nothing changes either; otherwise one comment with a
    fresh id, the stripped content, the connection's post, the connected
    user and the current time is added to the table, and after it the
    room is broadcast a message built from that comment, carrying its id
    and its timestamp. *)
Theorem comment_frame_is_persisted_then_broadcast (st : Chat Text) (env : Env)
    (websocket : N) (blog_id : Z) (user : User) (raw : Text)
    (members : list (pystr * json)) :
  json_loads raw = Some (JObj members) →
  (eq_str (dict_get members (py "type")) (py "comment") = false →
   handle st env websocket blog_id user raw = (st, Listening))
  ∧ (dict_get members (py "type") = Some (JStr (py "comment")) →
     (dict_get members (py "content") = None
      ∨ ∃ v, dict_get members (py "content") = Some v ∧ truthy v = false) →
     handle st env websocket blog_id user raw = (st, Listening))
  ∧ (∀ s,
       dict_get members (py "type") = Some (JStr (py "comment")) →
       dict_get members (py "content") = Some (JStr s) →
       (strip s = [] → handle st env websocket blog_id user raw = (st, Listening))
       ∧ (strip s ≠ [] →
          let comment :=
            mkComment (next_comment_id (chat_db st)) (strip s) blog_id
                      (user_id user) (now env) in
          let message := json_dumps (outgoing isoformat blog_id user comment) in
          ∃ st1,
            handle st env websocket blog_id user raw = (st1, Listening)
            ∧ comments (chat_db st1) = comments (chat_db st) ++ [comment]
            ∧ blogs (chat_db st1) = blogs (chat_db st)
            ∧ users (chat_db st1) = users (chat_db st)
            ∧ (comment_id comment ∉ comment_id <$> comments (chat_db st))
            ∧ trace st1
              = trace st ++ Added comment
                  :: (delivery (send_fails env) message
                      <$> elements (get_room (_connections st) blog_id))
            ∧ _connections st1
              = (broadcast (send_fails env) (_connections st) blog_id message).1
            ∧ (∃ fields, outgoing isoformat blog_id user comment = JObj fields
                 ∧ dict_get fields (py "comment_id") = Some (JInt (comment_id comment))
                 ∧ dict_get fields (py "created_at")
                   = Some (JStr (isoformat (comment_created_at comment) ++ py "Z"))
                 ∧ dict_get fields (py "content") = Some (JStr (strip s))
                 ∧ dict_get fields (py "blog_id") = Some (JInt blog_id)
                 ∧ dict_get fields (py "user_id") = Some (JInt (user_id user))))).
Proof.
  intros Hraw.
  assert (Hcomment : dict_get members (py "type") = Some (JStr (py "comment")) →
                     eq_str (dict_get members (py "type")) (py "comment") = true).
  { intros ->. unfold eq_str. apply bool_decide_eq_true. reflexivity. }
  split; [|split].
  - intros Ht. unfold on_text. rewrite Hraw. cbn zeta. by rewrite Ht.
  - intros Hty Hc. apply Hcomment in Hty.
    unfold on_text. rewrite Hraw. cbn zeta. rewrite Hty.
    unfold comment_content_of.
    destruct Hc as [->|(v & -> & ->)]; reflexivity.
  - intros s Hty Hc. apply Hcomment in Hty.
    pose proof (comment_content_of_string members s Hc) as Hcontent.
    split.
    + intros Hs. unfold on_text. rewrite Hraw. cbn zeta. rewrite Hty, Hcontent, Hs.
      reflexivity.
    + intros Hs comment message. unfold on_text. rewrite Hraw. cbn zeta.
      rewrite Hty, Hcontent.
      destruct (strip s) as [|c content] eqn:Hstrip; [done|].
      fold comment. fold message.
      pose proof (broadcast_out (send_fails env) (_connections st) blog_id message) as Hout.
      destruct (broadcast (send_fails env) (_connections st) blog_id message)
        as [connections out] eqn:Hb.
      simpl in Hout. subst out.
      eexists. split; [reflexivity|]. simpl.
      split; [done|]. split; [done|]. split; [done|].
      split.
      { intros Hin. apply max_key_upper in Hin. unfold next_comment_id in Hin.
        change (map comment_id (comments (chat_db st)))
          with (comment_id <$> comments (chat_db st)) in Hin. lia. }
      split; [done|]. split; [done|].
      eexists. split; [reflexivity|]. repeat split; vm_compute; reflexivity.
Qed.

End Frames.

Section Connecting.

Context {Text : Type} (token_subject : pystr → option Z).

(** C2, as the code has it: for an authenticated active actor the socket
    is accepted and added to the post's room exactly when the post is
    stored and carries no deletion timestamp, whatever its status and
    whoever the actor; when the post is missing or soft-deleted the socket
    is closed with code 1008 and the rooms are left as they were. *)
Theorem chat_connect_requires_stored_post (st : Chat Text) (websocket : N)
    (blog_id : Z) (token : pystr) (user : User) :
  token ≠ [] →
  _get_user_from_token token_subject token (chat_db st) = Some user →
  (∀ blog,
     blogs (chat_db st) !! blog_id = Some blog → deleted_at blog = None →
     handshake token_subject st websocket blog_id (Some token)
     = (Some user,
        mkChat (chat_db st)
               (<[blog_id := get_room (_connections st) blog_id ∪ {[websocket]}]>
                  (_connections st))
               (trace st ++ [Accepted websocket]))
     ∧ websocket
       ∈ get_room (_connections
                     (handshake token_subject st websocket blog_id (Some token)).2)
                  blog_id)
  ∧ (get_blog_by_id (chat_db st) blog_id = None →
     handshake token_subject st websocket blog_id (Some token)
     = (None,
        mkChat (chat_db st) (_connections st)
               (trace st ++ [Closed websocket WS_1008_POLICY_VIOLATION])))
  ∧ (websocket ∉ get_room (_connections st) blog_id →
     (websocket
      ∈ get_room (_connections
                    (handshake token_subject st websocket blog_id (Some token)).2)
                 blog_id
      ↔ ∃ blog, blogs (chat_db st) !! blog_id = Some blog ∧ deleted_at blog = None)).
Proof.
  intros Htoken Huser.
  assert (Hopen : ∀ blog,
            get_blog_by_id (chat_db st) blog_id = Some blog →
            handshake token_subject st websocket blog_id (Some token)
            = (Some user,
               mkChat (chat_db st)
                 (<[blog_id := get_room (_connections st) blog_id ∪ {[websocket]}]>
                    (_connections st))
                 (trace st ++ [Accepted websocket]))).
  { intros blog Hg. unfold handshake. destruct token as [|c token]; [done|].
    rewrite Huser, Hg. reflexivity. }
  assert (Hclosed : get_blog_by_id (chat_db st) blog_id = None →
            handshake token_subject st websocket blog_id (Some token)
            = (None,
               mkChat (chat_db st) (_connections st)
                 (trace st ++ [Closed websocket WS_1008_POLICY_VIOLATION]))).
  { intros Hg. unfold handshake. destruct token as [|c token]; [done|].
    rewrite Huser, Hg. reflexivity. }
  assert (Hjoined : websocket
            ∈ get_room (<[blog_id := get_room (_connections st) blog_id ∪ {[websocket]}]>
                          (_connections st)) blog_id).
  { unfold get_room at 1. rewrite lookup_insert_eq. simpl. set_solver. }
  split; [|split].
  - intros blog Hb Hd.
    assert (Hg : get_blog_by_id (chat_db st) blog_id = Some blog)
      by (apply get_blog_by_id_Some; done).
    rewrite (Hopen blog Hg). split; [done|]. exact Hjoined.
  - exact Hclosed.
  - intros Hout. destruct (get_blog_by_id (chat_db st) blog_id) as [blog|] eqn:Hg.
    + rewrite (Hopen blog eq_refl). apply get_blog_by_id_Some in Hg as [Hb Hd].
      split; [eauto|]. intros _. exact Hjoined.
    + rewrite (Hclosed eq_refl). simpl. split; [done|].
      intros (blog & Hb & Hd).
      assert (Hg' : get_blog_by_id (chat_db st) blog_id = Some blog)
        by (apply get_blog_by_id_Some; done).
      congruence.
Qed.

End Connecting.


Lemma comment_frame_is_persisted_then_broadcast_witness :
  sample_loads (Encoded (JObj hello)) = Some (JObj hello)
  ∧ strip (py "  hello ") = py "hello"
  ∧ ∃ st1,
      on_text sample_loads Encoded sample_isoformat chat_approved calm 7 1 alice
              (Encoded (JObj hello))
      = (st1, Listening)
      ∧ comments (chat_db st1) = [mkComment 1 (py "hello") 1 1 20].
Proof.
  split; [reflexivity|]. split; [reflexivity|].
  destruct (proj2 (proj2 (comment_frame_is_persisted_then_broadcast
              sample_loads Encoded sample_isoformat chat_approved calm 7 1 alice
              (Encoded (JObj hello)) hello eq_refl))
              (py "  hello ") eq_refl eq_refl) as [_ Hkeep].
  destruct (Hkeep ltac:(discriminate)) as (st1 & Hrun & Hcomments & _).
  exists st1. split; [exact Hrun|]. rewrite Hcomments. reflexivity.
Defined.

(** C5 fails on frames the handler did not foresee.  The text [[1, 2]] is
    valid JSON and its type is not "comment", and the object
    [{"type": "comment", "content": 5}] is a comment frame; the claim has
    the first ignored and the second handled as a comment.  In both cases
    the handler raises on [data.get] or [.strip], falls into
    [except Exception], takes socket 7 out of the room of post 1 and
    closes it: the session is over, nothing was stored and nothing was
    broadcast.  A text that is not JSON at all, by contrast, is skipped
    and the loop goes on. *)
Lemma unforeseen_frame_ends_the_session :
  let handle := on_text sample_loads Encoded sample_isoformat chat_approved calm 7 1 alice in
  let bare_list := Encoded (JArr [JInt 1; JInt 2]) in
  let numbered := Encoded (JObj [(py "type", JStr (py "comment"));
                                 (py "content", JInt 5)]) in
  7%N ∈ get_room (_connections chat_approved) 1
  ∧ sample_loads bare_list = Some (JArr [JInt 1; JInt 2])
  ∧ handle bare_list
    = (mkChat db_approved {[1 := {[8%N; 9%N]}]} [Closed 7%N 1000], Ended)
  ∧ handle numbered
    = (mkChat db_approved {[1 := {[8%N; 9%N]}]} [Closed 7%N 1000], Ended)
  ∧ handle bare_list ≠ (chat_approved, Listening)
  ∧ handle numbered ≠ (chat_approved, Listening)
  ∧ handle (Garbled "[1, 2") = (chat_approved, Listening).
Proof.
  intros handle bare_list numbered.
  assert (Hlist : handle bare_list
            = (mkChat db_approved {[1 := {[8%N; 9%N]}]} [Closed 7%N 1000], Ended))
    by (vm_compute; reflexivity).
  assert (Hnum : handle numbered
            = (mkChat db_approved {[1 := {[8%N; 9%N]}]} [Closed 7%N 1000], Ended))
    by (vm_compute; reflexivity).
  split; [vm_compute; reflexivity|]. split; [reflexivity|].
  split; [exact Hlist|]. split; [exact Hnum|].
  split; [rewrite Hlist; discriminate|].
  split; [rewrite Hnum; discriminate|]. reflexivity.
Qed.

Lemma chat_connect_requires_stored_post_witness :
  py "bob-token" ≠ []
  ∧ _get_user_from_token sample_subject (py "bob-token") (chat_db chat_approved)
    = Some bob
  ∧ 5%N ∈ get_room (_connections
                      (handshake sample_subject chat_approved 5 1
                                 (Some (py "bob-token"))).2) 1.
Proof.
  split; [discriminate|]. split; [reflexivity|].
  exact (proj2 (proj1 (chat_connect_requires_stored_post sample_subject
                  chat_approved 5 1 (py "bob-token") bob
                  ltac:(discriminate) eq_refl)
                  approved_post eq_refl eq_refl)).
Defined.

(** C2 as stated fails: Bob, a plain user who is not the author, may not
    view Alice's pending post, yet his socket is accepted into its room. *)
Lemma chat_accepts_actor_who_cannot_view :
  _can_view_blog pending_post (Some bob) = false
  ∧ (handshake sample_subject chat_pending 7 1 (Some (py "bob-token"))).1 = Some bob
  ∧ elements (get_room (_connections
                (handshake sample_subject chat_pending 7 1 (Some (py "bob-token"))).2) 1)
    = [7%N]
  ∧ trace (handshake sample_subject chat_pending 7 1 (Some (py "bob-token"))).2
    = [Accepted 7%N].
Proof. repeat split; vm_compute; reflexivity. Qed.

End Chat.

(** ** Editing and deleting posts *)

Module Editing.

Import Service Routes Rbac Lifecycle StatusMachine Sample.

Lemma _can_edit_blog_true (blog : Blog) (user : User) :
  _can_edit_blog blog user = true
  ↔ role user = ADMIN ∨ (author_id blog = user_id user ∧ status blog ≠ APPROVED).
Proof.
  unfold _can_edit_blog. case_decide; [naive_solver|].
  case_decide; naive_solver.
Qed.

Lemma _can_delete_blog_true (blog : Blog) (user : User) :
  _can_delete_blog blog user = true
  ↔ role user = ADMIN ∨ author_id blog = user_id user.
Proof.
  unfold _can_delete_blog. case_decide; [naive_solver|].
  case_decide; naive_solver.
Qed.

Lemma apply_update_fields (blog blog1 : Blog) (data : BlogUpdate) :
  apply_update blog data = Some blog1 →
  title blog1 = default (title blog) (mjoin (update_title data))
  ∧ content blog1 = default (content blog) (mjoin (update_content data))
  ∧ images blog1 = default (images blog) (update_images data)
  ∧ author_id blog1 = author_id blog ∧ created_at blog1 = created_at blog.
Proof.
  unfold apply_update.
  destruct (update_title data) as [[t|]|], (update_content data) as [[c|]|],
    (update_images data) as [im|]; simpl; intros [= <-]; done.
Qed.

Lemma apply_update_total (blog : Blog) (data : BlogUpdate) :
  update_title data ≠ Some None → update_content data ≠ Some None →
  ∃ blog1, apply_update blog data = Some blog1.
Proof.
  intros Ht Hc. unfold apply_update.
  destruct (update_title data) as [[t|]|], (update_content data) as [[c|]|];
    simpl; try done; eauto.
Qed.

(** X1: on a stored, undeleted post and a well-formed patch, [PUT] succeeds
    exactly for an admin or for the author of a post that is not
    approved; anyone else gets 403 and the database is not touched. *)
Theorem edit_allowed_iff_admin_or_author_of_unapproved (db : Db) (now i : Z)
    (b : Blog) (patch : BlogUpdate) (actor : User) :
  blogs db !! i = Some b → deleted_at b = None → valid_BlogUpdate patch →
  update_title patch ≠ Some None → update_content patch ≠ Some None →
  ((∃ updated db1, update_blog_endpoint db now i patch actor = (Return updated, db1))
   ↔ role actor = ADMIN ∨ (author_id b = user_id actor ∧ status b ≠ APPROVED))
  ∧ (¬ (role actor = ADMIN ∨ (author_id b = user_id actor ∧ status b ≠ APPROVED)) →
     ∃ e, update_blog_endpoint db now i patch actor = (Raise e, db)
          ∧ status_code e = HTTP_403_FORBIDDEN).
Proof.
  intros Hb Hd Hv Ht Hc.
  assert (Hg : get_blog_by_id db i = Some b) by (apply get_blog_by_id_Some; done).
  destruct (apply_update_total b patch Ht Hc) as [blog1 Hu].
  unfold update_blog_endpoint, update_blog. rewrite Hg. case_decide; [|done].
  destruct (_can_edit_blog b actor) eqn:He; simpl.
  - apply _can_edit_blog_true in He. rewrite Hu. split; [|done].
    split; [done|]. intros _. eauto.
  - assert (Hn : ¬ (role actor = ADMIN
                    ∨ (author_id b = user_id actor ∧ status b ≠ APPROVED))).
    { intros Ha. apply _can_edit_blog_true in Ha. congruence. }
    split.
    + split; [intros (updated & db1 & [=])|done].
    + intros _. eexists. split; reflexivity.
Qed.

Lemma edit_allowed_iff_admin_or_author_of_unapproved_witness :
  blogs db_approved !! 1 = Some approved_post ∧ deleted_at approved_post = None
  ∧ ∃ e, update_blog_endpoint db_approved 30 1
           (mkBlogUpdate (Some (Some (py "New title"))) None None) alice
         = (Raise e, db_approved)
         ∧ status_code e = HTTP_403_FORBIDDEN.
Proof.
  split; [reflexivity|]. split; [reflexivity|].
  refine (proj2 (edit_allowed_iff_admin_or_author_of_unapproved db_approved 30 1
            approved_post (mkBlogUpdate (Some (Some (py "New title"))) None None)
            alice eq_refl eq_refl _ _ _) _).
  - split; simpl; [lia|done].
  - discriminate.
  - discriminate.
  - intros [Hr|[_ Hs]]; [discriminate|]. by apply Hs.
Defined.

(** X2: a successful edit writes exactly one row, the edited post under
    its own id; the fields the patch supplies take the new values, the
    others keep theirs, [updated_at] is the time of the request, and id,
    status, author, creation time and deletion mark stay as they were. *)
Theorem edit_changes_only_supplied_fields (db db1 : Db) (now i : Z) (b updated : Blog)
    (patch : BlogUpdate) (actor : User) :
  db_wf db → blogs db !! i = Some b →
  update_blog_endpoint db now i patch actor = (Return updated, db1) →
  blogs db1 = <[i := updated]> (blogs db)
  ∧ users db1 = users db ∧ comments db1 = comments db
  ∧ title updated = default (title b) (mjoin (update_title patch))
  ∧ content updated = default (content b) (mjoin (update_content patch))
  ∧ images updated = default (images b) (update_images patch)
  ∧ updated_at updated = now
  ∧ blog_id updated = i ∧ status updated = status b
  ∧ author_id updated = author_id b ∧ created_at updated = created_at b
  ∧ deleted_at updated = None.
Proof.
  intros Hwf Hb. unfold update_blog_endpoint. case_decide; [|done].
  destruct (get_blog_by_id db i) as [blog|] eqn:Hg; [|done].
  apply get_blog_by_id_Some in Hg as [Hb' Hd].
  assert (blog = b) as -> by congruence.
  unfold update_blog. destruct (negb (_can_edit_blog b actor)); [done|].
  destruct (apply_update b patch) as [blog1|] eqn:Hu; [|done].
  intros [= <- <-].
  destruct (apply_update_keeps _ _ _ Hu) as (Hid & Hs & Hdel).
  destruct (apply_update_fields _ _ _ Hu) as (Ht & Hc & Hi & Ha & Hcr).
  pose proof (Hwf _ _ Hb) as Hkey.
  unfold flush_blog. simpl. rewrite Hid, Hkey.
  repeat split; try done; congruence.
Qed.

Lemma edit_changes_only_supplied_fields_witness :
  db_wf db_pending ∧ blogs db_pending !! 1 = Some pending_post
  ∧ ∃ updated db1,
      update_blog_endpoint db_pending 30 1
        (mkBlogUpdate (Some (Some (py "New title"))) None None) alice
      = (Return updated, db1)
      ∧ title updated = py "New title" ∧ content updated = py "Body"
      ∧ status updated = PENDING ∧ updated_at updated = 30.
Proof.
  assert (Hwf : db_wf db_pending) by apply (Moderation.db_wf_singleton people pending_post []).
  split; [exact Hwf|]. split; [reflexivity|].
  eexists _, _. split; [reflexivity|].
  pose proof (edit_changes_only_supplied_fields db_pending _ 30 1 pending_post _
                (mkBlogUpdate (Some (Some (py "New title"))) None None) alice
                Hwf eq_refl eq_refl) as (_ & _ & _ & Ht & Hc & _ & Hu & _ & Hs & _).
  repeat split; assumption.
Defined.

End Editing.

Module Deleting.

Import Service Routes Rbac Lifecycle StatusMachine Sample Editing ViewPolicy.

Lemma deleted_post_not_fetched (db : Db) (i : Z) (b : Blog) (t : Z) :
  blogs db !! i = Some b → deleted_at b = Some t → get_blog_by_id db i = None.
Proof. intros Hb Hd. apply get_blog_by_id_None. right. eauto. Qed.

(** X3: [DELETE] on a stored, undeleted post succeeds exactly for an admin
    or the author.  It then only stamps the row: [deleted_at] with the
    time of the request and [updated_at] with the reading its [onupdate]
    default takes at the flush.  The row stays in the table with its
    status, text, author and creation time, no other row changes, and
    from then on the post is 404 for every viewer and for a second
    [DELETE].  Anyone else gets 403 and nothing changes. *)
Theorem delete_is_a_mark_not_a_removal (db : Db) (now updated_now i : Z) (b : Blog)
    (actor : User) :
  db_wf db → blogs db !! i = Some b → deleted_at b = None →
  (role actor = ADMIN ∨ author_id b = user_id actor →
   ∃ db1 b',
     delete_blog_endpoint db now updated_now i actor = (Return (), db1)
     ∧ blogs db1 !! i = Some b' ∧ deleted_at b' = Some now
     ∧ updated_at b' = updated_now
     ∧ status b' = status b ∧ title b' = title b ∧ content b' = content b
     ∧ author_id b' = author_id b ∧ created_at b' = created_at b
     ∧ (∀ j, j ≠ i → blogs db1 !! j = blogs db !! j)
     ∧ (∀ viewer, get_blog_endpoint db1 i viewer = Raise not_found)
     ∧ (∀ later updated_later actor2,
          delete_blog_endpoint db1 later updated_later i actor2
          = (Raise not_found, db1)))
  ∧ (¬ (role actor = ADMIN ∨ author_id b = user_id actor) →
     ∃ e, delete_blog_endpoint db now updated_now i actor = (Raise e, db)
          ∧ status_code e = HTTP_403_FORBIDDEN).
Proof.
  intros Hwf Hb Hd.
  assert (Hg : get_blog_by_id db i = Some b) by (apply get_blog_by_id_Some; done).
  pose proof (Hwf _ _ Hb) as Hkey.
  unfold delete_blog_endpoint, soft_delete_blog. rewrite Hg.
  destruct (_can_delete_blog b actor) eqn:Hc; simpl.
  - split; [|intros Hn; exfalso; apply Hn; by apply _can_delete_blog_true].
    intros _. rewrite decide_False by (rewrite Hd; discriminate). simpl.
    set (b' := set_updated_at (set_deleted_at b (Some now)) updated_now).
    exists (flush_blog db b'), b'.
    assert (Hl : blogs (flush_blog db b') !! i = Some b').
    { rewrite lookup_flush_blog. simpl. case_decide; done. }
    assert (Hgone : get_blog_by_id (flush_blog db b') i = None).
    { eapply deleted_post_not_fetched; [exact Hl|reflexivity]. }
    split; [done|]. split; [done|]. repeat (split; [done|]).
    split; [|split].
    + intros j Hj. rewrite lookup_flush_blog. simpl. case_decide; congruence.
    + intros viewer. unfold get_blog_endpoint, get_blog_for_view. by rewrite Hgone.
    + intros later updated_later actor2. by rewrite Hgone.
  - split.
    + intros Ha. apply _can_delete_blog_true in Ha. congruence.
    + intros _. eexists. split; reflexivity.
Qed.

Lemma delete_is_a_mark_not_a_removal_witness :
  db_wf db_approved ∧ blogs db_approved !! 1 = Some approved_post
  ∧ deleted_at approved_post = None
  ∧ ∃ e, delete_blog_endpoint db_approved 40 41 1 bob = (Raise e, db_approved)
         ∧ status_code e = HTTP_403_FORBIDDEN.
Proof.
  assert (Hwf : db_wf db_approved)
    by apply (Moderation.db_wf_singleton people approved_post []).
  split; [exact Hwf|]. split; [reflexivity|]. split; [reflexivity|].
  refine (proj2 (delete_is_a_mark_not_a_removal db_approved 40 41 1 approved_post bob
                   Hwf eq_refl eq_refl) _).
  intros [Hr|Ha]; discriminate.
Defined.

(** X4: a post that carries a deletion timestamp is out of reach whatever
    its status: no request on it succeeds and none changes the database.
    Viewing and deleting it answer 404 "Blog not found" to everyone, also
    to an admin.  Editing answers 404 to every well-formed patch; a patch
    that breaks the field constraints is refused with 422 before the post
    is looked up.  Approving and rejecting answer 404 to every admin and
    approver; any other caller is refused with 403 by the role dependency
    before the post is looked up.  The public listing does not contain
    the post. *)
Theorem deleted_post_is_not_found (db : Db) (i t : Z) (b : Blog) :
  blogs db !! i = Some b → deleted_at b = Some t →
  (∀ viewer, get_blog_endpoint db i viewer = Raise not_found)
  ∧ (∀ now updated_now actor,
       delete_blog_endpoint db now updated_now i actor = (Raise not_found, db))
  ∧ (∀ now patch actor,
       (valid_BlogUpdate patch →
        update_blog_endpoint db now i patch actor = (Raise not_found, db))
       ∧ (¬ valid_BlogUpdate patch →
          update_blog_endpoint db now i patch actor = (Raise validation_error, db)))
  ∧ (∀ now actor,
       (role actor ∈ [ADMIN; L1_APPROVER] →
        approve_blog_endpoint db now i actor = (Raise not_found, db)
        ∧ reject_blog_endpoint db now i actor = (Raise not_found, db))
       ∧ (role actor ∉ [ADMIN; L1_APPROVER] →
          ∃ e, status_code e = HTTP_403_FORBIDDEN
               ∧ approve_blog_endpoint db now i actor = (Raise e, db)
               ∧ reject_blog_endpoint db now i actor = (Raise e, db)))
  ∧ (∀ now updated_now patch actor,
       ∃ e1 e2 e3 e4,
         update_blog_endpoint db now i patch actor = (Raise e1, db)
         ∧ delete_blog_endpoint db now updated_now i actor = (Raise e2, db)
         ∧ approve_blog_endpoint db now i actor = (Raise e3, db)
         ∧ reject_blog_endpoint db now i actor = (Raise e4, db))
  ∧ (∀ limit offset, b ∉ (list_approved_blogs db limit offset).1).
Proof.
  intros Hb Hd. pose proof (deleted_post_not_fetched db i b t Hb Hd) as Hg.
  assert (Hupd : ∀ now patch actor,
            (valid_BlogUpdate patch →
             update_blog_endpoint db now i patch actor = (Raise not_found, db))
            ∧ (¬ valid_BlogUpdate patch →
               update_blog_endpoint db now i patch actor
               = (Raise validation_error, db))).
  { intros now patch actor. unfold update_blog_endpoint. rewrite Hg.
    split; intros Hv; case_decide; done. }
  assert (Hdel : ∀ now updated_now actor,
            delete_blog_endpoint db now updated_now i actor = (Raise not_found, db)).
  { intros now updated_now actor. unfold delete_blog_endpoint. by rewrite Hg. }
  assert (Hmod : ∀ now actor,
            (role actor ∈ [ADMIN; L1_APPROVER] →
             approve_blog_endpoint db now i actor = (Raise not_found, db)
             ∧ reject_blog_endpoint db now i actor = (Raise not_found, db))
            ∧ (role actor ∉ [ADMIN; L1_APPROVER] →
               ∃ e, status_code e = HTTP_403_FORBIDDEN
                    ∧ approve_blog_endpoint db now i actor = (Raise e, db)
                    ∧ reject_blog_endpoint db now i actor = (Raise e, db))).
  { intros now actor. split.
    - intros Hr. unfold approve_blog_endpoint, reject_blog_endpoint.
      by rewrite (require_approver_ok _ Hr), Hg.
    - intros Hr. unfold approve_blog_endpoint, reject_blog_endpoint, require_approver.
      rewrite decide_True by done.
      exists (mkHTTPException HTTP_403_FORBIDDEN
                "Access denied. Admin or L1 Approver role required.").
      split; [|split]; reflexivity. }
  split; [|split; [exact Hdel|split; [exact Hupd|split; [exact Hmod|split]]]].
  - intros viewer. unfold get_blog_endpoint, get_blog_for_view. by rewrite Hg.
  - intros now updated_now patch actor.
    destruct (Hupd now patch actor) as [Hv Hn].
    destruct (Hmod now actor) as [Hok Hno].
    destruct (decide (valid_BlogUpdate patch)) as [Hvalid|Hinvalid];
      destruct (decide (role actor ∈ [ADMIN; L1_APPROVER])) as [Hr|Hr].
    + destruct (Hok Hr) as [Ha Hj]. rewrite (Hv Hvalid), Hdel, Ha, Hj. eauto 8.
    + destruct (Hno Hr) as (e & _ & Ha & Hj). rewrite (Hv Hvalid), Hdel, Ha, Hj. eauto 8.
    + destruct (Hok Hr) as [Ha Hj]. rewrite (Hn Hinvalid), Hdel, Ha, Hj. eauto 8.
    + destruct (Hno Hr) as (e & _ & Ha & Hj). rewrite (Hn Hinvalid), Hdel, Ha, Hj. eauto 8.
  - intros limit offset Hin. simpl in Hin.
    eapply elem_of_sublist in Hin;
      [|etrans; [apply sublist_take|apply sublist_drop]].
    rewrite merge_sort_Permutation in Hin.
    apply list_elem_of_filter in Hin as [[_ Hnone] _]. congruence.
Qed.

Lemma deleted_post_is_not_found_witness :
  let gone := set_deleted_at approved_post (Some 40) in
  let db := mkDb people {[1 := gone]} [] in
  blogs db !! 1 = Some gone ∧ deleted_at gone = Some 40
  ∧ get_blog_endpoint db 1 (Some root) = Raise not_found
  ∧ approve_blog_endpoint db 50 1 carol = (Raise not_found, db)
  ∧ (∃ e, status_code e = HTTP_403_FORBIDDEN
          ∧ approve_blog_endpoint db 50 1 bob = (Raise e, db)
          ∧ reject_blog_endpoint db 50 1 bob = (Raise e, db)).
Proof.
  intros gone db. split; [reflexivity|]. split; [reflexivity|].
  pose proof (deleted_post_is_not_found db 1 40 gone eq_refl eq_refl)
    as (Hview & _ & _ & Hmod & _).
  split; [exact (Hview (Some root))|]. split.
  - refine (proj1 (proj1 (Hmod 50 carol) _)). set_solver.
  - refine (proj2 (Hmod 50 bob) _). set_solver.
Defined.

End Deleting.

(** ** Submitting, approving and rejecting *)

Module Publishing.

Import Service Routes Rbac Lifecycle StatusMachine Sample ViewPolicy Listing.

#[local] Abbreviation public :=
  (λ kv : Z * Blog, approved_not_deleted kv.2).

Lemma total_is_count (db : Db) (limit offset : nat) :
  (list_approved_blogs db limit offset).2 = Z.of_nat (size (filter public (blogs db))).
Proof. simpl. by rewrite count_approved. Qed.

Lemma listed_iff (db : Db) (limit : nat) (b : Blog) :
  (size (filter public (blogs db)) ≤ limit)%nat →
  b ∈ (list_approved_blogs db limit 0).1
  ↔ (∃ i, blogs db !! i = Some b) ∧ status b = APPROVED ∧ deleted_at b = None.
Proof.
  intros Hl. simpl. rewrite drop_0, take_ge.
  - rewrite merge_sort_Permutation, list_elem_of_filter, elem_of_blog_rows.
    unfold approved_not_deleted. naive_solver.
  - rewrite merge_sort_Permutation, count_approved. done.
Qed.

Lemma not_listed (db : Db) (limit offset : nat) (b : Blog) :
  ¬ approved_not_deleted b → b ∉ (list_approved_blogs db limit offset).1.
Proof.
  intros Hn Hin. simpl in Hin.
  eapply elem_of_sublist in Hin; [|etrans; [apply sublist_take|apply sublist_drop]].
  rewrite merge_sort_Permutation in Hin.
  by apply list_elem_of_filter in Hin as [? _].
Qed.

(** What a viewer gets for a stored, undeleted post. *)
Lemma view_stored (db : Db) (i : Z) (b : Blog) (viewer : option User) :
  blogs db !! i = Some b → deleted_at b = None →
  get_blog_endpoint db i viewer
  = if _can_view_blog b viewer then Return b else Raise not_found.
Proof.
  intros Hb Hd. unfold get_blog_endpoint, get_blog_for_view.
  assert (Hg : get_blog_by_id db i = Some b) by (apply get_blog_by_id_Some; done).
  rewrite Hg. by destruct (_can_view_blog b viewer).
Qed.

Lemma view_unapproved (db : Db) (i : Z) (b : Blog) (viewer : User) :
  blogs db !! i = Some b → deleted_at b = None → status b ≠ APPROVED →
  get_blog_endpoint db i None = Raise not_found
  ∧ (get_blog_endpoint db i (Some viewer) = Return b
     ↔ user_id viewer = author_id b ∨ role viewer = ADMIN ∨ role viewer = L1_APPROVER).
Proof.
  intros Hb Hd Hs. rewrite !(view_stored db i b) by done.
  split.
  - destruct (_can_view_blog b None) eqn:Hv; [|done].
    apply _can_view_blog_spec in Hv as [?|(u & [=] & _)]. done.
  - destruct (_can_view_blog b (Some viewer)) eqn:Hv.
    + apply _can_view_blog_spec in Hv as [?|(u & [= <-] & Hu)]; [done|].
      split; done.
    + split; [done|]. intros Hu.
      assert (Hvis : Policy.visible_to b (Some viewer)) by (right; eauto).
      apply _can_view_blog_spec in Hvis. congruence.
Qed.

(** X5: a valid submission stores one new row under an id that was free:
    PENDING, authored by the actor, carrying the payload, undeleted, its
    two time stamps being the two readings their column defaults take.  The
    public listing and its total are as before; the post is 404 for an
    anonymous viewer and returned exactly to its author, admins and
    approvers; and every subscriber registered at that moment gets the
    "new pending blog" message for it appended to their queue. *)
Theorem submission_is_pending_and_private {Text : Type} (json_dumps : json → Text)
    (db : Db) (clients : gmap string (list Text)) (now updated_now : Z)
    (payload : BlogCreate) (actor : User) :
  valid_BlogCreate payload →
  ∃ blog db1 clients1,
    create_blog_endpoint json_dumps db clients now updated_now payload actor
    = (Return blog, db1, clients1)
    ∧ blogs db !! blog_id blog = None
    ∧ blogs db1 = <[blog_id blog := blog]> (blogs db)
    ∧ users db1 = users db ∧ comments db1 = comments db
    ∧ status blog = PENDING ∧ author_id blog = user_id actor
    ∧ title blog = create_title payload ∧ content blog = create_content payload
    ∧ images blog = create_images payload
    ∧ created_at blog = now ∧ updated_at blog = updated_now
    ∧ deleted_at blog = None
    ∧ (∀ limit offset,
         (list_approved_blogs db1 limit offset).2 = (list_approved_blogs db limit offset).2
         ∧ (blog ∉ (list_approved_blogs db1 limit offset).1))
    ∧ get_blog_endpoint db1 (blog_id blog) None = Raise not_found
    ∧ (∀ viewer,
         get_blog_endpoint db1 (blog_id blog) (Some viewer) = Return blog
         ↔ user_id viewer = user_id actor ∨ role viewer = ADMIN
           ∨ role viewer = L1_APPROVER)
    ∧ dom clients1 = dom clients
    ∧ (∀ client_id queue,
         clients !! client_id = Some queue →
         clients1 !! client_id
         = Some (queue ++ [json_dumps (Notifications.new_pending_blog_payload blog)])).
Proof.
  intros Hv. unfold create_blog_endpoint, create_blog. case_decide; [|done].
  eexists _, _, _. split; [reflexivity|].
  pose proof (next_blog_id_fresh db) as Hfresh.
  split; [exact Hfresh|]. split; [reflexivity|]. repeat (split; [reflexivity|]).
  match goal with
  | |- context [flush_blog db ?blog] =>
      assert (Hl : blogs (flush_blog db blog) !! blog_id blog = Some blog)
        by (rewrite lookup_flush_blog; case_decide; done);
      assert (Hview : ∀ viewer,
                get_blog_endpoint (flush_blog db blog) (blog_id blog) None
                = Raise not_found
                ∧ (get_blog_endpoint (flush_blog db blog) (blog_id blog) (Some viewer)
                   = Return blog
                   ↔ user_id viewer = author_id blog ∨ role viewer = ADMIN
                     ∨ role viewer = L1_APPROVER))
        by (intros viewer; apply (view_unapproved _ _ _ viewer Hl); done)
  end.
  split; [|split; [|split; [|split]]].
  - intros limit offset. split.
    + rewrite !total_is_count. f_equal. f_equal. unfold flush_blog. simpl.
      apply map_filter_insert_not'.
      * intros [Hs _]. discriminate.
      * intros y Hy. simpl in Hy. congruence.
    + apply not_listed. intros [Hs _]. discriminate.
  - apply (Hview actor).
  - intros viewer. apply (Hview viewer).
  - apply set_eq. intros client_id.
    rewrite !elem_of_dom, EventStream.publish_lookup. by rewrite fmap_is_Some.
  - intros client_id queue Hq. by rewrite EventStream.publish_lookup, Hq.
Qed.

Lemma submission_is_pending_and_private_witness :
  valid_BlogCreate draft
  ∧ ∃ blog db1 clients1,
      create_blog_endpoint (Text:=json) id db_empty {[ "c1"%string := [] ]} 10 11
                           draft alice
      = (Return blog, db1, clients1)
      ∧ status blog = PENDING
      ∧ get_blog_endpoint db1 (blog_id blog) None = Raise not_found.
Proof.
  assert (Hv : valid_BlogCreate draft) by (split; simpl; lia).
  split; [exact Hv|].
  destruct (submission_is_pending_and_private (Text:=json) id db_empty
              {[ "c1"%string := [] ]} 10 11 draft alice Hv)
    as (blog & db1 & clients1 & Hrun & _ & _ & _ & _ & Hs & _ & _ & _ & _ & _ & _ & _
        & _ & Hanon & _).
  exists blog, db1, clients1. repeat split; assumption.
Defined.

(** X6: when an admin or approver approves a stored, undeleted post that is
    not approved yet, the post (same text and author, [updated_at] set to
    the time of the request) is returned to every viewer, signed in or
    not, the listing's total grows by one, and a window that is large
    enough shows the post. *)
Theorem approval_makes_post_public (db : Db) (now i : Z) (b : Blog) (actor : User) :
  db_wf db → blogs db !! i = Some b → deleted_at b = None → status b ≠ APPROVED →
  role actor ∈ [ADMIN; L1_APPROVER] →
  ∃ approved db1,
    approve_blog_endpoint db now i actor = (Return approved, db1)
    ∧ status approved = APPROVED ∧ updated_at approved = now
    ∧ title approved = title b ∧ content approved = content b
    ∧ author_id approved = author_id b ∧ created_at approved = created_at b
    ∧ (∀ viewer, get_blog_endpoint db1 i viewer = Return approved)
    ∧ (∀ limit offset,
         (list_approved_blogs db1 limit offset).2
         = (list_approved_blogs db limit offset).2 + 1)
    ∧ (∀ limit, (list_approved_blogs db1 0 0).2 ≤ Z.of_nat limit →
                approved ∈ (list_approved_blogs db1 limit 0).1).
Proof.
  intros Hwf Hb Hd Hs Hr.
  assert (Hg : get_blog_by_id db i = Some b) by (apply get_blog_by_id_Some; done).
  pose proof (Hwf _ _ Hb) as Hkey.
  unfold approve_blog_endpoint, approve_blog.
  rewrite (require_approver_ok _ Hr), Hg. case_decide; [done|].
  eexists _, _. split; [reflexivity|]. repeat (split; [reflexivity|]).
  assert (Hl : blogs (flush_blog db (set_updated_at (set_status b APPROVED) now)) !! i
               = Some (set_updated_at (set_status b APPROVED) now)).
  { rewrite lookup_flush_blog. simpl. case_decide; done. }
  split; [|split].
  - intros viewer. rewrite (view_stored _ _ _ viewer Hl) by done.
    reflexivity.
  - intros limit offset. rewrite !total_is_count. unfold flush_blog. simpl. rewrite Hkey.
    rewrite map_filter_insert_True by done.
    rewrite map_size_insert_None; [lia|].
    apply map_lookup_filter_None. right. intros b' Hb' [Hs' _].
    simpl in *. congruence.
  - intros limit Hlimit. rewrite total_is_count in Hlimit.
    apply listed_iff; [lia|]. split; [eauto|done].
Qed.

Lemma approval_makes_post_public_witness :
  db_wf db_pending ∧ blogs db_pending !! 1 = Some pending_post
  ∧ deleted_at pending_post = None ∧ status pending_post ≠ APPROVED
  ∧ role carol ∈ [ADMIN; L1_APPROVER]
  ∧ ∃ approved db1,
      approve_blog_endpoint db_pending 11 1 carol = (Return approved, db1)
      ∧ get_blog_endpoint db1 1 None = Return approved.
Proof.
  assert (Hwf : db_wf db_pending)
    by apply (Moderation.db_wf_singleton people pending_post []).
  assert (Hr : role carol ∈ [ADMIN; L1_APPROVER]).
  { apply elem_of_cons; right. apply elem_of_cons; left. reflexivity. }
  split; [exact Hwf|]. split; [reflexivity|]. split; [reflexivity|].
  split; [discriminate|]. split; [exact Hr|].
  destruct (approval_makes_post_public db_pending 11 1 pending_post carol
              Hwf eq_refl eq_refl ltac:(discriminate) Hr)
    as (approved & db1 & Hrun & _ & _ & _ & _ & _ & _ & Hview & _).
  exists approved, db1. split; [exact Hrun|apply Hview].
Defined.

(** X7: when an admin or approver rejects a stored, undeleted post that is
    not rejected yet, the post becomes 404 for anonymous viewers and stays
    readable exactly for its author, admins and approvers; the listing no
    longer shows it, and the total drops by one if the post was approved
    and is unchanged otherwise. *)
Theorem rejection_hides_post (db : Db) (now i : Z) (b : Blog) (actor : User) :
  db_wf db → blogs db !! i = Some b → deleted_at b = None → status b ≠ REJECTED →
  role actor ∈ [ADMIN; L1_APPROVER] →
  ∃ rejected db1,
    reject_blog_endpoint db now i actor = (Return rejected, db1)
    ∧ status rejected = REJECTED ∧ updated_at rejected = now
    ∧ title rejected = title b ∧ content rejected = content b
    ∧ author_id rejected = author_id b
    ∧ get_blog_endpoint db1 i None = Raise not_found
    ∧ (∀ viewer,
         get_blog_endpoint db1 i (Some viewer) = Return rejected
         ↔ user_id viewer = author_id b ∨ role viewer = ADMIN
           ∨ role viewer = L1_APPROVER)
    ∧ (∀ limit offset,
         (rejected ∉ (list_approved_blogs db1 limit offset).1)
         ∧ (list_approved_blogs db1 limit offset).2
           = (list_approved_blogs db limit offset).2
             - (if decide (status b = APPROVED) then 1 else 0)).
Proof.
  intros Hwf Hb Hd Hs Hr.
  assert (Hg : get_blog_by_id db i = Some b) by (apply get_blog_by_id_Some; done).
  pose proof (Hwf _ _ Hb) as Hkey.
  unfold reject_blog_endpoint, reject_blog.
  rewrite (require_approver_ok _ Hr), Hg. case_decide; [done|].
  eexists _, _. split; [reflexivity|]. repeat (split; [reflexivity|]).
  assert (Hl : blogs (flush_blog db (set_updated_at (set_status b REJECTED) now)) !! i
               = Some (set_updated_at (set_status b REJECTED) now)).
  { rewrite lookup_flush_blog. simpl. case_decide; done. }
  split; [|split].
  - apply (view_unapproved _ _ _ actor Hl); [done|discriminate].
  - intros viewer. apply (view_unapproved _ _ _ viewer Hl); [done|discriminate].
  - intros limit offset. split.
    + apply not_listed. intros [Hs' _]. discriminate.
    + rewrite !total_is_count. unfold flush_blog. simpl. rewrite Hkey.
      rewrite map_filter_insert_False by (intros [Hs' _]; discriminate).
      rewrite map_filter_delete.
      case_decide as Ha.
      * assert (Hin : filter public (blogs db) !! i = Some b).
        { apply map_lookup_filter_Some. split; [done|]. split; done. }
        rewrite (map_size_delete_Some i (filter public (blogs db))) by eauto.
        assert (size (filter public (blogs db)) ≠ 0%nat).
        { apply map_size_non_empty_iff. intros He. rewrite He in Hin.
          by rewrite lookup_empty in Hin. }
        lia.
      * rewrite delete_id; [lia|].
        apply map_lookup_filter_None. right. intros b' Hb' [Hs' _].
        simpl in *. congruence.
Qed.

Lemma rejection_hides_post_witness :
  db_wf db_approved ∧ blogs db_approved !! 1 = Some approved_post
  ∧ deleted_at approved_post = None ∧ status approved_post ≠ REJECTED
  ∧ role root ∈ [ADMIN; L1_APPROVER]
  ∧ ∃ rejected db1,
      reject_blog_endpoint db_approved 12 1 root = (Return rejected, db1)
      ∧ get_blog_endpoint db1 1 None = Raise not_found.
Proof.
  assert (Hwf : db_wf db_approved)
    by apply (Moderation.db_wf_singleton people approved_post []).
  assert (Hr : role root ∈ [ADMIN; L1_APPROVER]) by (apply elem_of_cons; left; reflexivity).
  split; [exact Hwf|]. split; [reflexivity|]. split; [reflexivity|].
  split; [discriminate|]. split; [exact Hr|].
  destruct (rejection_hides_post db_approved 12 1 approved_post root
              Hwf eq_refl eq_refl ltac:(discriminate) Hr)
    as (rejected & db1 & Hrun & _ & _ & _ & _ & _ & Hanon & _).
  exists rejected, db1. split; [exact Hrun|exact Hanon].
Defined.

End Publishing.

(** ** What requests never do *)

Module Safety.

Import Service Routes Rbac Lifecycle StatusMachine Sample Editing Invariants.

Lemma require_approver_Return (actor approver : User) :
  require_approver actor = Return approver →
  approver = actor ∧ role actor ∈ [ADMIN; L1_APPROVER].
Proof.
  unfold require_approver. case_decide as Hr; [done|]. intros [= <-].
  split; [done|]. by destruct (decide (role actor ∈ [ADMIN; L1_APPROVER])).
Qed.

Section Rows.

Context {Text : Type} (json_dumps : json → Text).

Lemma step_row (st : Db * gmap string (list Text)) (now : Z) (o : op)
    (i : Z) (b : Blog) :
  db_wf st.1 → blogs st.1 !! i = Some b →
  ∃ b', blogs (step json_dumps st now o).1 !! i = Some b'
        ∧ (b' = b ∨ (deleted_at b = None ∧ row_change now i b o b')).
Proof.
  destruct st as [db clients]. cbn [fst]. intros Hwf Hb.
  assert (Hsame : ∃ b', blogs db !! i = Some b'
            ∧ (b' = b ∨ (deleted_at b = None ∧ row_change now i b o b'))) by eauto.
  destruct o as [actor payload stamp|j actor patch|j actor stamp|j actor|j actor];
    unfold step; cbn [fst snd].
  - unfold create_blog_endpoint, create_blog. case_decide; cbn [fst snd]; [|done].
    rewrite lookup_flush_blog. cbn [blog_id]. case_decide as Hk; [|done].
    pose proof (next_blog_id_fresh db) as Hf. rewrite Hk in Hf. congruence.
  - unfold update_blog_endpoint. case_decide; [|done].
    destruct (get_blog_by_id db j) as [blog|] eqn:Hg; [|done].
    apply get_blog_by_id_Some in Hg as [Hj Hd]. pose proof (Hwf _ _ Hj) as Hid.
    unfold update_blog. destruct (_can_edit_blog blog actor) eqn:He; [|done].
    cbn [negb].
    destruct (apply_update blog patch) as [blog1|] eqn:Hu; cbn [fst snd]; [|done].
    pose proof (apply_update_keeps _ _ _ Hu) as (Hid1 & _ & _).
    rewrite lookup_flush_blog. cbn [blog_id set_updated_at].
    case_decide as Hk; [|done].
    assert (i = j) as -> by congruence.
    assert (blog = b) as -> by congruence.
    eexists. split; [done|]. right. split; [done|]. by constructor.
  - unfold delete_blog_endpoint.
    destruct (get_blog_by_id db j) as [blog|] eqn:Hg; [|done].
    apply get_blog_by_id_Some in Hg as [Hj Hd]. pose proof (Hwf _ _ Hj) as Hid.
    unfold soft_delete_blog.
    destruct (_can_delete_blog blog actor) eqn:Hc; cbn [fst snd negb]; [|done].
    case_decide as Hsame'; cbn [fst snd negb]; [done|].
    rewrite lookup_flush_blog. cbn [blog_id set_deleted_at set_updated_at].
    case_decide as Hk; [|done].
    assert (i = j) as -> by congruence.
    assert (blog = b) as -> by congruence.
    eexists. split; [done|]. right. split; [done|]. by constructor.
  - unfold approve_blog_endpoint.
    destruct (require_approver actor) as [approver|] eqn:Hr; [|done].
    apply require_approver_Return in Hr as [-> Hr].
    destruct (get_blog_by_id db j) as [blog|] eqn:Hg; [|done].
    apply get_blog_by_id_Some in Hg as [Hj Hd]. pose proof (Hwf _ _ Hj) as Hid.
    case_decide as Hs; [done|]. unfold approve_blog. cbn [fst snd].
    rewrite lookup_flush_blog. cbn [blog_id set_updated_at set_status].
    case_decide as Hk; [|done].
    assert (i = j) as -> by congruence.
    assert (blog = b) as -> by congruence.
    eexists. split; [done|]. right. split; [done|]. by constructor.
  - unfold reject_blog_endpoint.
    destruct (require_approver actor) as [approver|] eqn:Hr; [|done].
    apply require_approver_Return in Hr as [-> Hr].
    destruct (get_blog_by_id db j) as [blog|] eqn:Hg; [|done].
    apply get_blog_by_id_Some in Hg as [Hj Hd]. pose proof (Hwf _ _ Hj) as Hid.
    case_decide as Hs; [done|]. unfold reject_blog. cbn [fst snd].
    rewrite lookup_flush_blog. cbn [blog_id set_updated_at set_status].
    case_decide as Hk; [|done].
    assert (i = j) as -> by congruence.
    assert (blog = b) as -> by congruence.
    eexists. split; [done|]. right. split; [done|]. by constructor.
Qed.

Lemma row_change_keeps (now i : Z) (b b' : Blog) (o : op) :
  row_change now i b o b' →
  blog_id b' = blog_id b ∧ author_id b' = author_id b ∧ created_at b' = created_at b.
Proof.
  destruct 1 as [actor patch b0 _ Hu| | |]; try done.
  destruct (apply_update_keeps _ _ _ Hu) as (? & _ & _).
  destruct (apply_update_fields _ _ _ Hu) as (_ & _ & _ & ? & ?). done.
Qed.

End Rows.

(** X8: whatever requests are served, a stored post stays stored, under the
    same id, with the same author and creation time; and a post that
    carries a deletion timestamp is frozen: no request changes any of its
    fields again, so it is never undeleted. *)
Theorem author_and_deletion_are_permanent {Text : Type} (json_dumps : json → Text)
    (requests : list (Z * op)) (st : Db * gmap string (list Text)) (i : Z) (b : Blog) :
  db_wf st.1 → blogs st.1 !! i = Some b →
  ∃ b', blogs (run json_dumps st requests).1 !! i = Some b'
        ∧ blog_id b' = blog_id b ∧ author_id b' = author_id b
        ∧ created_at b' = created_at b
        ∧ (deleted_at b ≠ None → b' = b).
Proof.
  revert st b. induction requests as [|[now o] requests IH]; intros st b Hwf Hb.
  - exists b. done.
  - simpl.
    destruct (step_row json_dumps st now o i b Hwf Hb) as (b1 & Hb1 & Hch).
    destruct (IH _ b1 (step_wf json_dumps st now o Hwf) Hb1)
      as (b' & Hb' & Hid & Ha & Hc & Hdel).
    exists b'. split; [done|].
    destruct Hch as [->|[Hnd Hch]]; [done|].
    destruct (row_change_keeps _ _ _ _ _ Hch) as (Hid1 & Ha1 & Hc1).
    repeat split; try congruence.
Qed.

Lemma author_and_deletion_are_permanent_witness :
  db_wf db_approved ∧ blogs db_approved !! 1 = Some approved_post
  ∧ ∃ b', blogs (run (Text:=json) id (db_approved, ∅)
                     [(12, Delete 1 alice 12); (13, Approve 1 root)]).1 !! 1 = Some b'
          ∧ author_id b' = author_id approved_post.
Proof.
  assert (Hwf : db_wf db_approved)
    by apply (Moderation.db_wf_singleton people approved_post []).
  split; [exact Hwf|]. split; [reflexivity|].
  destruct (author_and_deletion_are_permanent (Text:=json) id
              [(12, Delete 1 alice 12); (13, Approve 1 root)] (db_approved, ∅)
              1 approved_post Hwf eq_refl) as (b' & Hb' & _ & Ha & _).
  exists b'. split; [exact Hb'|exact Ha].
Defined.

(** X9: requests made by plain users who are not a post's author leave
    that post exactly as it is: whatever they submit, edit, delete,
    approve or reject, the stored row does not change. *)
Theorem strangers_cannot_change_a_post {Text : Type} (json_dumps : json → Text)
    (requests : list (Z * op)) (st : Db * gmap string (list Text)) (i : Z) (b : Blog) :
  db_wf st.1 → blogs st.1 !! i = Some b →
  Forall (λ r, role (op_actor r.2) = USER ∧ user_id (op_actor r.2) ≠ author_id b)
         requests →
  blogs (run json_dumps st requests).1 !! i = Some b.
Proof.
  revert st. induction requests as [|[now o] requests IH]; intros st Hwf Hb Hall.
  - done.
  - simpl. apply Forall_cons in Hall as [[Hrole Hauthor] Hall]. simpl in *.
    apply IH; [by apply step_wf| |done].
    destruct (step_row json_dumps st now o i b Hwf Hb) as (b1 & Hb1 & Hch).
    destruct Hch as [->|[_ Hch]]; [done|]. exfalso.
    destruct Hch as [actor patch b0 He _|actor stamp Hc|actor Hr|actor Hr]; simpl in *.
    + apply _can_edit_blog_true in He as [He|[He _]]; congruence.
    + apply _can_delete_blog_true in Hc as [Hc|Hc]; congruence.
    + rewrite Hrole in Hr. set_solver.
    + rewrite Hrole in Hr. set_solver.
Qed.

Lemma strangers_cannot_change_a_post_witness :
  db_wf db_pending ∧ blogs db_pending !! 1 = Some pending_post
  ∧ blogs (run (Text:=json) id (db_pending, ∅)
             [(20, Edit 1 bob (mkBlogUpdate (Some (Some (py "Mine"))) None None));
              (21, Delete 1 bob 21); (22, Approve 1 bob)]).1 !! 1
    = Some pending_post.
Proof.
  assert (Hwf : db_wf db_pending)
    by apply (Moderation.db_wf_singleton people pending_post []).
  split; [exact Hwf|]. split; [reflexivity|].
  apply (strangers_cannot_change_a_post (Text:=json) id _ (db_pending, ∅) 1
           pending_post Hwf eq_refl).
  repeat (apply Forall_cons; split; [split; [reflexivity|discriminate]|]).
  apply Forall_nil_2.
Defined.

End Safety.

(** ** The room registry *)

Module RoomRegistry.

Import ChatManager Rooms Invariants.

Section Registry.

Context {Text : Type}.

Lemma get_room_connect (connections : gmap Z (gset N)) (blog_id : Z) (ws : N) :
  get_room (connect (Text:=Text) connections blog_id ws).1 blog_id
  = get_room connections blog_id ∪ {[ws]}.
Proof. unfold connect, get_room. simpl. by rewrite lookup_insert_eq. Qed.

Lemma no_empty_rooms_connect (connections : gmap Z (gset N)) (blog_id : Z) (ws : N) :
  no_empty_rooms connections →
  no_empty_rooms (connect (Text:=Text) connections blog_id ws).1.
Proof.
  intros Hinv j room. unfold connect. simpl. rewrite lookup_insert.
  case_decide; [|by apply Hinv]. intros [= <-]. set_solver.
Qed.

Lemma no_empty_rooms_disconnect (connections : gmap Z (gset N)) (blog_id : Z) (ws : N) :
  no_empty_rooms connections → no_empty_rooms (disconnect connections blog_id ws).
Proof.
  intros Hinv j room. unfold disconnect.
  destruct (connections !! blog_id) as [r|] eqn:Hr; [|by apply Hinv].
  case_decide as He.
  - rewrite lookup_delete. case_decide; [done|by apply Hinv].
  - rewrite lookup_insert. case_decide; [|by apply Hinv]. by intros [= <-].
Qed.

Lemma no_empty_rooms_loop (send_fails : N → bool) (blog_id : Z) (message : Text)
    (sockets : list N) (acc : gmap Z (gset N) * list (effect Text)) :
  no_empty_rooms acc.1 →
  no_empty_rooms (foldl (send_or_cleanup send_fails blog_id message) acc sockets).1.
Proof.
  revert acc. induction sockets as [|ws sockets IH]; intros acc Hinv; [done|].
  simpl. apply IH. unfold send_or_cleanup.
  destruct (send_fails ws); simpl; [by apply no_empty_rooms_disconnect|done].
Qed.

Lemma no_empty_rooms_broadcast (send_fails : N → bool) (connections : gmap Z (gset N))
    (blog_id : Z) (message : Text) :
  no_empty_rooms connections →
  no_empty_rooms (broadcast send_fails connections blog_id message).1.
Proof. intros Hinv. unfold broadcast. by apply no_empty_rooms_loop. Qed.

(** Under the invariant a room is listed exactly when it has a socket. *)
Lemma room_listed_iff (connections : gmap Z (gset N)) (blog_id : Z) :
  no_empty_rooms connections →
  connections !! blog_id = None ↔ get_room connections blog_id = ∅.
Proof.
  intros Hinv. unfold get_room.
  destruct (connections !! blog_id) as [room|] eqn:Hr; simpl; [|done].
  split; [done|]. intros He. by destruct (Hinv _ _ Hr).
Qed.

Lemma disconnect_absent (connections : gmap Z (gset N)) (blog_id : Z) (ws : N) :
  no_empty_rooms connections → ws ∉ get_room connections blog_id →
  disconnect connections blog_id ws = connections.
Proof.
  intros Hinv Hws. unfold disconnect, get_room in *.
  destruct (connections !! blog_id) as [room|] eqn:Hr; [|done]. simpl in Hws.
  assert (Hsame : room ∖ {[ws]} = room) by set_solver.
  rewrite Hsame. case_decide as He; [by destruct (Hinv _ _ Hr)|].
  by apply insert_id.
Qed.

End Registry.

(** X10: no room of the registry is ever empty: the empty registry has no
    room, and [connect], [disconnect] and [broadcast] keep it so (a room
    that loses its last socket is dropped from the registry); hence a post
    has an entry in the registry exactly when some socket is in its
    room. *)
Theorem rooms_are_never_empty {Text : Type} (connections : gmap Z (gset N))
    (blog_id : Z) (ws : N) (send_fails : N → bool) (message : Text) :
  no_empty_rooms connections →
  no_empty_rooms (∅ : gmap Z (gset N))
  ∧ no_empty_rooms (connect (Text:=Text) connections blog_id ws).1
  ∧ no_empty_rooms (disconnect connections blog_id ws)
  ∧ no_empty_rooms (broadcast send_fails connections blog_id message).1
  ∧ (∀ j, disconnect connections blog_id ws !! j = None
          ↔ get_room (disconnect connections blog_id ws) j = ∅)
  ∧ (∀ j, (broadcast send_fails connections blog_id message).1 !! j = None
          ↔ get_room (broadcast send_fails connections blog_id message).1 j = ∅).
Proof.
  intros Hinv.
  split; [intros j room Hl; by rewrite lookup_empty in Hl|].
  split; [by apply no_empty_rooms_connect|].
  split; [by apply no_empty_rooms_disconnect|].
  split; [by apply no_empty_rooms_broadcast|].
  split; intros j; apply room_listed_iff;
    [by apply no_empty_rooms_disconnect|by apply no_empty_rooms_broadcast].
Qed.

Lemma rooms_are_never_empty_witness :
  no_empty_rooms ({[1 := {[7%N]}]} : gmap Z (gset N))
  ∧ disconnect ({[1 := {[7%N]}]} : gmap Z (gset N)) 1 7 !! 1 = None.
Proof.
  assert (Hinv : no_empty_rooms ({[1 := {[7%N]}]} : gmap Z (gset N))).
  { intros j room Hl. apply lookup_singleton_Some in Hl as [_ <-]. set_solver. }
  split; [exact Hinv|].
  apply (proj1 (proj2 (proj2 (proj2 (proj2
           (rooms_are_never_empty (Text:=unit) _ 1 7 (λ _, false) tt Hinv))))) 1).
  rewrite get_room_disconnect. unfold get_room. rewrite lookup_singleton_eq. simpl.
  set_solver.
Defined.

(** X11: [disconnect] removes just the given socket from just the given
    room, is idempotent, and does nothing for a socket that is not in the
    room; connecting a socket that was not in the room and disconnecting
    it again gives back the registry as it was, pruning a room that was
    created for it. *)
Theorem connect_then_disconnect_restores {Text : Type} (connections : gmap Z (gset N))
    (blog_id : Z) (ws : N) :
  no_empty_rooms connections → ws ∉ get_room connections blog_id →
  disconnect (connect (Text:=Text) connections blog_id ws).1 blog_id ws = connections
  ∧ disconnect connections blog_id ws = connections
  ∧ (∀ c : gmap Z (gset N),
       disconnect (disconnect c blog_id ws) blog_id ws = disconnect c blog_id ws
       ∧ get_room (disconnect c blog_id ws) blog_id = get_room c blog_id ∖ {[ws]}
       ∧ get_room (connect (Text:=Text) c blog_id ws).1 blog_id
         = get_room c blog_id ∪ {[ws]}
       ∧ ∀ j, j ≠ blog_id →
              disconnect c blog_id ws !! j = c !! j
              ∧ (connect (Text:=Text) c blog_id ws).1 !! j = c !! j).
Proof.
  intros Hinv Hws. split; [|split].
  - unfold connect, disconnect. simpl. rewrite lookup_insert_eq.
    assert (Hback : (get_room connections blog_id ∪ {[ws]}) ∖ {[ws]}
                    = get_room connections blog_id) by set_solver.
    rewrite Hback. case_decide as He.
    + rewrite delete_insert_eq. apply delete_id.
      by apply (room_listed_iff connections blog_id Hinv).
    + rewrite insert_insert_eq. apply insert_id.
      unfold get_room in *. destruct (connections !! blog_id); [done|]. by destruct He.
  - by apply disconnect_absent.
  - intros c. split; [|split; [apply get_room_disconnect|split; [apply get_room_connect|]]].
    + unfold disconnect at 1.
      destruct (disconnect c blog_id ws !! blog_id) as [room|] eqn:Hr; [|done].
      assert (Hroom : get_room (disconnect c blog_id ws) blog_id = room)
        by (unfold get_room; by rewrite Hr).
      rewrite get_room_disconnect in Hroom.
      assert (Hsame : room ∖ {[ws]} = room) by set_solver.
      rewrite Hsame. case_decide as He; [|by apply insert_id].
      exfalso. subst room. unfold disconnect in Hr.
      destruct (c !! blog_id) as [r|] eqn:Hc; [|congruence].
      case_decide as He'.
      * by rewrite lookup_delete_eq in Hr.
      * rewrite lookup_insert_eq in Hr. congruence.
    + intros j Hj. split; [by apply disconnect_other|].
      unfold connect. simpl. by rewrite lookup_insert_ne.
Qed.

Lemma connect_then_disconnect_restores_witness :
  let rooms : gmap Z (gset N) := {[1 := {[7%N]}]} in
  no_empty_rooms rooms ∧ (8%N ∉ get_room rooms 2)
  ∧ disconnect (connect (Text:=unit) rooms 2 8).1 2 8 = rooms.
Proof.
  intros rooms.
  assert (Hinv : no_empty_rooms rooms).
  { intros j room Hl. apply lookup_singleton_Some in Hl as [_ <-]. set_solver. }
  assert (Hws : 8%N ∉ get_room rooms 2).
  { unfold get_room, rooms. rewrite lookup_singleton_ne by done. set_solver. }
  split; [exact Hinv|]. split; [exact Hws|].
  exact (proj1 (connect_then_disconnect_restores (Text:=unit) rooms 2 8 Hinv Hws)).
Defined.

End RoomRegistry.

(** ** Broadcast at its edges *)

Module BroadcastEdges.

Import ChatManager Rooms Invariants RoomRegistry.

Lemma loop_all_delivered {Text : Type} (send_fails : N → bool) (blog_id : Z)
    (message : Text) (sockets : list N) (acc : gmap Z (gset N) * list (effect Text)) :
  Forall (λ ws, send_fails ws = false) sockets →
  (foldl (send_or_cleanup send_fails blog_id message) acc sockets).1 = acc.1.
Proof.
  revert acc. induction sockets as [|ws sockets IH]; intros acc Hall; [done|].
  apply Forall_cons in Hall as [Hws Hall]. simpl. rewrite IH by done.
  unfold send_or_cleanup. by rewrite Hws.
Qed.

(** X12: a broadcast to a post without a room sends nothing and leaves the
    registry as it is; when every send succeeds the registry is unchanged;
    when every send of a room raises, the room is removed from the
    registry and the other rooms stay. *)
Theorem broadcast_edge_cases {Text : Type} (send_fails : N → bool)
    (connections : gmap Z (gset N)) (blog_id : Z) (message : Text) :
  no_empty_rooms connections →
  (connections !! blog_id = None →
   broadcast send_fails connections blog_id message = (connections, []))
  ∧ ((∀ ws, ws ∈ get_room connections blog_id → send_fails ws = false) →
     (broadcast send_fails connections blog_id message).1 = connections)
  ∧ ((∀ ws, ws ∈ get_room connections blog_id → send_fails ws = true) →
     (broadcast send_fails connections blog_id message).1 = delete blog_id connections).
Proof.
  intros Hinv. split; [|split].
  - intros Hnone. unfold broadcast, get_room. rewrite Hnone. simpl.
    by rewrite elements_empty.
  - intros Hok. unfold broadcast. rewrite loop_all_delivered; [done|].
    apply Forall_forall. intros ws Hws. apply Hok. by apply elem_of_elements.
  - intros Hfail.
    pose proof (broadcast_room send_fails connections blog_id message) as Hroom.
    assert (Hempty : get_room (broadcast send_fails connections blog_id message).1 blog_id
                     = ∅).
    { rewrite Hroom. apply set_eq. intros ws. rewrite elem_of_filter.
      split; [|set_solver]. intros [Hf Hws]. rewrite (Hfail ws Hws) in Hf. done. }
    apply (room_listed_iff _ _ (no_empty_rooms_broadcast send_fails connections
                                  blog_id message Hinv)) in Hempty.
    apply map_eq. intros j. destruct (decide (j = blog_id)) as [->|Hj].
    + by rewrite Hempty, lookup_delete_eq.
    + rewrite lookup_delete_ne by done. unfold broadcast.
      by apply (broadcast_loop send_fails blog_id message).
Qed.

Lemma broadcast_edge_cases_witness :
  let rooms : gmap Z (gset N) := {[1 := {[7%N]}; 2 := {[8%N]}]} in
  no_empty_rooms rooms
  ∧ (broadcast (Text:=unit) (λ _, true) rooms 1 tt).1 = delete 1 rooms.
Proof.
  intros rooms.
  assert (Hinv : no_empty_rooms rooms).
  { intros j room Hl. unfold rooms in Hl.
    apply lookup_insert_Some in Hl as [[_ <-]|[_ Hl]]; [set_solver|].
    apply lookup_singleton_Some in Hl as [_ <-]. set_solver. }
  split; [exact Hinv|].
  exact (proj2 (proj2 (broadcast_edge_cases (Text:=unit) (λ _, true) rooms 1 tt Hinv))
           (λ _ _, eq_refl)).
Defined.

End BroadcastEdges.

(** ** Chat sessions from connection to end *)

Module ChatSessions.

Import Service ChatManager WebSocket Rooms Invariants RoomRegistry Sample.

Section Loop.

Context {Text : Type}
        (json_loads : Text → option json)
        (json_dumps : json → Text)
        (isoformat : Z → pystr).

#[local] Abbreviation handle := (on_text json_loads json_dumps isoformat).
#[local] Abbreviation loop := (serve json_loads json_dumps isoformat).

(** The three things the loop body can do with a text. *)
Lemma on_text_cases (st st1 : Chat Text) (env : Env) (websocket : N) (blog_id : Z)
    (user : User) (raw : Text) (s : session) :
  handle st env websocket blog_id user raw = (st1, s) →
  (st1 = st ∧ s = Listening)
  ∨ (st1 = on_exception st websocket blog_id ∧ s = Ended)
  ∨ ∃ content,
      content ≠ [] ∧ s = Listening
      ∧ let comment := mkComment (next_comment_id (chat_db st)) content blog_id
                                 (user_id user) (now env) in
        let sent := broadcast (send_fails env) (_connections st) blog_id
                              (json_dumps (outgoing isoformat blog_id user comment)) in
        st1 = mkChat (set_comments (chat_db st) (comments (chat_db st) ++ [comment]))
                     sent.1 (trace st ++ Added comment :: sent.2).
Proof.
  unfold on_text. destruct (json_loads raw) as [data|]; [|intros [= <- <-]; auto].
  destruct data as [| | | | |items|members]; try (intros [= <- <-]; auto).
  cbn zeta.
  destruct (eq_str (dict_get members (py "type")) (py "comment"));
    [|intros [= <- <-]; auto].
  destruct (comment_content_of members) as [[|c content]|];
    try (intros [= <- <-]; auto).
  destruct (broadcast _ _ _ _) as [connections out] eqn:Hb.
  intros [= <- <-]. right. right. exists (c :: content).
  split; [done|]. split; [done|]. cbn zeta. by rewrite Hb.
Qed.

Lemma next_comment_id_fresh (db : Db) :
  next_comment_id db ∉ comment_id <$> comments db.
Proof.
  intros Hin. apply max_key_upper in Hin. unfold next_comment_id in Hin.
  change (map comment_id (comments db)) with (comment_id <$> comments db) in Hin.
  lia.
Qed.

(** What a run of the loop leaves behind, in one invariant. *)
Lemma serve_effects (inbox : list (Env * received Text)) (st : Chat Text)
    (websocket : N) (blog_id : Z) (user : User) :
  let st' := (loop st websocket blog_id user inbox).1 in
  blogs (chat_db st') = blogs (chat_db st)
  ∧ users (chat_db st') = users (chat_db st)
  ∧ (∃ added,
       comments (chat_db st') = comments (chat_db st) ++ added
       ∧ (length added ≤ length inbox)%nat
       ∧ Forall (λ c, comment_blog_id c = blog_id ∧ comment_user_id c = user_id user
                      ∧ comment_content c ≠ []
                      ∧ ∃ env, env ∈ inbox.*1 ∧ comment_created_at c = now env) added)
  ∧ (NoDup (comment_id <$> comments (chat_db st)) →
     NoDup (comment_id <$> comments (chat_db st')))
  ∧ (∀ j, j ≠ blog_id → _connections st' !! j = _connections st !! j)
  ∧ get_room (_connections st') blog_id ⊆ get_room (_connections st) blog_id
  ∧ (∃ new,
       trace st' = trace st ++ new
       ∧ Forall (λ e, match e with
                      | SentText ws _ | SendFailed ws _ =>
                          ws ∈ get_room (_connections st) blog_id
                      | Closed ws _ => ws = websocket
                      | Added c => comment_blog_id c = blog_id
                      | Accepted _ => False
                      end) new)
  ∧ ((loop st websocket blog_id user inbox).2 = Ended →
     websocket ∉ get_room (_connections st') blog_id)
  ∧ ((∃ env, (env, Disconnected) ∈ inbox ∨ (env, ReceiveError) ∈ inbox) →
     (loop st websocket blog_id user inbox).2 = Ended).
Proof.
  revert st. induction inbox as [|[env r] inbox IH]; intros st; cbn zeta.
  { simpl. repeat split; try done.
    - exists []. by rewrite app_nil_r.
    - exists []. by rewrite app_nil_r.
    - intros (env & [Hin|Hin]); inversion Hin. }
  assert (Hleave : websocket
            ∉ get_room (disconnect (_connections st) blog_id websocket) blog_id).
  { rewrite get_room_disconnect. set_solver. }
  assert (Hshrink : get_room (disconnect (_connections st) blog_id websocket) blog_id
                    ⊆ get_room (_connections st) blog_id).
  { rewrite get_room_disconnect. set_solver. }
  destruct r as [raw| |]; cbn [serve].
  - destruct (handle st env websocket blog_id user raw) as [st1 s] eqn:Hh.
    apply on_text_cases in Hh as [[-> ->]|[[-> ->]|(content & Hne & -> & Hst1)]].
    + specialize (IH st). cbn zeta in IH.
      destruct IH as (Hb & Hu & (added & Hc & Hlen & Hall) & Hnd & Ho & Hr
                      & (new & Ht & Hnew) & Hend & Hmust).
      split; [done|]. split; [done|]. split.
      { exists added. split; [done|]. split; [simpl; lia|].
        eapply Forall_impl; [exact Hall|]. intros c (? & ? & ? & env' & Hin & ?).
        repeat split; try done. exists env'. split; [|done]. simpl. by right. }
      split; [done|]. split; [done|]. split; [done|]. split; [eauto|].
      split; [done|]. intros (env' & Hin). apply Hmust. exists env'.
      rewrite !elem_of_cons in Hin. destruct Hin as [[[=]|?]|[[=]|?]]; auto.
    + simpl. split; [done|]. split; [done|]. split.
      { exists []. rewrite app_nil_r. split; [done|]. split; [simpl; lia|constructor]. }
      split; [done|]. split; [intros j Hj; by apply disconnect_other|].
      split; [done|]. split; [|done].
      exists [Closed websocket 1000]. split; [done|]. by repeat constructor.
    + cbn zeta in Hst1. subst st1.
      set (comment := mkComment (next_comment_id (chat_db st)) content blog_id
                                (user_id user) (now env)) in *.
      set (message := json_dumps (outgoing isoformat blog_id user comment)) in *.
      set (st1 := mkChat (set_comments (chat_db st) (comments (chat_db st) ++ [comment]))
                         (broadcast (send_fails env) (_connections st) blog_id message).1
                         (trace st ++ Added comment
                            :: (broadcast (send_fails env) (_connections st)
                                          blog_id message).2)).
      specialize (IH st1). cbn zeta in IH.
      destruct IH as (Hb & Hu & (added & Hc & Hlen & Hall) & Hnd & Ho & Hr
                      & (new & Ht & Hnew) & Hend & Hmust).
      pose proof (broadcast_room (send_fails env) (_connections st) blog_id message)
        as Hroom1.
      assert (Hsub1 : get_room (_connections st1) blog_id
                      ⊆ get_room (_connections st) blog_id).
      { unfold st1. simpl. rewrite Hroom1. intros ws Hws.
        by apply elem_of_filter in Hws as [_ ?]. }
      split; [by rewrite Hb|]. split; [by rewrite Hu|]. split.
      { exists (comment :: added). split.
        - rewrite Hc. unfold st1. simpl. by rewrite <- app_assoc.
        - split; [simpl; lia|]. constructor.
          + repeat split; try done. exists env. split; [|done]. simpl. by left.
          + eapply Forall_impl; [exact Hall|]. intros c (? & ? & ? & env' & Hin & ?).
            repeat split; try done. exists env'. split; [|done]. simpl. by right. }
      split.
      { intros Hnodup. apply Hnd. unfold st1. simpl.
        rewrite fmap_app. apply NoDup_app. split; [done|]. split.
        - intros x Hx Hx'. simpl in Hx'. apply list_elem_of_singleton in Hx'.
          subst x. by apply (next_comment_id_fresh (chat_db st)).
        - simpl. apply NoDup_singleton. }
      split.
      { intros j Hj. rewrite Ho by done. unfold st1, broadcast. simpl.
        by apply (broadcast_loop (send_fails env) blog_id message). }
      split; [set_solver|]. split.
      { exists (Added comment
                  :: (broadcast (send_fails env) (_connections st) blog_id message).2
                  ++ new).
        split.
        - rewrite Ht. unfold st1. simpl. by rewrite <- app_assoc.
        - constructor; [done|]. apply Forall_app. split.
          + rewrite broadcast_out. apply Forall_fmap, Forall_forall.
            intros ws Hws. apply elem_of_elements in Hws. simpl.
            unfold delivery. by destruct (send_fails env ws).
          + eapply Forall_impl; [exact Hnew|]. intros [ | | | |]; try done.
            * intros Hin. by apply Hsub1.
            * intros Hin. by apply Hsub1. }
      split; [done|]. intros (env' & Hin). apply Hmust. exists env'.
      rewrite !elem_of_cons in Hin. destruct Hin as [[[=]|?]|[[=]|?]]; auto.
  - simpl. split; [done|]. split; [done|]. split.
    { exists []. rewrite app_nil_r. split; [done|]. split; [simpl; lia|constructor]. }
    split; [done|]. split; [intros j Hj; by apply disconnect_other|].
    split; [done|]. split; [|done].
    exists []. by rewrite app_nil_r.
  - simpl. split; [done|]. split; [done|]. split.
    { exists []. rewrite app_nil_r. split; [done|]. split; [simpl; lia|constructor]. }
    split; [done|]. split; [intros j Hj; by apply disconnect_other|].
    split; [done|]. split; [|done].
    exists [Closed websocket 1000]. split; [done|]. by repeat constructor.
Qed.

End Loop.

(** X13: a session that has ended has left its room: whenever the loop
    stops (the peer disconnected, reading failed, or a frame made the
    handler raise) the socket is no longer in the room of its post, and
    the loop does stop as soon as the inbox holds a disconnect or a read
    error. *)
Theorem ended_session_leaves_room {Text : Type}
    (json_loads : Text → option json) (json_dumps : json → Text)
    (isoformat : Z → pystr) (st : Chat Text) (websocket : N) (blog_id : Z)
    (user : User) (inbox : list (Env * received Text)) :
  ((serve json_loads json_dumps isoformat st websocket blog_id user inbox).2 = Ended →
   websocket
   ∉ get_room (_connections
                 (serve json_loads json_dumps isoformat st websocket blog_id user
                        inbox).1) blog_id)
  ∧ ((∃ env, (env, Disconnected) ∈ inbox ∨ (env, ReceiveError) ∈ inbox) →
     (serve json_loads json_dumps isoformat st websocket blog_id user inbox).2 = Ended
     ∧ websocket
       ∉ get_room (_connections
                     (serve json_loads json_dumps isoformat st websocket blog_id user
                            inbox).1) blog_id).
Proof.
  pose proof (serve_effects json_loads json_dumps isoformat inbox st websocket
                blog_id user) as H.
  cbn zeta in H. destruct H as (_ & _ & _ & _ & _ & _ & _ & Hend & Hmust).
  split; [done|]. intros Hin. split; [by apply Hmust|]. by apply Hend, Hmust.
Qed.

Lemma ended_session_leaves_room_witness :
  (serve sample_loads Encoded sample_isoformat chat_approved 7 1 alice
         [(calm, ReceiveText (Encoded (JObj hello))); (calm, Disconnected)]).2 = Ended
  ∧ 7%N ∉ get_room (_connections
             (serve sample_loads Encoded sample_isoformat chat_approved 7 1 alice
                    [(calm, ReceiveText (Encoded (JObj hello))); (calm, Disconnected)]).1)
             1.
Proof.
  apply (proj2 (ended_session_leaves_room sample_loads Encoded sample_isoformat
                  chat_approved 7 1 alice
                  [(calm, ReceiveText (Encoded (JObj hello))); (calm, Disconnected)])).
  exists calm. left. apply elem_of_cons. right. apply elem_of_cons. by left.
Defined.

(** X14: whatever frames arrive, the chat loop never touches the posts or
    the users and never changes or removes a stored comment: it only
    appends comments, at most one per frame, each for the post of the
    connection, by the connected user, with non-empty content and the time
    of its frame; and comment ids that were distinct stay distinct. *)
Theorem chat_only_appends_comments {Text : Type}
    (json_loads : Text → option json) (json_dumps : json → Text)
    (isoformat : Z → pystr) (st : Chat Text) (websocket : N) (blog_id : Z)
    (user : User) (inbox : list (Env * received Text)) :
  let st' := (serve json_loads json_dumps isoformat st websocket blog_id user inbox).1 in
  blogs (chat_db st') = blogs (chat_db st)
  ∧ users (chat_db st') = users (chat_db st)
  ∧ (∃ added,
       comments (chat_db st') = comments (chat_db st) ++ added
       ∧ (length added ≤ length inbox)%nat
       ∧ Forall (λ c, comment_blog_id c = blog_id ∧ comment_user_id c = user_id user
                      ∧ comment_content c ≠ []
                      ∧ ∃ env, env ∈ inbox.*1 ∧ comment_created_at c = now env) added)
  ∧ (NoDup (comment_id <$> comments (chat_db st)) →
     NoDup (comment_id <$> comments (chat_db st'))).
Proof.
  pose proof (serve_effects json_loads json_dumps isoformat inbox st websocket
                blog_id user) as H.
  cbn zeta in *. destruct H as (Hb & Hu & Hc & Hnd & _). done.
Qed.

Lemma chat_only_appends_comments_witness :
  NoDup (comment_id <$> comments (chat_db chat_approved))
  ∧ NoDup (comment_id
           <$> comments (chat_db
                 (serve sample_loads Encoded sample_isoformat chat_approved 7 1 alice
                    [(calm, ReceiveText (Encoded (JObj hello)));
                     (calm, ReceiveText (Encoded (JObj hello)))]).1)).
Proof.
  assert (Hnd : NoDup (comment_id <$> comments (chat_db chat_approved)))
    by apply NoDup_nil_2.
  split; [exact Hnd|].
  exact (proj2 (proj2 (proj2
    (chat_only_appends_comments sample_loads Encoded sample_isoformat chat_approved
       7 1 alice [(calm, ReceiveText (Encoded (JObj hello)));
                  (calm, ReceiveText (Encoded (JObj hello)))]))) Hnd).
Defined.

(** X15: a chat session stays in its room: the rooms of other posts are
    left as they are, the session's room never gains a socket, every
    message is sent (or attempted) only to sockets that were in the room
    of the connection's post, the only socket the handler closes is its
    own, and every comment it records is for that post. *)
Theorem chat_session_stays_in_its_room {Text : Type}
    (json_loads : Text → option json) (json_dumps : json → Text)
    (isoformat : Z → pystr) (st : Chat Text) (websocket : N) (blog_id : Z)
    (user : User) (inbox : list (Env * received Text)) :
  let st' := (serve json_loads json_dumps isoformat st websocket blog_id user inbox).1 in
  (∀ j, j ≠ blog_id → _connections st' !! j = _connections st !! j)
  ∧ get_room (_connections st') blog_id ⊆ get_room (_connections st) blog_id
  ∧ ∃ new,
      trace st' = trace st ++ new
      ∧ Forall (λ e, match e with
                     | SentText ws _ | SendFailed ws _ =>
                         ws ∈ get_room (_connections st) blog_id
                     | Closed ws _ => ws = websocket
                     | Added c => comment_blog_id c = blog_id
                     | Accepted _ => False
                     end) new.
Proof.
  pose proof (serve_effects json_loads json_dumps isoformat inbox st websocket
                blog_id user) as H.
  cbn zeta in *. destruct H as (_ & _ & _ & _ & Ho & Hr & Ht & _). done.
Qed.

End ChatSessions.

(** ** Who gets in *)

Module Authentication.

Import Service Routes Rbac Roles Auth ChatManager WebSocket Sample.

Section Tokens.

Context (token_subject : pystr → option Z).

(** A token is good for a database when it verifies to the id of a stored,
    active user. *)
Lemma _get_user_from_token_Some (db : Db) (token : pystr) (user : User) :
  _get_user_from_token token_subject token db = Some user
  ↔ ∃ uid, token_subject token = Some uid ∧ users db !! uid = Some user
           ∧ is_active user = true.
Proof.
  unfold _get_user_from_token.
  destruct (token_subject token) as [uid|];
    [|split; [done|intros (? & [=] & _)]].
  destruct (users db !! uid) as [u|] eqn:Hu;
    [|split; [done|intros (? & [= <-] & Hx & _); congruence]].
  destruct (is_active u) eqn:Ha; simpl.
  - split.
    + intros [= <-]. exists uid. done.
    + intros (uid' & [= <-] & Hx & _). congruence.
  - split; [done|]. intros (uid' & [= <-] & Hx & ?). congruence.
Qed.

End Tokens.

(** X16: the three ways the application resolves a bearer token agree: the
    required dependency returns a user, the optional dependency returns
    that user, and the chat's token check returns that user, in exactly
    the same case, namely when the token verifies to the id of a stored
    active user.  Otherwise the optional dependency and the chat check
    give no user, and the required dependency raises 401 for missing
    credentials, an unverifiable token or an unknown user, and 403 for an
    inactive user. *)
Theorem token_resolution_agrees (token_subject : pystr → option Z) (db : Db)
    (token : pystr) (user : User) :
  (get_current_active_user token_subject db (Some token) = Return user
   ↔ ∃ uid, token_subject token = Some uid ∧ users db !! uid = Some user
            ∧ is_active user = true)
  ∧ (get_optional_user token_subject db (Some token) = Some user
     ↔ get_current_active_user token_subject db (Some token) = Return user)
  ∧ (_get_user_from_token token_subject token db = Some user
     ↔ get_current_active_user token_subject db (Some token) = Return user)
  ∧ get_optional_user token_subject db None = None
  ∧ get_current_active_user token_subject db None = Raise credentials_exception
  ∧ (token_subject token = None
     ∨ (∃ uid, token_subject token = Some uid ∧ users db !! uid = None) →
     get_current_active_user token_subject db (Some token) = Raise credentials_exception
     ∧ get_optional_user token_subject db (Some token) = None)
  ∧ (∀ uid u, token_subject token = Some uid → users db !! uid = Some u →
              is_active u = false →
              get_current_active_user token_subject db (Some token)
              = Raise (mkHTTPException HTTP_403_FORBIDDEN "Inactive user")
              ∧ get_optional_user token_subject db (Some token) = None
              ∧ _get_user_from_token token_subject token db = None).
Proof.
  assert (Hreq : get_current_active_user token_subject db (Some token) = Return user
                 ↔ ∃ uid, token_subject token = Some uid ∧ users db !! uid = Some user
                          ∧ is_active user = true).
  { unfold get_current_active_user, get_current_user.
    destruct (token_subject token) as [uid|];
      [|split; [done|intros (? & [=] & _)]].
    destruct (users db !! uid) as [u|] eqn:Hu;
      [|split; [done|intros (? & [= <-] & Hx & _); congruence]].
    destruct (is_active u) eqn:Ha; simpl.
    - split.
      + intros [= <-]. exists uid. done.
      + intros (uid' & [= <-] & Hx & _). congruence.
    - split; [done|]. intros (uid' & [= <-] & Hx & ?). congruence. }
  split; [exact Hreq|]. split; [|split; [|split; [done|split; [done|split]]]].
  - rewrite Hreq. unfold get_optional_user.
    destruct (token_subject token) as [uid|];
      [|split; [done|intros (? & [=] & _)]].
    destruct (users db !! uid) as [u|] eqn:Hu;
      [|split; [done|intros (? & [= <-] & Hx & _); congruence]].
    destruct (is_active u) eqn:Ha; simpl.
    + split.
      * intros [= <-]. exists uid. done.
      * intros (uid' & [= <-] & Hx & _). congruence.
    + split; [done|]. intros (uid' & [= <-] & Hx & ?). congruence.
  - rewrite Hreq. apply _get_user_from_token_Some.
  - unfold get_current_active_user, get_current_user, get_optional_user.
    intros [->|(uid & -> & ->)]; done.
  - intros uid u Hs Hu Ha.
    unfold get_current_active_user, get_current_user, get_optional_user,
      _get_user_from_token.
    by rewrite Hs, Hu, Ha.
Qed.

Lemma token_resolution_agrees_witness :
  get_current_active_user sample_subject db_pending (Some (py "bob-token")) = Return bob
  ∧ get_optional_user sample_subject db_pending (Some (py "bob-token")) = Some bob.
Proof.
  pose proof (token_resolution_agrees sample_subject db_pending (py "bob-token") bob)
    as (Hreq & Hopt & _).
  assert (H : get_current_active_user sample_subject db_pending (Some (py "bob-token"))
              = Return bob).
  { apply Hreq. exists 2. repeat split; reflexivity. }
  split; [exact H|]. by apply Hopt.
Defined.

(** X17: a chat connection without a usable token is turned away before
    anything else happens: when the token is missing or empty, does not
    verify, or names an unknown or inactive user, the endpoint closes the
    socket with code 1008 and ends; it never accepts the socket, the rooms
    and the database are as before, and whatever the peer sends is not
    read.  Conversely a socket is only ever accepted for a non-empty token
    of a stored active user and a stored, undeleted post. *)
Theorem chat_refuses_unauthenticated {Text : Type}
    (json_loads : Text → option json) (json_dumps : json → Text)
    (isoformat : Z → pystr) (token_subject : pystr → option Z)
    (st : Chat Text) (websocket : N) (blog_id : Z) (token : option pystr)
    (inbox : list (Env * received Text)) :
  (token = None ∨ token = Some []
   ∨ (∃ t, token = Some t ∧ _get_user_from_token token_subject t (chat_db st) = None) →
   blog_comments_websocket json_loads json_dumps isoformat token_subject
                           st websocket blog_id token inbox
   = (mkChat (chat_db st) (_connections st)
             (trace st ++ [Closed websocket WS_1008_POLICY_VIOLATION]), Ended))
  ∧ (∀ user st1,
       handshake token_subject st websocket blog_id token = (Some user, st1) →
       ∃ t uid blog,
         token = Some t ∧ t ≠ [] ∧ token_subject t = Some uid
         ∧ users (chat_db st) !! uid = Some user ∧ is_active user = true
         ∧ blogs (chat_db st) !! blog_id = Some blog ∧ deleted_at blog = None).
Proof.
  split.
  - intros Hbad. unfold blog_comments_websocket, handshake.
    destruct Hbad as [->|[->|(t & -> & Hnone)]]; [done|done|].
    destruct t as [|c t]; [done|]. by rewrite Hnone.
  - intros user st1. unfold handshake.
    destruct token as [[|c t]|]; try done.
    destruct (_get_user_from_token token_subject (c :: t) (chat_db st))
      as [u|] eqn:Hu; [|done].
    destruct (get_blog_by_id (chat_db st) blog_id) as [blog|] eqn:Hg; [|done].
    intros [= <- <-].
    apply _get_user_from_token_Some in Hu as (uid & Hs & Hl & Ha).
    apply get_blog_by_id_Some in Hg as [Hb Hd].
    exists (c :: t), uid, blog. done.
Qed.

Lemma chat_refuses_unauthenticated_witness :
  _get_user_from_token sample_subject (py "mallory-token") (chat_db chat_approved) = None
  ∧ blog_comments_websocket sample_loads Encoded sample_isoformat sample_subject
      chat_approved 5 1 (Some (py "mallory-token"))
      [(calm, ReceiveText (Encoded (JObj hello)))]
    = (mkChat (chat_db chat_approved) (_connections chat_approved)
              [Closed 5%N WS_1008_POLICY_VIOLATION], Ended).
Proof.
  split; [reflexivity|].
  apply (proj1 (chat_refuses_unauthenticated sample_loads Encoded sample_isoformat
                  sample_subject chat_approved 5 1 (Some (py "mallory-token"))
                  [(calm, ReceiveText (Encoded (JObj hello)))])).
  right. right. exists (py "mallory-token"). split; reflexivity.
Defined.

(** X18: the role checks agree with one another: [require_admin] lets
    through exactly the users [is_admin] accepts and [require_approver]
    exactly those [is_approver] accepts, returning the user unchanged and
    raising 403 otherwise; they coincide in outcome with [require_role] on
    the corresponding role lists; every admin is an approver; a plain
    user passes neither; and [require_role] with no allowed role rejects
    everyone. *)
Theorem role_checks_agree (u : User) :
  (require_admin u = Return u ↔ is_admin u = true)
  ∧ (require_approver u = Return u ↔ is_approver u = true)
  ∧ (is_admin u = false →
     ∃ e, require_admin u = Raise e ∧ status_code e = HTTP_403_FORBIDDEN)
  ∧ (is_approver u = false →
     ∃ e, require_approver u = Raise e ∧ status_code e = HTTP_403_FORBIDDEN)
  ∧ (require_role [ADMIN] u = Return u ↔ require_admin u = Return u)
  ∧ (require_role [ADMIN; L1_APPROVER] u = Return u ↔ require_approver u = Return u)
  ∧ (∀ roles, require_role roles u = Return u ↔ has_any_role u roles = true)
  ∧ (∀ roles, has_any_role u roles = false →
              ∃ e, require_role roles u = Raise e
                   ∧ status_code e = HTTP_403_FORBIDDEN)
  ∧ (∀ r, has_role u r = has_any_role u [r])
  ∧ (is_admin u = true → is_approver u = true)
  ∧ (role u = USER → is_admin u = false ∧ is_approver u = false)
  ∧ (∃ e, require_role [] u = Raise e).
Proof.
  unfold require_admin, require_approver, require_role, is_admin, is_approver,
    has_any_role, has_role.
  destruct u as [uid name r active]. simpl.
  split; [|split; [|split; [|split; [|split; [|split; [|split; [|split;
    [|split; [|split; [|split]]]]]]]]]].
  - case_decide; case_bool_decide; naive_solver.
  - case_decide; case_bool_decide; naive_solver.
  - case_decide; case_bool_decide; try done. intros _. eauto.
  - case_decide; case_bool_decide; try done. intros _. eauto.
  - repeat case_decide; try naive_solver; exfalso; set_solver.
  - repeat case_decide; naive_solver.
  - intros roles. case_decide; case_bool_decide; naive_solver.
  - intros roles. case_decide; case_bool_decide; try done. intros _. eauto.
  - intros r'. repeat case_bool_decide; try done; exfalso; set_solver.
  - repeat case_bool_decide; try done. intros _. exfalso. set_solver.
  - intros ->. split; case_bool_decide; try done. exfalso. set_solver.
  - eauto.
Qed.

End Authentication.

(** ** Subscriptions from open to close *)

Module Subscriptions.

Import Notifications EventStream.

Section Mailboxes.

Context {Text : Type} (json_dumps : json → Text).

Lemma publish_many_absent (later : list Blog) (clients : gmap string (list Text))
    (client_id : string) :
  clients !! client_id = None →
  foldl (λ clients blog, notify_new_pending_blog json_dumps blog clients)
        clients later !! client_id = None.
Proof.
  revert clients. induction later as [|blog later IH]; intros clients Hn; [done|].
  simpl. apply IH. by rewrite publish_lookup, Hn.
Qed.

Lemma read_lines_general (n : nat) (queue : list Text)
    (clients : gmap string (list Text)) (client_id : string) :
  clients !! client_id = Some queue →
  (read_lines n client_id clients).2
  = (DataLine <$> take n queue) ++ replicate (n - length queue) HeartbeatLine
  ∧ (read_lines n client_id clients).1 !! client_id = Some (drop n queue)
  ∧ ∀ other, other ≠ client_id →
             (read_lines n client_id clients).1 !! other = clients !! other.
Proof.
  revert queue clients. induction n as [|n IH]; intros queue clients Hq.
  - simpl. by rewrite drop_0.
  - simpl. unfold connect_next. rewrite Hq. destruct queue as [|message queue].
    + destruct (IH [] clients Hq) as (Hl & Hc & Ho).
      destruct (read_lines n client_id clients) as [clients2 lines]. simpl in *.
      rewrite Hl, Hc. simpl. rewrite take_nil, drop_nil, Nat.sub_0_r. done.
    + destruct (IH queue (<[client_id := queue]> clients) (lookup_insert_eq _ _ _))
        as (Hl & Hc & Ho).
      destruct (read_lines n client_id (<[client_id := queue]> clients))
        as [clients2 lines]. simpl in *.
      rewrite Hl, Hc. split; [done|]. split; [done|].
      intros other Hne. rewrite Ho by done. by rewrite lookup_insert_ne.
Qed.

End Mailboxes.

(** X19: a subscription leaves no trace: opening a stream under a fresh id
    registers an empty mailbox and produces the "connected" line, closing
    it gives back the registry exactly as it was, closing twice is the same
    as closing once, neither touches another subscriber's mailbox, and
    events published after the close are queued for nobody under that
    id. *)
Theorem subscription_leaves_no_trace {Text : Type} (json_dumps : json → Text)
    (clients : gmap string (list Text)) (client_id : string) :
  clients !! client_id = None →
  (connect_open json_dumps client_id clients).1 !! client_id = Some []
  ∧ (connect_open json_dumps client_id clients).2
    = DataLine (json_dumps (JObj [(py "type", JStr (py "connected"))]))
  ∧ connect_close client_id (connect_open json_dumps client_id clients).1 = clients
  ∧ (∀ later,
       foldl (λ clients blog, notify_new_pending_blog json_dumps blog clients)
             (connect_close client_id (connect_open json_dumps client_id clients).1)
             later !! client_id = None)
  ∧ (∀ c : gmap string (list Text),
       connect_close client_id (connect_close client_id c) = connect_close client_id c
       ∧ connect_close client_id c !! client_id = None
       ∧ ∀ other, other ≠ client_id →
                  connect_close client_id c !! other = c !! other
                  ∧ (connect_open json_dumps client_id c).1 !! other = c !! other).
Proof.
  intros Hfresh. unfold connect_open, connect_close. simpl.
  split; [apply lookup_insert_eq|]. split; [done|].
  assert (Hback : delete client_id (<[client_id := []]> clients) = clients).
  { rewrite delete_insert_eq. by apply delete_id. }
  split; [exact Hback|]. split.
  - intros later. rewrite Hback. by apply publish_many_absent.
  - intros c. split; [|split; [apply lookup_delete_eq|]].
    + apply delete_id, lookup_delete_eq.
    + intros other Hne. by rewrite lookup_delete_ne, lookup_insert_ne.
Qed.

Lemma subscription_leaves_no_trace_witness :
  let clients : gmap string (list json) := {[ "c1"%string := [JNull] ]} in
  clients !! "c2"%string = None
  ∧ connect_close "c2" (connect_open id "c2" clients).1 = clients.
Proof.
  intros clients. split; [reflexivity|].
  exact (proj1 (proj2 (proj2
    (subscription_leaves_no_trace (Text:=json) id clients "c2" eq_refl)))).
Defined.

(** X20: the stream hands out each queued message once, oldest first, and
    heartbeats when the mailbox is empty: reading [n] lines from a mailbox
    holding [queue] yields the first [n] messages of the queue as data
    lines followed by heartbeats for the rest, leaves the unread messages
    in the mailbox, and touches no other mailbox. *)
Theorem stream_delivers_each_message_once {Text : Type} (n : nat) (queue : list Text)
    (clients : gmap string (list Text)) (client_id : string) :
  clients !! client_id = Some queue →
  (read_lines n client_id clients).2
  = (DataLine <$> take n queue) ++ replicate (n - length queue) HeartbeatLine
  ∧ (read_lines n client_id clients).1 !! client_id = Some (drop n queue)
  ∧ ∀ other, other ≠ client_id →
             (read_lines n client_id clients).1 !! other = clients !! other.
Proof. apply read_lines_general. Qed.

Lemma stream_delivers_each_message_once_witness :
  let clients : gmap string (list json) := {[ "c1"%string := [JNull; JBool true] ]} in
  clients !! "c1"%string = Some [JNull; JBool true]
  ∧ (read_lines 3 "c1" clients).2
    = [DataLine JNull; DataLine (JBool true); HeartbeatLine].
Proof.
  intros clients. split; [reflexivity|].
  exact (proj1 (stream_delivers_each_message_once 3 [JNull; JBool true] clients "c1"
                  eq_refl)).
Defined.

End Subscriptions.

(** ** Role management *)

Module RoleManagement.

Import Rbac Roles Auth RoleRoutes RoleRequests Sample.

Lemma require_admin_Return (actor admin : User) :
  require_admin actor = Return admin → admin = actor ∧ role actor = ADMIN.
Proof.
  unfold require_admin. case_decide as Hr; [done|]. intros [= <-].
  split; [done|]. by destruct (decide (role actor = ADMIN)).
Qed.

Lemma require_admin_not_admin (actor : User) :
  role actor ≠ ADMIN →
  require_admin actor
  = Raise (mkHTTPException HTTP_403_FORBIDDEN "Access denied. Admin role required.").
Proof. intros Hr. unfold require_admin. case_decide; done. Qed.

(** What one call can do to the [users] table. *)
Lemma update_user_role_cases (db : Db) (role_data : UpdateRoleRequest) (actor : User) :
  (∃ e, update_user_role db role_data actor = (Raise e, db))
  ∨ ∃ target,
      role actor = ADMIN
      ∧ users db !! target_id role_data = Some target
      ∧ ¬ (target_id role_data = user_id actor ∧ new_role role_data ≠ ADMIN)
      ∧ update_user_role db role_data actor
        = (Return (mkUpdateRoleResponse
                     ("User role updated from " ++ role_value (role target)
                      ++ " to " ++ role_value (new_role role_data))%string
                     (set_role target (new_role role_data))),
           set_users db (<[user_id target := set_role target (new_role role_data)]>
                           (users db))).
Proof.
  unfold update_user_role.
  destruct (require_admin actor) as [admin|e] eqn:Hr; [|eauto].
  apply require_admin_Return in Hr as [-> Hr].
  case_decide as Hself; [eauto|].
  destruct (users db !! target_id role_data) as [target|] eqn:Ht; [|eauto].
  right. exists target. done.
Qed.

Lemma update_user_role_wf (db : Db) (role_data : UpdateRoleRequest) (actor : User) :
  users_wf db → users_wf (update_user_role db role_data actor).2.
Proof.
  intros Hwf.
  destruct (update_user_role_cases db role_data actor)
    as [[e ->]|(target & _ & Ht & _ & ->)]; [done|].
  intros i u. simpl. rewrite lookup_insert. case_decide; [|by apply Hwf].
  intros [= <-]. done.
Qed.

(** X21: changing roles is for admins only and never costs the caller
    their own role.  A caller who is not an admin gets 403, a demotion of
    oneself 400, an unknown target 404, all without any change; a
    successful call rewrites only the role of the target row (same id,
    name and activity flag), leaves every other user, the posts and the
    comments alone, and leaves the caller's stored role as it was. *)
Theorem role_update_never_changes_the_caller (db : Db) (role_data : UpdateRoleRequest)
    (actor : User) :
  users_wf db → users db !! user_id actor = Some actor →
  let outcome := update_user_role db role_data actor in
  (∃ a, users outcome.2 !! user_id actor = Some a ∧ role a = role actor)
  ∧ blogs outcome.2 = blogs db ∧ comments outcome.2 = comments db
  ∧ (∀ j, j ≠ target_id role_data → users outcome.2 !! j = users db !! j)
  ∧ (role actor ≠ ADMIN →
     ∃ e, outcome = (Raise e, db) ∧ status_code e = HTTP_403_FORBIDDEN)
  ∧ (role actor = ADMIN → target_id role_data = user_id actor →
     new_role role_data ≠ ADMIN →
     ∃ e, outcome = (Raise e, db) ∧ status_code e = HTTP_400_BAD_REQUEST)
  ∧ (role actor = ADMIN → target_id role_data ≠ user_id actor →
     users db !! target_id role_data = None →
     outcome = (Raise user_not_found, db))
  ∧ (∀ response,
       outcome.1 = Return response →
       ∃ target,
         users db !! target_id role_data = Some target
         ∧ updated_user response = set_role target (new_role role_data)
         ∧ users outcome.2 !! target_id role_data = Some (updated_user response)
         ∧ role (updated_user response) = new_role role_data
         ∧ user_id (updated_user response) = user_id target
         ∧ username (updated_user response) = username target
         ∧ is_active (updated_user response) = is_active target).
Proof.
  intros Hwf Hactor outcome. unfold outcome.
  split; [|split; [|split; [|split; [|split; [|split; [|split]]]]]].
  - destruct (update_user_role_cases db role_data actor)
      as [[e ->]|(target & Hadmin & Ht & Hself & ->)]; [eauto|].
    simpl. pose proof (Hwf _ _ Ht) as Hkey. rewrite Hkey.
    rewrite lookup_insert. case_decide as Heq; [|eauto].
    eexists. split; [done|]. simpl.
    assert (target = actor) as -> by congruence.
    destruct (decide (new_role role_data = ADMIN)) as [->|Hn]; [done|].
    exfalso. apply Hself. split; congruence.
  - destruct (update_user_role_cases db role_data actor)
      as [[e ->]|(target & _ & _ & _ & ->)]; done.
  - destruct (update_user_role_cases db role_data actor)
      as [[e ->]|(target & _ & _ & _ & ->)]; done.
  - intros j Hj.
    destruct (update_user_role_cases db role_data actor)
      as [[e ->]|(target & _ & Ht & _ & ->)]; [done|].
    simpl. rewrite (Hwf _ _ Ht). by rewrite lookup_insert_ne.
  - intros Hr. unfold update_user_role. rewrite (require_admin_not_admin _ Hr). eauto.
  - intros Hr Hself Hnew. unfold update_user_role, require_admin.
    case_decide; [done|]. case_decide as Hc; [eauto|]. exfalso. by apply Hc.
  - intros Hr Hother Hnone. unfold update_user_role, require_admin.
    case_decide; [done|]. case_decide as Hc; [by destruct Hc|]. by rewrite Hnone.
  - intros response.
    destruct (update_user_role_cases db role_data actor)
      as [[e ->]|(target & _ & Ht & _ & ->)]; [done|].
    simpl. intros [= <-]. exists target. simpl.
    rewrite (Hwf _ _ Ht), lookup_insert_eq. done.
Qed.

Lemma role_update_never_changes_the_caller_witness :
  users_wf db_empty ∧ users db_empty !! user_id root = Some root
  ∧ ∃ e, update_user_role db_empty (mkUpdateRoleRequest 3 USER) root = (Raise e, db_empty)
         ∧ status_code e = HTTP_400_BAD_REQUEST.
Proof.
  assert (Hwf : users_wf db_empty).
  { intros i u Hl. simpl in Hl. unfold people in Hl.
    repeat (apply lookup_insert_Some in Hl as [[<- <-]|[_ Hl]]; [reflexivity|]).
    by rewrite lookup_empty in Hl. }
  split; [exact Hwf|]. split; [reflexivity|].
  pose proof (role_update_never_changes_the_caller db_empty (mkUpdateRoleRequest 3 USER)
                root Hwf eq_refl) as H.
  cbn zeta in H. destruct H as (_ & _ & _ & _ & _ & Hself & _).
  apply Hself; [reflexivity|reflexivity|discriminate].
Defined.

Section Requests.

Context (token_subject : pystr → option Z).

Lemma get_current_active_user_stored (db : Db) (credentials : option pystr)
    (user : User) :
  users_wf db →
  get_current_active_user token_subject db credentials = Return user →
  users db !! user_id user = Some user.
Proof.
  intros Hwf. unfold get_current_active_user, get_current_user.
  destruct credentials as [token|]; [|done].
  destruct (token_subject token) as [uid|]; [|done].
  destruct (users db !! uid) as [u|] eqn:Hu; [|done].
  destruct (is_active u); [|done]. simpl. intros [= <-].
  by rewrite (Hwf _ _ Hu).
Qed.

Lemma request_keeps_an_admin (db : Db) (credentials : option pystr)
    (role_data : UpdateRoleRequest) :
  users_wf db → has_an_admin db →
  users_wf (update_user_role_request token_subject db credentials role_data).2
  ∧ has_an_admin (update_user_role_request token_subject db credentials role_data).2.
Proof.
  intros Hwf Hadmin. unfold update_user_role_request.
  destruct (get_current_active_user token_subject db credentials) as [actor|e] eqn:Ha;
    [|done].
  apply get_current_active_user_stored in Ha; [|done].
  split; [by apply update_user_role_wf|].
  destruct (update_user_role_cases db role_data actor)
    as [[e ->]|(target & Hr & Ht & Hself & Heq)]; [done|].
  pose proof (role_update_never_changes_the_caller db role_data actor Hwf Ha) as H.
  cbn zeta in H. destruct H as ((a & Hl & Hrole) & _).
  exists (user_id actor), a. split; [done|]. congruence.
Qed.

End Requests.

(** X22: the application cannot lose its last admin through role updates:
    if some stored user is an admin, then after any sequence of role-update
    requests, whoever sends them and whatever they ask, some stored user
    is still an admin. *)
Theorem role_updates_keep_an_admin (token_subject : pystr → option Z) (db : Db)
    (requests : list (option pystr * UpdateRoleRequest)) :
  users_wf db → has_an_admin db →
  has_an_admin (run_role_updates token_subject db requests).
Proof.
  revert db. induction requests as [|[credentials role_data] requests IH];
    intros db Hwf Hadmin; [done|].
  simpl. destruct (request_keeps_an_admin token_subject db credentials role_data
                     Hwf Hadmin) as [Hwf1 Hadmin1].
  by apply IH.
Qed.

Lemma role_updates_keep_an_admin_witness :
  users_wf db_empty ∧ has_an_admin db_empty
  ∧ has_an_admin
      (run_role_updates sample_subject db_empty
         [(Some (py "root-token"), mkUpdateRoleRequest 3 USER);
          (Some (py "root-token"), mkUpdateRoleRequest 1 ADMIN);
          (Some (py "alice-token"), mkUpdateRoleRequest 3 USER)]).
Proof.
  assert (Hwf : users_wf db_empty).
  { intros i u Hl. simpl in Hl. unfold people in Hl.
    repeat (apply lookup_insert_Some in Hl as [[<- <-]|[_ Hl]]; [reflexivity|]).
    by rewrite lookup_empty in Hl. }
  assert (Hadmin : has_an_admin db_empty) by (exists 3, root; split; reflexivity).
  split; [exact Hwf|]. split; [exact Hadmin|].
  exact (role_updates_keep_an_admin sample_subject db_empty _ Hwf Hadmin).
Defined.

End RoleManagement.

(** ** Drafts *)

Module DraftStore.

Import Drafts Sample.

Lemma save_draft_row (sessions : gmap Z Session) (clock : Clock) (actor : User)
    (draft : DraftSave) :
  let saved := save_draft sessions clock actor draft in
  saved.2 = <[user_id actor := saved.1]> sessions
  ∧ draft_data saved.1 = Some (model_dump draft)
  ∧ expires_at saved.1 = for_expires_at clock + thirty_days
  ∧ session_updated_at saved.1 = for_updated_at clock
  ∧ match sessions !! user_id actor with
    | Some old => session_id saved.1 = session_id old
                  ∧ session_created_at saved.1 = session_created_at old
                  ∧ session_user_id saved.1 = session_user_id old
    | None => session_id saved.1 = next_session_id sessions
              ∧ session_created_at saved.1 = for_created_at clock
              ∧ session_user_id saved.1 = user_id actor
    end.
Proof.
  unfold save_draft. cbn zeta. destruct (sessions !! user_id actor); simpl; done.
Qed.

(** X23: a draft that was saved is read back as it was saved, until it
    expires.  A valid save with at least one field that is not null
    answers with exactly the fields that were sent (an unset or null field
    reads as absent), with the clock reading taken for [updated_at] as the
    save time, and with an expiry thirty days after the clock reading
    taken for [expires_at].  Reading at any time up to that expiry gives
    the same answer and changes nothing, and saving touched no other
    user's draft. *)
Theorem saved_draft_is_read_back (sessions : gmap Z Session) (clock : Clock)
    (read_on : Z) (draft : DraftSave) (actor : User) :
  valid_DraftSave draft → draft_truthy (model_dump draft) = true →
  read_on ≤ for_expires_at clock + thirty_days →
  ∃ response sessions1,
    save_draft_endpoint sessions clock draft actor = (Return response, sessions1)
    ∧ get_draft_endpoint sessions1 read_on actor = (response, sessions1)
    ∧ response_title response = mjoin (save_title draft)
    ∧ response_content response = mjoin (save_content draft)
    ∧ response_images response = mjoin (save_images draft)
    ∧ saved_at response = Some (for_updated_at clock)
    ∧ response_expires_at response = Some (for_expires_at clock + thirty_days)
    ∧ (∀ other, other ≠ user_id actor → sessions1 !! other = sessions !! other).
Proof.
  intros Hv Hfull Hfresh.
  pose proof (save_draft_row sessions clock actor draft) as H. cbn zeta in H.
  destruct H as (Htable & Hdata & Hexp & Hupd & _).
  unfold save_draft_endpoint. case_decide; [|done].
  destruct (save_draft sessions clock actor draft) as [session sessions1] eqn:Hs.
  simpl in *. subst sessions1.
  exists (response_of session), (<[user_id actor := session]> sessions).
  split; [done|]. split.
  - unfold get_draft_endpoint, get_draft. rewrite lookup_insert_eq.
    unfold is_expired. rewrite bool_decide_eq_false_2 by lia.
    rewrite Hdata. simpl. by rewrite Hfull.
  - unfold response_of. rewrite Hdata, Hexp, Hupd. simpl.
    repeat (split; [done|]). intros other Hne. by rewrite lookup_insert_ne.
Qed.

Lemma saved_draft_is_read_back_witness :
  let draft := mkDraftSave (Some (Some (py "Idea"))) (Some None) None in
  let clock := mkClock 3 1 2 in
  valid_DraftSave draft ∧ draft_truthy (model_dump draft) = true
  ∧ 5 ≤ for_expires_at clock + thirty_days
  ∧ ∃ response sessions1,
      save_draft_endpoint ∅ clock draft alice = (Return response, sessions1)
      ∧ get_draft_endpoint sessions1 5 alice = (response, sessions1)
      ∧ response_title response = Some (py "Idea")
      ∧ response_content response = None
      ∧ saved_at response = Some 3
      ∧ response_expires_at response = Some (1 + thirty_days).
Proof.
  intros draft clock.
  assert (Hv : valid_DraftSave draft) by (vm_compute; lia).
  assert (Ht : 5 ≤ for_expires_at clock + thirty_days) by (unfold thirty_days; simpl; lia).
  split; [exact Hv|]. split; [reflexivity|]. split; [exact Ht|].
  destruct (saved_draft_is_read_back ∅ clock 5 draft alice Hv eq_refl Ht)
    as (response & sessions1 & Hsave & Hget & Htitle & Hcontent & _ & Hat & Hexp & _).
  exists response, sessions1. repeat split; assumption.
Defined.

(** X24: a draft past its expiry is gone: reading it returns the empty
    response and removes the row, so that a second read finds nothing
    either, other users' drafts are untouched, and the next save starts a
    new draft, whose creation time is the clock reading taken for it
    during that save. *)
Theorem expired_draft_is_dropped (sessions : gmap Z Session) (now : Z)
    (session : Session) (actor : User) :
  sessions !! user_id actor = Some session → now > expires_at session →
  get_draft_endpoint sessions now actor
  = (empty_response, delete (user_id actor) sessions)
  ∧ (∀ later,
       get_draft_endpoint (delete (user_id actor) sessions) later actor
       = (empty_response, delete (user_id actor) sessions))
  ∧ (∀ other, other ≠ user_id actor →
              delete (user_id actor) sessions !! other = sessions !! other)
  ∧ (∀ clock draft,
       session_created_at
         (save_draft (delete (user_id actor) sessions) clock actor draft).1
       = for_created_at clock).
Proof.
  intros Hs Hexp. split; [|split; [|split]].
  - unfold get_draft_endpoint, get_draft. rewrite Hs. unfold is_expired.
    by rewrite bool_decide_eq_true_2.
  - intros later. unfold get_draft_endpoint, get_draft. by rewrite lookup_delete_eq.
  - intros other Hne. by rewrite lookup_delete_ne.
  - intros clock draft. unfold save_draft. by rewrite lookup_delete_eq.
Qed.

Lemma expired_draft_is_dropped_witness :
  let old := mkSession 1 1 (Some (mkDraftData (Some (py "Idea")) None None)) 100 0 0 in
  let sessions : gmap Z Session := {[1 := old]} in
  sessions !! user_id alice = Some old ∧ 101 > expires_at old
  ∧ get_draft_endpoint sessions 101 alice = (empty_response, delete 1 sessions).
Proof.
  intros old sessions. split; [reflexivity|].
  assert (Hexp : 101 > expires_at old) by (simpl; lia).
  split; [exact Hexp|].
  exact (proj1 (expired_draft_is_dropped sessions 101 old alice eq_refl Hexp)).
Defined.

(** X25: saving again replaces the draft, it does not merge: after two
    saves the user still has one row, with the id and creation time the
    first save gave it, holding exactly the fields of the second draft
    (a field only the first draft had is gone), and stamped by the second
    save alone: its [updated_at] is the reading the second save took for
    it, and its expiry is thirty days after the reading the second save
    took for [expires_at].  No reading of the second save reaches
    [created_at]. *)
Theorem resaving_replaces_the_draft (sessions : gmap Z Session) (c1 c2 : Clock)
    (d1 d2 : DraftSave) (actor : User) :
  let first := save_draft sessions c1 actor d1 in
  let second := save_draft first.2 c2 actor d2 in
  second.2 !! user_id actor = Some second.1
  ∧ draft_data second.1 = Some (model_dump d2)
  ∧ session_id second.1 = session_id first.1
  ∧ session_created_at second.1 = session_created_at first.1
  ∧ session_updated_at second.1 = for_updated_at c2
  ∧ expires_at second.1 = for_expires_at c2 + thirty_days
  ∧ size second.2 = size first.2
  ∧ (∀ other, other ≠ user_id actor → second.2 !! other = sessions !! other).
Proof.
  intros first second.
  pose proof (save_draft_row sessions c1 actor d1) as H1. cbn zeta in H1.
  fold first in H1. destruct H1 as (Htable1 & _).
  pose proof (save_draft_row first.2 c2 actor d2) as H2. cbn zeta in H2.
  fold second in H2. destruct H2 as (Htable2 & Hdata & Hexp & Hupd & Hold).
  assert (Hl1 : first.2 !! user_id actor = Some first.1)
    by (rewrite Htable1; apply lookup_insert_eq).
  rewrite Hl1 in Hold. destruct Hold as (Hid & Hcr & _).
  split; [rewrite Htable2; apply lookup_insert_eq|].
  repeat (split; [done|]). split.
  - rewrite Htable2. rewrite map_size_insert_Some; [done|]. by rewrite Hl1.
  - intros other Hne. rewrite Htable2, lookup_insert_ne by done.
    by rewrite Htable1, lookup_insert_ne.
Qed.

(** X26: a draft with nothing in it reads as no draft: when every field of
    the request is unset or null the save succeeds, stores a row and
    answers with a save time (the reading taken for [updated_at]) and an
    expiry (thirty days after the reading taken for [expires_at]), yet
    reading the draft, at any time, answers with the empty response,
    without a save time or an expiry. *)
Theorem empty_draft_reads_as_no_draft (sessions : gmap Z Session) (clock : Clock)
    (read_on : Z) (draft : DraftSave) (actor : User) :
  valid_DraftSave draft → draft_truthy (model_dump draft) = false →
  ∃ response sessions1 session,
    save_draft_endpoint sessions clock draft actor = (Return response, sessions1)
    ∧ saved_at response = Some (for_updated_at clock)
    ∧ response_expires_at response = Some (for_expires_at clock + thirty_days)
    ∧ sessions1 !! user_id actor = Some session
    ∧ (get_draft_endpoint sessions1 read_on actor).1 = empty_response
    ∧ saved_at (get_draft_endpoint sessions1 read_on actor).1 = None
    ∧ response_expires_at (get_draft_endpoint sessions1 read_on actor).1 = None.
Proof.
  intros Hv Hempty.
  pose proof (save_draft_row sessions clock actor draft) as H. cbn zeta in H.
  destruct H as (Htable & Hdata & Hexp & Hupd & _).
  unfold save_draft_endpoint. case_decide; [|done].
  destruct (save_draft sessions clock actor draft) as [session sessions1] eqn:Hs.
  simpl in *. subst sessions1.
  exists (response_of session), (<[user_id actor := session]> sessions), session.
  split; [done|]. unfold response_of. rewrite Hexp, Hupd. simpl.
  split; [done|]. split; [done|]. split; [apply lookup_insert_eq|].
  assert (Hread : (get_draft_endpoint (<[user_id actor := session]> sessions)
                                      read_on actor).1 = empty_response).
  { unfold get_draft_endpoint, get_draft. rewrite lookup_insert_eq.
    destruct (is_expired session read_on); [done|].
    rewrite Hdata. simpl. by rewrite Hempty. }
  split; [exact Hread|]. by rewrite Hread.
Qed.

Lemma empty_draft_reads_as_no_draft_witness :
  let draft := mkDraftSave (Some None) None None in
  let clock := mkClock 3 1 2 in
  valid_DraftSave draft ∧ draft_truthy (model_dump draft) = false
  ∧ ∃ response sessions1,
      save_draft_endpoint ∅ clock draft alice = (Return response, sessions1)
      ∧ saved_at response = Some 3
      ∧ response_expires_at response = Some (1 + thirty_days)
      ∧ (get_draft_endpoint sessions1 2 alice).1 = empty_response.
Proof.
  intros draft clock.
  assert (Hv : valid_DraftSave draft) by exact I.
  split; [exact Hv|]. split; [reflexivity|].
  destruct (empty_draft_reads_as_no_draft ∅ clock 2 draft alice Hv eq_refl)
    as (response & sessions1 & session & Hsave & Hat & Hexp & _ & Hread & _).
  exists response, sessions1. repeat split; assumption.
Defined.

End DraftStore.

(** ** Feature requests *)

Module FeatureBoard.

Import Rbac FeatureRequests Sample Listing.

#[local] Instance fr_newest_first_total : Total fr_newest_first.
Proof. intros a b. unfold fr_newest_first. lia. Qed.

#[local] Instance fr_newest_first_trans : Transitive fr_newest_first.
Proof. intros a b c. unfold fr_newest_first. lia. Qed.

(** The endpoint recognises an admin by the lower-cased name of the role. *)
Lemma admin_by_name (r : UserRole) :
  bool_decide (lower (role_name r) = "admin"%string) = bool_decide (r = ADMIN).
Proof. by destruct r. Qed.

Lemma selected_iff (actor : User) (status_filter : option FeatureRequestStatus.t)
    (fr : FeatureRequest) :
  selected actor status_filter fr
  ↔ (role actor ≠ ADMIN → fr_user_id fr = user_id actor)
    ∧ (∀ s, status_filter = Some s → fr_status fr = s).
Proof.
  unfold selected. rewrite admin_by_name.
  case_bool_decide as Hr; simpl; destruct status_filter as [s|]; naive_solver.
Qed.

Lemma count_selected (table : gmap Z FeatureRequest) (actor : User)
    (status_filter : option FeatureRequestStatus.t) :
  length (filter (selected actor status_filter) (map_to_list table).*2)
  = size (filter (λ kv : Z * FeatureRequest, selected actor status_filter kv.2) table).
Proof.
  rewrite length_filter_snd.
  rewrite map_filter_alt. rewrite map_size_list_to_map; [done|].
  eapply (sublist_NoDup _ ((map_to_list table).*1)).
  - apply NoDup_fst_map_to_list.
  - apply fmap_sublist, sublist_filter.
Qed.

Lemma list_feature_requests_valid (table : gmap Z FeatureRequest) (limit offset : Z)
    (status_filter : option FeatureRequestStatus.t) (actor : User) :
  1 ≤ limit ≤ 100 → 0 ≤ offset →
  list_feature_requests table (Some limit) (Some offset) status_filter actor
  = Return (mkFeatureRequestListResponse
              (take (Z.to_nat limit)
                 (drop (Z.to_nat offset)
                    (merge_sort fr_newest_first
                       (filter (selected actor status_filter) (map_to_list table).*2))))
              (Z.of_nat (size (filter (λ kv : Z * FeatureRequest,
                                         selected actor status_filter kv.2) table)))
              limit offset).
Proof.
  intros Hl Ho. unfold list_feature_requests. simpl default.
  case_decide; [|lia]. by rewrite count_selected.
Qed.

(** X27: the feature request listing is scoped to its reader: for a valid
    window, every listed request is a stored one that passes the status
    filter and, unless the reader is an admin, belongs to the reader (an
    approver is not an admin here); the items come newest first and are at
    most [limit]; the total counts all requests the reader may see with
    that filter, which for an admin without filter is the whole table. *)
Theorem feature_request_listing_is_scoped (table : gmap Z FeatureRequest)
    (limit offset : Z) (status_filter : option FeatureRequestStatus.t) (actor : User) :
  1 ≤ limit ≤ 100 → 0 ≤ offset →
  ∃ response,
    list_feature_requests table (Some limit) (Some offset) status_filter actor
    = Return response
    ∧ (∀ fr, fr ∈ fr_items response →
             (∃ i, table !! i = Some fr)
             ∧ (role actor ≠ ADMIN → fr_user_id fr = user_id actor)
             ∧ (∀ s, status_filter = Some s → fr_status fr = s))
    ∧ StronglySorted fr_newest_first (fr_items response)
    ∧ Z.of_nat (length (fr_items response)) ≤ limit
    ∧ fr_total response
      = Z.of_nat (size (filter (λ kv : Z * FeatureRequest,
                                  selected actor status_filter kv.2) table))
    ∧ (role actor = ADMIN → status_filter = None →
       fr_total response = Z.of_nat (size table))
    ∧ fr_limit response = limit ∧ fr_offset response = offset.
Proof.
  intros Hl Ho. eexists. split; [by apply list_feature_requests_valid|]. simpl.
  split; [|split; [|split; [|split; [done|split; [|done]]]]].
  - intros fr Hin.
    eapply elem_of_sublist in Hin; [|etrans; [apply sublist_take|apply sublist_drop]].
    rewrite merge_sort_Permutation in Hin.
    apply list_elem_of_filter in Hin as [Hsel Hin]. apply selected_iff in Hsel.
    split; [|done]. apply list_elem_of_fmap in Hin as ([i fr'] & -> & Hin).
    exists i. by apply elem_of_map_to_list.
  - eapply StronglySorted_sublist;
      [etrans; [apply sublist_take|apply sublist_drop]|].
    apply StronglySorted_merge_sort; apply _.
  - rewrite length_take. lia.
  - intros Hr ->. f_equal. f_equal. apply map_filter_id.
    intros i fr _. apply selected_iff. simpl. split; [done|]. intros s [=].
Qed.

Lemma feature_request_listing_is_scoped_witness :
  let mine := mkFeatureRequest 1 (py "Dark mode") (py "Please") FeatureRequestStatus.PENDING
                               1 (Some 0) (Some 0) 5 5 in
  let theirs := mkFeatureRequest 2 (py "Export") (py "CSV") FeatureRequestStatus.PENDING
                                 2 (Some 0) (Some 0) 6 6 in
  let table : gmap Z FeatureRequest := {[1 := mine; 2 := theirs]} in
  1 ≤ 10 ≤ 100 ∧ 0 ≤ 0
  ∧ ∃ response,
      list_feature_requests table (Some 10) (Some 0) None alice = Return response
      ∧ ∀ fr, fr ∈ fr_items response → fr_user_id fr = user_id alice.
Proof.
  intros mine theirs table.
  assert (Hl : 1 ≤ 10 ≤ 100) by lia. assert (Ho : 0 ≤ 0) by lia.
  split; [exact Hl|]. split; [exact Ho|].
  destruct (feature_request_listing_is_scoped table 10 0 None alice Hl Ho)
    as (response & Hrun & Hitems & _).
  exists response. split; [exact Hrun|].
  intros fr Hin. destruct (Hitems fr Hin) as (_ & Hmine & _).
  apply Hmine. discriminate.
Defined.

Lemma next_fr_id_fresh (table : gmap Z FeatureRequest) : table !! next_fr_id table = None.
Proof.
  destruct (table !! next_fr_id table) as [fr|] eqn:Hfr; [|done].
  assert (Hin : next_fr_id table ∈ elements (dom table)).
  { apply elem_of_elements, elem_of_dom. eauto. }
  apply max_key_upper in Hin. unfold next_fr_id in Hin. lia.
Qed.

(** X28: a valid feature request is stored under a free id as PENDING, owned
    by the actor, with the given priority or 0 when none was given and a
    rating of 0; its two time stamps are the two clock readings the
    column defaults take at the insert, one each; the other requests are
    untouched; the owner's and an admin's unfiltered totals grow by one
    while the total of any other reader who is not an admin stays as it
    was.  An invalid payload is refused with 422 and stores nothing. *)
Theorem feature_request_creation (table : gmap Z FeatureRequest)
    (created_now updated_now : Z)
    (payload : FeatureRequestCreate) (actor : User) :
  (valid_FeatureRequestCreate payload →
   ∃ fr table1,
     create_feature_request table created_now updated_now payload actor
     = (Return fr, table1)
     ∧ table !! fr_id fr = None
     ∧ table1 = <[fr_id fr := fr]> table
     ∧ fr_status fr = FeatureRequestStatus.PENDING
     ∧ fr_user_id fr = user_id actor
     ∧ fr_title fr = new_title payload ∧ fr_description fr = new_description payload
     ∧ priority fr = Some (default 0 (new_priority payload))
     ∧ rating fr = Some 0
     ∧ fr_created_at fr = created_now ∧ fr_updated_at fr = updated_now
     ∧ (∀ reader,
          size (filter (λ kv : Z * FeatureRequest, selected reader None kv.2) table1)
          = if decide (role reader = ADMIN ∨ user_id reader = user_id actor)
            then S (size (filter (λ kv : Z * FeatureRequest,
                                    selected reader None kv.2) table))
            else size (filter (λ kv : Z * FeatureRequest,
                                 selected reader None kv.2) table)))
  ∧ (¬ valid_FeatureRequestCreate payload →
     ∃ e, create_feature_request table created_now updated_now payload actor
          = (Raise e, table)
          ∧ status_code e = HTTP_422_UNPROCESSABLE_ENTITY).
Proof.
  unfold create_feature_request. split.
  - intros Hv. case_decide; [|done]. eexists _, _. split; [reflexivity|]. simpl.
    pose proof (next_fr_id_fresh table) as Hfresh.
    split; [done|]. repeat (split; [done|]).
    intros reader. case_decide as Hsee.
    + rewrite map_filter_insert_True.
      * rewrite map_size_insert_None; [done|].
        apply map_lookup_filter_None. by left.
      * apply selected_iff. simpl. split; [|by intros s [=]].
        intros Hr. destruct Hsee as [?|?]; [done|congruence].
    + f_equal. apply map_filter_insert_not'.
      * intros Hsel. apply selected_iff in Hsel as [Hown _]. simpl in *.
        apply Hsee. destruct (decide (role reader = ADMIN)); [by left|].
        right. symmetry. by apply Hown.
      * intros y Hy. simpl in Hy. congruence.
  - intros Hv. case_decide; [done|]. eauto.
Qed.

Lemma feature_request_creation_witness :
  let payload := mkFeatureRequestCreate (py "Dark mode") (py "Please") None in
  valid_FeatureRequestCreate payload
  ∧ ∃ fr table1,
      create_feature_request ∅ 5 6 payload alice = (Return fr, table1)
      ∧ priority fr = Some 0 ∧ fr_status fr = FeatureRequestStatus.PENDING
      ∧ fr_created_at fr = 5 ∧ fr_updated_at fr = 6.
Proof.
  intros payload.
  assert (Hv : valid_FeatureRequestCreate payload) by (vm_compute; lia).
  split; [exact Hv|].
  destruct (proj1 (feature_request_creation ∅ 5 6 payload alice) Hv)
    as (fr & table1 & Hrun & _ & _ & Hs & _ & _ & _ & Hp & _ & Hc & Hu & _).
  exists fr, table1. repeat split; assumption.
Defined.

(** X29: only an admin can update a feature request, and an update changes
    only what the patch names: anyone else, approvers included, gets 403;
    an unknown id gets 404; a patch that sets the status to null cannot be
    stored and changes nothing.  A successful update returns the row with
    status, priority and rating taken from the patch where it has them,
    its id, title, description, owner and creation time as before, and
    [updated_at] set to the time of the request exactly when some value
    changed; no other request is touched. *)
Theorem feature_request_update (table : gmap Z FeatureRequest) (now i : Z)
    (payload : FeatureRequestUpdate) (actor : User) :
  Invariants.requests_wf table →
  let outcome := update_feature_request table now i payload actor in
  (role actor ≠ ADMIN →
   ∃ e, outcome = (Raise e, table) ∧ status_code e = HTTP_403_FORBIDDEN)
  ∧ (role actor = ADMIN → valid_FeatureRequestUpdate payload → table !! i = None →
     ∃ e, outcome = (Raise e, table) ∧ status_code e = HTTP_404_NOT_FOUND)
  ∧ (role actor = ADMIN → valid_FeatureRequestUpdate payload →
     is_Some (table !! i) → upd_status payload = Some None →
     ∃ e, outcome = (Raise e, table) ∧ status_code e = HTTP_500_INTERNAL_SERVER_ERROR)
  ∧ (∀ j, j ≠ i → outcome.2 !! j = table !! j)
  ∧ (∀ updated,
       outcome.1 = Return updated →
       ∃ fr,
         table !! i = Some fr ∧ role actor = ADMIN
         ∧ outcome.2 !! i = Some updated
         ∧ fr_status updated = default (fr_status fr) (mjoin (upd_status payload))
         ∧ priority updated = default (priority fr) (upd_priority payload)
         ∧ rating updated = default (rating fr) (upd_rating payload)
         ∧ fr_id updated = fr_id fr ∧ fr_title updated = fr_title fr
         ∧ fr_description updated = fr_description fr
         ∧ fr_user_id updated = fr_user_id fr
         ∧ fr_created_at updated = fr_created_at fr
         ∧ ((updated = fr ∧ outcome.2 = table)
            ∨ (fr_updated_at updated = now
               ∧ (fr_status updated ≠ fr_status fr ∨ priority updated ≠ priority fr
                  ∨ rating updated ≠ rating fr)))).
Proof.
  intros Hwf outcome. unfold outcome, update_feature_request.
  split; [|split; [|split; [|split]]].
  - intros Hr. unfold require_admin. case_decide; [eauto|done].
  - intros Hr Hv Hnone. unfold require_admin. case_decide; [done|].
    case_decide; [|done]. rewrite Hnone. eauto.
  - intros Hr Hv [fr Hfr] Hnull. unfold require_admin. case_decide; [done|].
    case_decide; [|done]. rewrite Hfr. unfold apply_fr_update. rewrite Hnull. simpl.
    eauto.
  - intros j Hj. destruct (require_admin actor); [|done].
    case_decide; [|done]. destruct (table !! i) as [fr|] eqn:Hfr; [|done].
    destruct (apply_fr_update fr payload) as [fr1|] eqn:Hu; [|done].
    unfold flush_fr. case_decide; [done|]. simpl.
    assert (Hid : fr_id fr1 = fr_id fr).
    { unfold apply_fr_update in Hu. destruct (upd_status payload) as [[s|]|];
        simpl in Hu; [| |]; try discriminate; by injection Hu as <-. }
    rewrite Hid, (Hwf _ _ Hfr). by rewrite lookup_insert_ne.
  - intros updated. unfold require_admin. case_decide as Hr; [done|].
    assert (Hadmin : role actor = ADMIN) by (by destruct (decide (role actor = ADMIN))).
    case_decide; [|done]. destruct (table !! i) as [fr|] eqn:Hfr; [|done].
    destruct (apply_fr_update fr payload) as [fr1|] eqn:Hu; [|done].
    assert (Hfields : fr_status fr1 = default (fr_status fr) (mjoin (upd_status payload))
                      ∧ priority fr1 = default (priority fr) (upd_priority payload)
                      ∧ rating fr1 = default (rating fr) (upd_rating payload)
                      ∧ fr_id fr1 = fr_id fr ∧ fr_title fr1 = fr_title fr
                      ∧ fr_description fr1 = fr_description fr
                      ∧ fr_user_id fr1 = fr_user_id fr
                      ∧ fr_created_at fr1 = fr_created_at fr
                      ∧ fr_updated_at fr1 = fr_updated_at fr).
    { unfold apply_fr_update in Hu. destruct (upd_status payload) as [[s|]|];
        simpl in Hu; [| |]; try discriminate; by injection Hu as <-. }
    destruct Hfields as (Hs & Hp & Hrt & Hid & Ht & Hd & Hu' & Hc & Hup).
    pose proof (Hwf _ _ Hfr) as Hkey.
    unfold flush_fr. case_decide as Hsame; simpl.
    + intros [= <-]. exists fr. subst fr1. repeat (split; [done|]). by left.
    + intros [= <-]. exists fr. simpl. rewrite Hid, Hkey, lookup_insert_eq.
      repeat (split; [done|]). right. split; [done|].
      destruct (decide (fr_status fr1 = fr_status fr)) as [Es|]; [|by left].
      destruct (decide (priority fr1 = priority fr)) as [Ep|]; [|by right; left].
      destruct (decide (rating fr1 = rating fr)) as [Er|]; [|by right; right].
      exfalso. apply Hsame. destruct fr1, fr. simpl in *. congruence.
Qed.

Lemma feature_request_update_witness :
  let mine := mkFeatureRequest 1 (py "Dark mode") (py "Please") FeatureRequestStatus.PENDING
                               1 (Some 0) (Some 0) 5 5 in
  let table : gmap Z FeatureRequest := {[1 := mine]} in
  Invariants.requests_wf table
  ∧ ∃ e, update_feature_request table 9 1
           (mkFeatureRequestUpdate (Some (Some FeatureRequestStatus.ACCEPTED)) None None)
           carol
         = (Raise e, table)
         ∧ status_code e = HTTP_403_FORBIDDEN.
Proof.
  intros mine table.
  assert (Hwf : Invariants.requests_wf table).
  { intros j fr Hl. apply lookup_singleton_Some in Hl as [<- <-]. reflexivity. }
  split; [exact Hwf|].
  pose proof (feature_request_update table 9 1
                (mkFeatureRequestUpdate (Some (Some FeatureRequestStatus.ACCEPTED))
                                        None None) carol Hwf) as H.
  cbn zeta in H. destruct H as (Hforbidden & _).
  apply Hforbidden. discriminate.
Defined.

End FeatureBoard.
